(** * UDS-over-ISO-TP transaction engine and service façade

    Shallow embedding of [vci_uds_transaction.cpp] ([vci::uds::tp::Transaction])
    and of [vci_uds_service.cpp] ([vci::uds::Service]).

    Time is the millisecond tick of the precision timer; the CAN bus is a
    FIFO of inbound frames stamped with their arrival time; another thread's
    [stopExecution()] is the time at which the abort flag becomes set. *)

From Stdlib Require Import Arith Bool List ZArith Lia.
Import ListNotations.
Open Scope Z_scope.

(** ** Result codes ([VciUdsResultCode]) *)

Inductive VciUdsResultCode :=
| VCI_UDS_RESULT_OK
| VCI_UDS_RESULT_INVALID_PARAM
| VCI_UDS_RESULT_INTERNAL_ERROR
| VCI_UDS_RESULT_SEND_FAILED
| VCI_UDS_RESULT_TIMEOUT_A
| VCI_UDS_RESULT_TIMEOUT_BS
| VCI_UDS_RESULT_TIMEOUT_CR
| VCI_UDS_RESULT_TIMEOUT_P2_STAR
| VCI_UDS_RESULT_FC_OVERFLOW
| VCI_UDS_RESULT_SEQUENCE_ERROR
| VCI_UDS_RESULT_UNEXPECTED_FRAME
| VCI_UDS_RESULT_PAYLOAD_TOO_LARGE
| VCI_UDS_RESULT_NEGATIVE_RESPONSE
| VCI_UDS_RESULT_NRC78_LIMIT_EXCEEDED
| VCI_UDS_RESULT_ABORTED
| VCI_UDS_RESULT_QUEUE_FULL
| VCI_UDS_RESULT_NO_RESPONSE_IN_QUEUE
| VCI_UDS_RESULT_SECURITY_INVALID_SEED
| VCI_UDS_RESULT_SECURITY_CONFIG_FAILED
| VCI_UDS_RESULT_CONFIG_FAILED
| VCI_UDS_RESULT_CONFIG_LOGGER_FAILED.

Definition result_code_eqb (a b : VciUdsResultCode) : bool :=
  match a, b with
  | VCI_UDS_RESULT_OK, VCI_UDS_RESULT_OK
  | VCI_UDS_RESULT_INVALID_PARAM, VCI_UDS_RESULT_INVALID_PARAM
  | VCI_UDS_RESULT_INTERNAL_ERROR, VCI_UDS_RESULT_INTERNAL_ERROR
  | VCI_UDS_RESULT_SEND_FAILED, VCI_UDS_RESULT_SEND_FAILED
  | VCI_UDS_RESULT_TIMEOUT_A, VCI_UDS_RESULT_TIMEOUT_A
  | VCI_UDS_RESULT_TIMEOUT_BS, VCI_UDS_RESULT_TIMEOUT_BS
  | VCI_UDS_RESULT_TIMEOUT_CR, VCI_UDS_RESULT_TIMEOUT_CR
  | VCI_UDS_RESULT_TIMEOUT_P2_STAR, VCI_UDS_RESULT_TIMEOUT_P2_STAR
  | VCI_UDS_RESULT_FC_OVERFLOW, VCI_UDS_RESULT_FC_OVERFLOW
  | VCI_UDS_RESULT_SEQUENCE_ERROR, VCI_UDS_RESULT_SEQUENCE_ERROR
  | VCI_UDS_RESULT_UNEXPECTED_FRAME, VCI_UDS_RESULT_UNEXPECTED_FRAME
  | VCI_UDS_RESULT_PAYLOAD_TOO_LARGE, VCI_UDS_RESULT_PAYLOAD_TOO_LARGE
  | VCI_UDS_RESULT_NEGATIVE_RESPONSE, VCI_UDS_RESULT_NEGATIVE_RESPONSE
  | VCI_UDS_RESULT_NRC78_LIMIT_EXCEEDED, VCI_UDS_RESULT_NRC78_LIMIT_EXCEEDED
  | VCI_UDS_RESULT_ABORTED, VCI_UDS_RESULT_ABORTED
  | VCI_UDS_RESULT_QUEUE_FULL, VCI_UDS_RESULT_QUEUE_FULL
  | VCI_UDS_RESULT_NO_RESPONSE_IN_QUEUE, VCI_UDS_RESULT_NO_RESPONSE_IN_QUEUE
  | VCI_UDS_RESULT_SECURITY_INVALID_SEED, VCI_UDS_RESULT_SECURITY_INVALID_SEED
  | VCI_UDS_RESULT_SECURITY_CONFIG_FAILED, VCI_UDS_RESULT_SECURITY_CONFIG_FAILED
  | VCI_UDS_RESULT_CONFIG_FAILED, VCI_UDS_RESULT_CONFIG_FAILED
  | VCI_UDS_RESULT_CONFIG_LOGGER_FAILED, VCI_UDS_RESULT_CONFIG_LOGGER_FAILED => true
  | _, _ => false
  end.

Lemma result_code_eqb_eq (a b : VciUdsResultCode) :
  result_code_eqb a b = true <-> a = b.
Proof. destruct a, b; simpl; split; congruence. Qed.

(** ** Session context ([UdsSessionContext]) *)

Inductive CanType := VCI_UDS_CAN_CLASSIC | VCI_UDS_CAN_FD.

Record TpConfig := {
  n_as_timeout : nat;
  n_bs_timeout : nat;
  n_cr_timeout : nat;
  n_ar_timeout : nat;
  block_size : Z;
  st_min : Z;
  max_nrc78_count : nat
}.

Record UdsSessionContext := {
  request_id : Z;
  response_id : Z;
  can_type : CanType;
  padding_target_size : nat;
  padding_fill_byte : Z;
  tp_config : TpConfig;
  tester_present_interval_ms : nat;
  tester_present_id : Z;
  tester_present_sub_func : Z
}.

(** ** CAN frames and ISO-TP protocol frames *)

Record FkVciCanDataType := { CanID : Z; Data : list Z }.

Inductive FlowStatus :=
| UDS_TP_FLOW_STATUS_CONTINUE_TO_SEND
| UDS_TP_FLOW_STATUS_WAIT
| UDS_TP_FLOW_STATUS_OVERFLOW.

(** [UdsTp_Frame]: the C tagged union, one constructor per [pci_type]. *)
Inductive UdsTp_Frame :=
| SingleFrame (payload : list Z)
| FirstFrame (total_size : nat) (payload_prefix : list Z)
| ConsecutiveFrame (sequence_number : Z) (payload_chunk : list Z)
| FlowControl (status : FlowStatus) (fc_block_size : Z) (separation_time : Z).

(** Modelled from the spec: [ProtocolUtils::parse] (FrameCodec, §4.1), whose
    implementation is not part of the sources.  The PCI nibble selects the
    frame kind; a length/DLC mismatch or an unknown PCI or flow status gives
    [None]. *)
Definition parse (d : list Z) : option UdsTp_Frame :=
  match d with
  | [] => None
  | b0 :: rest =>
      let lo := Z.land b0 15 in
      match Z.shiftr b0 4 with
      | 0 =>
          if lo =? 0 then
            match rest with
            | l :: r =>
                if (8 <=? l) && (l <=? Z.of_nat (length r))
                then Some (SingleFrame (firstn (Z.to_nat l) r)) else None
            | [] => None
            end
          else if lo <=? Z.of_nat (length rest)
          then Some (SingleFrame (firstn (Z.to_nat lo) rest)) else None
      | 1 =>
          match rest with
          | b1 :: r =>
              let total := Z.lor (Z.shiftl lo 8) b1 in
              if total =? 0 then
                match r with
                | a :: b :: c :: e :: r' =>
                    Some (FirstFrame
                      (Z.to_nat (Z.lor (Z.shiftl a 24) (Z.lor (Z.shiftl b 16)
                                  (Z.lor (Z.shiftl c 8) e)))) r')
                | _ => None
                end
              else Some (FirstFrame (Z.to_nat total) r)
          | [] => None
          end
      | 2 => Some (ConsecutiveFrame lo rest)
      | 3 =>
          match rest with
          | bs :: st :: _ =>
              if lo =? 0 then Some (FlowControl UDS_TP_FLOW_STATUS_CONTINUE_TO_SEND bs st)
              else if lo =? 1 then Some (FlowControl UDS_TP_FLOW_STATUS_WAIT bs st)
              else if lo =? 2 then Some (FlowControl UDS_TP_FLOW_STATUS_OVERFLOW bs st)
              else None
          | _ => None
          end
      | _ => None
      end
  end.

Definition flow_status_code (s : FlowStatus) : Z :=
  match s with
  | UDS_TP_FLOW_STATUS_CONTINUE_TO_SEND => 0
  | UDS_TP_FLOW_STATUS_WAIT => 1
  | UDS_TP_FLOW_STATUS_OVERFLOW => 2
  end.

Definition pad (pad_size : nat) (fill : Z) (d : list Z) : list Z :=
  d ++ repeat fill (pad_size - length d).

(** Modelled from the spec: [ProtocolUtils::build] (FrameCodec, §4.1). *)
Definition build (f : UdsTp_Frame) (target_id : Z) (ct : CanType)
    (pad_size : nat) (fill : Z) : FkVciCanDataType :=
  let raw :=
    match f with
    | SingleFrame p =>
        if (length p <=? 7)%nat then Z.of_nat (length p) :: p
        else 0 :: Z.of_nat (length p) :: p
    | FirstFrame total prefix =>
        let t := Z.of_nat total in
        if t <=? 4095 then Z.lor 16 (Z.shiftr t 8) :: Z.land t 255 :: prefix
        else 16 :: 0 :: Z.land (Z.shiftr t 24) 255 :: Z.land (Z.shiftr t 16) 255
               :: Z.land (Z.shiftr t 8) 255 :: Z.land t 255 :: prefix
    | ConsecutiveFrame sn chunk => Z.lor 32 sn :: chunk
    | FlowControl st bs stmin => [Z.lor 48 (flow_status_code st); bs; stmin]
    end in
  {| CanID := target_id; Data := pad pad_size fill raw |}.

(** ** Segmenter and Reassembler *)

Record Segmenter := {
  seg_data : list Z;
  seg_offset : nat;
  seg_sn : Z;
  seg_fd : bool
}.

(** Modelled from the spec: [Segmenter] (§4.2).  The first call yields the
    First Frame with the leading bytes, the following calls Consecutive
    Frames numbered 1, 2, ..., 15, 0, 1, ... *)
Definition Segmenter_new (data : list Z) (ct : CanType) : Segmenter :=
  {| seg_data := data; seg_offset := 0; seg_sn := 1;
     seg_fd := match ct with VCI_UDS_CAN_CLASSIC => false | VCI_UDS_CAN_FD => true end |}.

Definition Segmenter_isDone (s : Segmenter) : bool :=
  (length (seg_data s) <=? seg_offset s)%nat.

Definition Segmenter_getNextFrame (s : Segmenter) : UdsTp_Frame * Segmenter :=
  let total := length (seg_data s) in
  match seg_offset s with
  | O =>
      let n := if seg_fd s then (if (total <=? 4095)%nat then 62 else 58) else 6 in
      (FirstFrame total (firstn n (seg_data s)),
       {| seg_data := seg_data s; seg_offset := n; seg_sn := 1; seg_fd := seg_fd s |})
  | off =>
      let n := if seg_fd s then 63 else 7 in
      (ConsecutiveFrame (seg_sn s) (firstn n (skipn off (seg_data s))),
       {| seg_data := seg_data s; seg_offset := off + n;
          seg_sn := (seg_sn s + 1) mod 16; seg_fd := seg_fd s |})
  end%nat.

Inductive ReassemblerStatus :=
| IDLE | IN_PROGRESS | COMPLETE | ERROR_SEQUENCE | ERROR_UNEXPECTED_FRAME.

Record Reassembler := {
  ra_status : ReassemblerStatus;
  ra_total : nat;
  ra_buf : list Z;
  ra_expected_sn : Z
}.

Definition Reassembler_new : Reassembler :=
  {| ra_status := IDLE; ra_total := 0; ra_buf := []; ra_expected_sn := 0 |}.

(** Modelled from the spec: [Reassembler::processFrame] (§4.3). *)
Definition Reassembler_processFrame (r : Reassembler) (f : UdsTp_Frame)
    : ReassemblerStatus * Reassembler :=
  let set st tot buf sn :=
    (st, {| ra_status := st; ra_total := tot; ra_buf := buf; ra_expected_sn := sn |}) in
  match ra_status r, f with
  | IDLE, FirstFrame total prefix =>
      let buf := firstn total prefix in
      set (if (total <=? length buf)%nat then COMPLETE else IN_PROGRESS) total buf 1
  | IDLE, _ => set ERROR_UNEXPECTED_FRAME (ra_total r) (ra_buf r) (ra_expected_sn r)
  | IN_PROGRESS, ConsecutiveFrame sn chunk =>
      if negb (sn =? ra_expected_sn r) then
        set ERROR_SEQUENCE (ra_total r) (ra_buf r) (ra_expected_sn r)
      else
        let buf := ra_buf r ++ firstn (ra_total r - length (ra_buf r)) chunk in
        set (if (ra_total r <=? length buf)%nat then COMPLETE else IN_PROGRESS)
            (ra_total r) buf ((sn + 1) mod 16)
  | IN_PROGRESS, _ => set ERROR_UNEXPECTED_FRAME (ra_total r) (ra_buf r) (ra_expected_sn r)
  | st, _ => (st, r)
  end.

(** ** The world around a transaction

    [w_clock]: the tick count (ms); [w_bus]: inbound frames in delivery
    order with their arrival tick; [w_abort_at]: the tick at which another
    thread calls [stopExecution()]; [w_sent]: frames handed to the
    communicator with the tick of the send; [w_send_ok]: whether the n-th
    send succeeds; [w_last_tx]: the service's [m_last_tx_time_ms]. *)
Record World := {
  w_clock : nat;
  w_bus : list (nat * FkVciCanDataType);
  w_abort_at : option nat;
  w_sent : list (nat * FkVciCanDataType);
  w_send_ok : nat -> bool;
  w_last_tx : nat
}.

Definition set_clock (w : World) (t : nat) : World :=
  {| w_clock := t; w_bus := w_bus w; w_abort_at := w_abort_at w; w_sent := w_sent w;
     w_send_ok := w_send_ok w; w_last_tx := w_last_tx w |}.
Definition set_bus (w : World) (b : list (nat * FkVciCanDataType)) : World :=
  {| w_clock := w_clock w; w_bus := b; w_abort_at := w_abort_at w; w_sent := w_sent w;
     w_send_ok := w_send_ok w; w_last_tx := w_last_tx w |}.
Definition set_sent (w : World) (s : list (nat * FkVciCanDataType)) : World :=
  {| w_clock := w_clock w; w_bus := w_bus w; w_abort_at := w_abort_at w; w_sent := s;
     w_send_ok := w_send_ok w; w_last_tx := w_last_tx w |}.
Definition set_last_tx (w : World) (t : nat) : World :=
  {| w_clock := w_clock w; w_bus := w_bus w; w_abort_at := w_abort_at w; w_sent := w_sent w;
     w_send_ok := w_send_ok w; w_last_tx := t |}.

(** [m_abort_flag.load()] *)
Definition abort_flag (w : World) : bool :=
  match w_abort_at w with Some a => (a <=? w_clock w)%nat | None => false end.

(** A computation on the world; [None] only when the fuel bounding the
    loops is exhausted, which is not a behaviour of the program. *)
Definition M (A : Type) : Type := World -> option (A * World).

Definition ret {A} (a : A) : M A := fun w => Some (a, w).
Definition bind {A B} (m : M A) (k : A -> M B) : M B :=
  fun w => match m w with Some (a, w') => k a w' | None => None end.
Notation "x <- m ;; k" := (bind m (fun x => k))
  (at level 61, m at next level, right associativity).

Definition getTickCount : M nat := fun w => Some (w_clock w, w).
Definition load_abort_flag : M bool := fun w => Some (abort_flag w, w).
(** [m_timer.waitFor(ms)] *)
Definition waitFor (ms : nat) : M unit := fun w => Some (tt, set_clock w (w_clock w + ms)%nat).

(** [FrameSender] and [FrameProvider]: the closures a transaction is built with. *)
Definition FrameSender := FkVciCanDataType -> World -> bool * World.
Definition FrameProvider := nat -> World -> option FkVciCanDataType * World.

(** [Communicator::sendFrame]: the frame goes on the bus at the current tick. *)
Definition comm_sendFrame : FrameSender := fun f w =>
  (w_send_ok w (length (w_sent w)), set_sent w (w_sent w ++ [(w_clock w, f)])).

(** [Communicator::receiveFrame(timeout)]: the next inbound frame if it
    arrives within [timeout] ms, otherwise nothing after [timeout] ms. *)
Definition comm_receiveFrame : FrameProvider := fun timeout w =>
  match w_bus w with
  | (t, f) :: rest =>
      if (t <=? w_clock w + timeout)%nat
      then (Some f, set_bus (set_clock w (Nat.max (w_clock w) t)) rest)
      else (None, set_clock w (w_clock w + timeout)%nat)
  | [] => (None, set_clock w (w_clock w + timeout)%nat)
  end.

(** [Service::updateLastTxTime] *)
Definition updateLastTxTime (w : World) : World := set_last_tx w (w_clock w).

(** The sender closure [Service::executeTransaction] binds into a [Transaction]. *)
Definition physical_sender : FrameSender := fun f w =>
  comm_sendFrame f (updateLastTxTime w).

(** The sender closure [Service::functionalProcessingThreadFunc] binds into a
    [FunctionalTransaction]. *)
Definition functional_sender : FrameSender := fun f w => comm_sendFrame f w.

(** ** [vci::uds::tp::Transaction] *)

Inductive State :=
| START | SEND_SINGLE_FRAME | SEND_FIRST_FRAME | WAIT_FOR_FC
| SEND_CONSECUTIVE_FRAMES | WAIT_FOR_RESPONSE | RECEIVE_CONSECUTIVE_FRAMES
| COMPLETED | FAILED.

Record TransactionResult := {
  success : bool;
  result_code : VciUdsResultCode;
  response_payload : list Z
}.

(** The data members of a [Transaction] (sender and provider are the
    section variables below; the abort flag lives in the [World]). *)
Record Transaction := {
  m_context : UdsSessionContext;
  m_request_payload : list Z;
  m_state : State;
  m_result : TransactionResult;
  m_nrc78_count : nat;
  m_fc_block_size_from_ecu : Z;
  m_fc_frames_sent_in_block : Z;
  m_fc_separation_time_from_ecu : Z;
  m_segmenter : option Segmenter;
  m_reassembler : Reassembler
}.

(** The constructor; the counters start at zero (in-class initialisers). *)
Definition Transaction_new (ctx : UdsSessionContext) (payload : list Z) : Transaction :=
  {| m_context := ctx; m_request_payload := payload; m_state := START;
     m_result := {| success := false; result_code := VCI_UDS_RESULT_INTERNAL_ERROR;
                    response_payload := [] |};
     m_nrc78_count := 0; m_fc_block_size_from_ecu := 0; m_fc_frames_sent_in_block := 0;
     m_fc_separation_time_from_ecu := 0; m_segmenter := None;
     m_reassembler := Reassembler_new |}.

Definition with_fields (tx : Transaction) (st : State) (res : TransactionResult)
    (nrc : nat) (bs sent sep : Z) (seg : option Segmenter) (ra : Reassembler) : Transaction :=
  {| m_context := m_context tx; m_request_payload := m_request_payload tx; m_state := st;
     m_result := res; m_nrc78_count := nrc; m_fc_block_size_from_ecu := bs;
     m_fc_frames_sent_in_block := sent; m_fc_separation_time_from_ecu := sep;
     m_segmenter := seg; m_reassembler := ra |}.

Definition setState (tx : Transaction) (s : State) : Transaction :=
  with_fields tx s (m_result tx) (m_nrc78_count tx) (m_fc_block_size_from_ecu tx)
    (m_fc_frames_sent_in_block tx) (m_fc_separation_time_from_ecu tx)
    (m_segmenter tx) (m_reassembler tx).

Definition set_result (tx : Transaction) (ok : bool) (c : VciUdsResultCode) (p : list Z) : Transaction :=
  with_fields tx (m_state tx) {| success := ok; result_code := c; response_payload := p |}
    (m_nrc78_count tx) (m_fc_block_size_from_ecu tx) (m_fc_frames_sent_in_block tx)
    (m_fc_separation_time_from_ecu tx) (m_segmenter tx) (m_reassembler tx).

(** [Transaction::fail]: the payload already stored is kept. *)
Definition fail (tx : Transaction) (c : VciUdsResultCode) : Transaction :=
  setState (set_result tx false c (response_payload (m_result tx))) FAILED.

(** Success with the given payload, then [COMPLETED]. *)
Definition complete (tx : Transaction) (p : list Z) : Transaction :=
  setState (set_result tx true VCI_UDS_RESULT_OK p) COMPLETED.

Definition tpc (tx : Transaction) : TpConfig := tp_config (m_context tx).

Section TransactionCode.

Variable m_sender : FrameSender.
Variable m_provider : FrameProvider.

(** [Transaction::sendFrame] *)
Definition sendFrame (tx : Transaction) (f : UdsTp_Frame) : M bool := fun w =>
  let c := m_context tx in
  Some (m_sender (build f (request_id c) (can_type c) (padding_target_size c)
                        (padding_fill_byte c)) w).

(** The [while (true)] loop of [Transaction::waitForFrame]. *)
Fixpoint waitForFrame_loop (fuel : nat) (resp : Z) (start_time timeout_ms : nat)
    : M (option FkVciCanDataType) :=
  match fuel with
  | O => fun _ => None
  | S fuel' =>
      aborted <- load_abort_flag ;;
      if aborted then ret None else
      now <- getTickCount ;;
      let elapsed_ms := (now - start_time)%nat in
      if (timeout_ms <=? elapsed_ms)%nat then ret None else
      let wait_chunk_ms := 10%nat in
      let remaining_time_ms := (timeout_ms - elapsed_ms)%nat in
      fun w =>
        let '(can_frame_opt, w1) :=
          m_provider (Nat.min wait_chunk_ms
                        (if (0 <? remaining_time_ms)%nat then remaining_time_ms else 1%nat)) w in
        match can_frame_opt with
        | Some f =>
            if CanID f =? resp then Some (Some f, w1)
            else waitForFrame_loop fuel' resp start_time timeout_ms w1
        | None => waitForFrame_loop fuel' resp start_time timeout_ms w1
        end
  end.

(** [Transaction::waitForFrame] *)
Definition waitForFrame (fuel : nat) (tx : Transaction) (timeout_ms : nat)
    : M (option FkVciCanDataType) :=
  start_time <- getTickCount ;;
  waitForFrame_loop fuel (response_id (m_context tx)) start_time timeout_ms.

(** [Transaction::handle_start] *)
Definition handle_start (tx : Transaction) : Transaction :=
  let ct := can_type (m_context tx) in
  let classic := match ct with VCI_UDS_CAN_CLASSIC => true | _ => false end in
  let max_sf_payload := if classic then 7%nat else 62%nat in
  let size := length (m_request_payload tx) in
  if (size <=? max_sf_payload)%nat then setState tx SEND_SINGLE_FRAME
  else
    let max_payload := if classic then 4095 else 4294967295 in
    if max_payload <? Z.of_nat size then fail tx VCI_UDS_RESULT_PAYLOAD_TOO_LARGE
    else
      setState
        (with_fields tx (m_state tx) (m_result tx) (m_nrc78_count tx)
           (m_fc_block_size_from_ecu tx) (m_fc_frames_sent_in_block tx)
           (m_fc_separation_time_from_ecu tx)
           (Some (Segmenter_new (m_request_payload tx) ct)) (m_reassembler tx))
        SEND_FIRST_FRAME.

(** [Transaction::handle_send_single_frame] *)
Definition handle_send_single_frame (tx : Transaction) : M Transaction :=
  ok <- sendFrame tx (SingleFrame (m_request_payload tx)) ;;
  ret (if ok then setState tx WAIT_FOR_RESPONSE else fail tx VCI_UDS_RESULT_SEND_FAILED).

Definition set_segmenter (tx : Transaction) (s : Segmenter) : Transaction :=
  with_fields tx (m_state tx) (m_result tx) (m_nrc78_count tx)
    (m_fc_block_size_from_ecu tx) (m_fc_frames_sent_in_block tx)
    (m_fc_separation_time_from_ecu tx) (Some s) (m_reassembler tx).

(** [Transaction::handle_send_first_frame] *)
Definition handle_send_first_frame (tx : Transaction) : M Transaction :=
  match m_segmenter tx with
  | None => ret (fail tx VCI_UDS_RESULT_INTERNAL_ERROR)
  | Some seg =>
      let '(tp_frame, seg') := Segmenter_getNextFrame seg in
      let tx := set_segmenter tx seg' in
      ok <- sendFrame tx tp_frame ;;
      ret (if ok then setState tx WAIT_FOR_FC else fail tx VCI_UDS_RESULT_SEND_FAILED)
  end.

(** The separation-time clamp of the [CONTINUE_TO_SEND] case. *)
Definition clamp_separation_time (separation_time : Z) : Z :=
  if separation_time <=? 127 then separation_time
  else if (241 <=? separation_time) && (separation_time <=? 249) then 1
  else 127.

(** [Transaction::handle_wait_for_fc] *)
Definition handle_wait_for_fc (fuel : nat) (tx : Transaction) : M Transaction :=
  can_frame_opt <- waitForFrame fuel tx (n_bs_timeout (tpc tx)) ;;
  match can_frame_opt with
  | None =>
      aborted <- load_abort_flag ;;
      ret (if aborted then fail tx VCI_UDS_RESULT_ABORTED
           else fail tx VCI_UDS_RESULT_TIMEOUT_BS)
  | Some cf =>
      match parse (Data cf) with
      | Some (FlowControl status bs st) =>
          match status with
          | UDS_TP_FLOW_STATUS_CONTINUE_TO_SEND =>
              ret (setState
                     (with_fields tx (m_state tx) (m_result tx) (m_nrc78_count tx)
                        bs 0 (clamp_separation_time st) (m_segmenter tx) (m_reassembler tx))
                     SEND_CONSECUTIVE_FRAMES)
          | UDS_TP_FLOW_STATUS_WAIT => ret tx
          | UDS_TP_FLOW_STATUS_OVERFLOW => ret (fail tx VCI_UDS_RESULT_FC_OVERFLOW)
          end
      | _ => ret (fail tx VCI_UDS_RESULT_UNEXPECTED_FRAME)
      end
  end.

(** The separation-time pacing loop of [handle_send_consecutive_frames];
    [false] when the abort flag is seen. *)
Fixpoint pace_loop (fuel : nat) (wait_start : nat) (sep : Z) : M bool :=
  match fuel with
  | O => fun _ => None
  | S fuel' =>
      now <- getTickCount ;;
      if Z.of_nat (now - wait_start) <? sep then
        aborted <- load_abort_flag ;;
        if aborted then ret false else
        _ <- waitFor 1 ;;
        pace_loop fuel' wait_start sep
      else ret true
  end.

Definition set_frames_sent (tx : Transaction) (n : Z) : Transaction :=
  with_fields tx (m_state tx) (m_result tx) (m_nrc78_count tx)
    (m_fc_block_size_from_ecu tx) n (m_fc_separation_time_from_ecu tx)
    (m_segmenter tx) (m_reassembler tx).

(** The [while (!m_segmenter->isDone())] loop of
    [Transaction::handle_send_consecutive_frames]. *)
Fixpoint send_cf_loop (fuel : nat) (tx : Transaction) (seg : Segmenter) : M Transaction :=
  match fuel with
  | O => fun _ => None
  | S fuel' =>
      if Segmenter_isDone seg then ret (setState tx WAIT_FOR_RESPONSE) else
      aborted <- load_abort_flag ;;
      if aborted then ret (fail tx VCI_UDS_RESULT_ABORTED) else
      if (0 <? m_fc_block_size_from_ecu tx)
         && (m_fc_block_size_from_ecu tx <=? m_fc_frames_sent_in_block tx)
      then ret (setState (set_frames_sent tx 0) WAIT_FOR_FC) else
      paced <- (if 0 <? m_fc_separation_time_from_ecu tx then
                  wait_start <- getTickCount ;;
                  pace_loop fuel' wait_start (m_fc_separation_time_from_ecu tx)
                else ret true) ;;
      if negb paced then ret (fail tx VCI_UDS_RESULT_ABORTED) else
      let '(tp_frame, seg') := Segmenter_getNextFrame seg in
      let tx := set_segmenter tx seg' in
      ok <- sendFrame tx tp_frame ;;
      if negb ok then ret (fail tx VCI_UDS_RESULT_SEND_FAILED) else
      send_cf_loop fuel' (set_frames_sent tx (m_fc_frames_sent_in_block tx + 1)) seg'
  end.

(** [Transaction::handle_send_consecutive_frames] *)
Definition handle_send_consecutive_frames (fuel : nat) (tx : Transaction) : M Transaction :=
  match m_segmenter tx with
  | None => ret (fail tx VCI_UDS_RESULT_INTERNAL_ERROR)
  | Some seg => send_cf_loop fuel tx seg
  end.

Definition set_nrc78_count (tx : Transaction) (n : nat) : Transaction :=
  with_fields tx (m_state tx) (m_result tx) n
    (m_fc_block_size_from_ecu tx) (m_fc_frames_sent_in_block tx)
    (m_fc_separation_time_from_ecu tx) (m_segmenter tx) (m_reassembler tx).

Definition set_reassembler (tx : Transaction) (r : Reassembler) : Transaction :=
  with_fields tx (m_state tx) (m_result tx) (m_nrc78_count tx)
    (m_fc_block_size_from_ecu tx) (m_fc_frames_sent_in_block tx)
    (m_fc_separation_time_from_ecu tx) (m_segmenter tx) r.

(** [temp_payload.size() == 3 && temp_payload[0] == 0x7F && temp_payload[2] == 0x78] *)
Definition is_nrc78 (p : list Z) : bool :=
  match p with
  | [b0; _; b2] => (b0 =? 127) && (b2 =? 120)
  | _ => false
  end.

(** [!payload.empty() && payload[0] == 0x7F] *)
Definition is_negative (p : list Z) : bool :=
  match p with
  | b0 :: _ => b0 =? 127
  | [] => false
  end.

(** The [while (true)] loop of [Transaction::handle_wait_for_response], with
    its local [timeout]. *)
Fixpoint wait_response_loop (fuel : nat) (timeout : nat) (tx : Transaction) : M Transaction :=
  match fuel with
  | O => fun _ => None
  | S fuel' =>
      can_frame_opt <- waitForFrame fuel' tx timeout ;;
      match can_frame_opt with
      | None =>
          aborted <- load_abort_flag ;;
          ret (if aborted then fail tx VCI_UDS_RESULT_ABORTED
               else fail tx (if (0 <? m_nrc78_count tx)%nat
                             then VCI_UDS_RESULT_TIMEOUT_P2_STAR
                             else VCI_UDS_RESULT_TIMEOUT_A))
      | Some cf =>
          match parse (Data cf) with
          | None => wait_response_loop fuel' timeout tx
          | Some (SingleFrame temp_payload) =>
              if is_nrc78 temp_payload then
                let tx := set_nrc78_count tx (S (m_nrc78_count tx)) in
                if (max_nrc78_count (tpc tx) <=? m_nrc78_count tx)%nat
                then ret (fail tx VCI_UDS_RESULT_NRC78_LIMIT_EXCEEDED)
                else wait_response_loop fuel' (n_ar_timeout (tpc tx)) tx
              else
                let tx := set_result tx (success (m_result tx)) (result_code (m_result tx))
                                     temp_payload in
                ret (if is_negative temp_payload then fail tx VCI_UDS_RESULT_NEGATIVE_RESPONSE
                     else complete tx temp_payload)
          | Some (FirstFrame total prefix) =>
              let '(status, ra) := Reassembler_processFrame (m_reassembler tx)
                                     (FirstFrame total prefix) in
              let tx := set_reassembler tx ra in
              match status with
              | IN_PROGRESS =>
                  ok <- sendFrame tx (FlowControl UDS_TP_FLOW_STATUS_CONTINUE_TO_SEND
                                        (block_size (tpc tx)) (st_min (tpc tx))) ;;
                  ret (if ok then setState tx RECEIVE_CONSECUTIVE_FRAMES
                       else fail tx VCI_UDS_RESULT_SEND_FAILED)
              | COMPLETE => ret (complete tx (ra_buf ra))
              | _ => ret (fail tx VCI_UDS_RESULT_UNEXPECTED_FRAME)
              end
          | Some _ => wait_response_loop fuel' timeout tx
          end
      end
  end.

(** [Transaction::handle_wait_for_response] *)
Definition handle_wait_for_response (fuel : nat) (tx : Transaction) : M Transaction :=
  wait_response_loop fuel (n_as_timeout (tpc tx)) tx.

(** The [while] loop of [Transaction::handle_receive_consecutive_frames]. *)
Fixpoint receive_cf_loop (fuel : nat) (tx : Transaction) : M Transaction :=
  match fuel with
  | O => fun _ => None
  | S fuel' =>
      match ra_status (m_reassembler tx) with
      | IN_PROGRESS =>
          can_frame_opt <- waitForFrame fuel' tx (n_cr_timeout (tpc tx)) ;;
          match can_frame_opt with
          | None =>
              aborted <- load_abort_flag ;;
              ret (if aborted then fail tx VCI_UDS_RESULT_ABORTED
                   else fail tx VCI_UDS_RESULT_TIMEOUT_CR)
          | Some cf =>
              match parse (Data cf) with
              | None => receive_cf_loop fuel' tx
              | Some f =>
                  let '(status, ra) := Reassembler_processFrame (m_reassembler tx) f in
                  let tx := set_reassembler tx ra in
                  match status with
                  | ERROR_SEQUENCE => ret (fail tx VCI_UDS_RESULT_SEQUENCE_ERROR)
                  | ERROR_UNEXPECTED_FRAME => ret (fail tx VCI_UDS_RESULT_UNEXPECTED_FRAME)
                  | _ => receive_cf_loop fuel' tx
                  end
              end
          end
      | COMPLETE =>
          let p := ra_buf (m_reassembler tx) in
          let tx := set_result tx (success (m_result tx)) (result_code (m_result tx)) p in
          ret (if is_negative p then fail tx VCI_UDS_RESULT_NEGATIVE_RESPONSE
               else complete tx p)
      | _ => ret (fail tx VCI_UDS_RESULT_INTERNAL_ERROR)
      end
  end.

(** [Transaction::handle_receive_consecutive_frames] *)
Definition handle_receive_consecutive_frames (fuel : nat) (tx : Transaction) : M Transaction :=
  receive_cf_loop fuel tx.

(** [Transaction::run_state_machine] *)
Definition run_state_machine (fuel : nat) (tx : Transaction) : M Transaction :=
  match m_state tx with
  | START => ret (handle_start tx)
  | SEND_SINGLE_FRAME => handle_send_single_frame tx
  | SEND_FIRST_FRAME => handle_send_first_frame tx
  | WAIT_FOR_FC => handle_wait_for_fc fuel tx
  | SEND_CONSECUTIVE_FRAMES => handle_send_consecutive_frames fuel tx
  | WAIT_FOR_RESPONSE => handle_wait_for_response fuel tx
  | RECEIVE_CONSECUTIVE_FRAMES => handle_receive_consecutive_frames fuel tx
  | _ => ret (fail tx VCI_UDS_RESULT_INTERNAL_ERROR)
  end.

Definition is_terminal (s : State) : bool :=
  match s with COMPLETED | FAILED => true | _ => false end.

(** The [while] loop of [Transaction::execute]. *)
Fixpoint execute_loop (fuel : nat) (tx : Transaction) : M Transaction :=
  match fuel with
  | O => fun _ => None
  | S fuel' =>
      if is_terminal (m_state tx) then ret tx else
      aborted <- load_abort_flag ;;
      if aborted then ret (fail tx VCI_UDS_RESULT_ABORTED) else
      tx' <- run_state_machine fuel' tx ;;
      execute_loop fuel' tx'
  end.

(** [Transaction::execute] *)
Definition execute (fuel : nat) (tx : Transaction) : M TransactionResult :=
  tx' <- execute_loop fuel (setState tx START) ;;
  ret (m_result tx').

End TransactionCode.

(** ** [vci::uds::Service] *)

(** [Service::Response] *)
Record Response := { resp_code : VciUdsResultCode; resp_payload : list Z }.

Module AsyncRequest.

(** The part of the service state [requestAsync] reads and writes. *)
Record ServiceState := {
  m_service_is_running : bool;
  m_request_queue : list (list Z);
  m_phys_thread_active : bool
}.

Section WithQueueSize.

Variable REQUEST_QUEUE_SIZE : nat.

(** [Service::startPhysicalProcessingThread]: spawns the worker if none is active. *)
Definition startPhysicalProcessingThread (s : ServiceState) : ServiceState :=
  {| m_service_is_running := m_service_is_running s;
     m_request_queue := m_request_queue s; m_phys_thread_active := true |}.

(** [Service::requestAsync]; [size_approx()] is the queue length when no
    consumer runs concurrently. *)
Definition requestAsync (s : ServiceState) (request_payload : list Z)
    : VciUdsResultCode * ServiceState :=
  if negb (m_service_is_running s) then (VCI_UDS_RESULT_INTERNAL_ERROR, s)
  else match request_payload with
  | [] => (VCI_UDS_RESULT_INVALID_PARAM, s)
  | _ =>
      if (REQUEST_QUEUE_SIZE <? length (m_request_queue s))%nat
      then (VCI_UDS_RESULT_QUEUE_FULL, s)
      else
        let s := startPhysicalProcessingThread s in
        (VCI_UDS_RESULT_OK,
         {| m_service_is_running := m_service_is_running s;
            m_request_queue := m_request_queue s ++ [request_payload];
            m_phys_thread_active := m_phys_thread_active s |})
  end.

End WithQueueSize.
End AsyncRequest.

Module PhysicalWorker.

(** What one [wait_dequeue_timed] round of the worker observes: a request,
    the idle timeout, or the running/active flags cleared by another thread. *)
Inductive DequeueEvent :=
| Dequeued (payload : list Z)
| IdleTimeout
| StoppedExternally.

Inductive ExitReason := ExitIdle | ExitStopped | StillRunning.

Section WithExecute.

(** [Service::executeTransaction] as the worker sees it. *)
Variable executeTransaction : list Z -> Response.

(** The loop of [Service::physicalProcessingThreadFunc]; returns the
    responses enqueued to [m_response_queue], in order, and why the loop
    ended ([StillRunning] when the observed rounds run out). *)
Fixpoint physicalProcessingThreadFunc (evs : list DequeueEvent)
    : list Response * ExitReason :=
  match evs with
  | [] => ([], StillRunning)
  | StoppedExternally :: _ => ([], ExitStopped)
  | IdleTimeout :: _ => ([], ExitIdle)
  | Dequeued payload :: evs' =>
      match payload with
      | [] => physicalProcessingThreadFunc evs'
      | _ =>
          let res := executeTransaction payload in
          let '(q, why) := physicalProcessingThreadFunc evs' in
          (if result_code_eqb (resp_code res) VCI_UDS_RESULT_ABORTED then q else res :: q, why)
      end
  end.

End WithExecute.
End PhysicalWorker.

Module SecurityAccess.

(** The calls the sequence makes to its collaborators, in order. *)
Inductive SaCall :=
| CallRequestSync (payload : list Z)
| CallCalculateKey (level : Z) (seed : list Z).

Section WithCollaborators.

(** [Service::requestSync] on the n-th call of the sequence (the ECU may
    answer anything), and [SecurityProvider::calculateKey]. *)
Variable requestSync : nat -> list Z -> VciUdsResultCode * list Z.
Variable calculateKey : Z -> list Z -> VciUdsResultCode * list Z.

Definition is_ok (c : VciUdsResultCode) : bool := result_code_eqb c VCI_UDS_RESULT_OK.

(** [Service::executeSecurityAccessSequence]: the result code, the final
    value of the [final_response] out-parameter, and the calls made.
    [uint8_t] arithmetic wraps modulo 256. *)
Definition executeSecurityAccessSequence (security_level : Z) (final_response : list Z)
    : VciUdsResultCode * list Z * list SaCall :=
  let request_seed_subfunc := (2 * security_level - 1) mod 256 in
  let seed_request_payload := [39; request_seed_subfunc] in
  let c1 := CallRequestSync seed_request_payload in
  let '(ret, seed_response_payload) := requestSync 0 seed_request_payload in
  if negb (is_ok ret) then (ret, seed_response_payload, [c1]) else
  if (length seed_response_payload <? 3)%nat || negb (nth 0 seed_response_payload 0 =? 103)
  then (VCI_UDS_RESULT_SECURITY_INVALID_SEED, final_response, [c1]) else
  let seed := skipn 2 seed_response_payload in
  match seed with
  | [] => (VCI_UDS_RESULT_SECURITY_INVALID_SEED, final_response, [c1])
  | _ =>
      let c2 := CallCalculateKey security_level seed in
      let '(ret, key) := calculateKey security_level seed in
      if negb (is_ok ret) then (ret, final_response, [c1; c2]) else
      let send_key_subfunc := (2 * security_level) mod 256 in
      let key_request_payload := [39; send_key_subfunc] ++ key in
      let '(ret, resp) := requestSync 1 key_request_payload in
      (ret, resp, [c1; c2; CallRequestSync key_request_payload])
  end.

End WithCollaborators.
End SecurityAccess.

Module KeepAlive.

(** What one round of [Service::keepAliveThreadFunc] decides to do. *)
Inductive KeepAliveAction :=
| KaStop
| KaSleep (ms : nat)
| KaSendTesterPresent.

(** One round of [Service::keepAliveThreadFunc] at tick [now] with
    [m_last_tx_time_ms] = [last_tx]. *)
Definition keepAliveRound (ctx : UdsSessionContext) (now last_tx : nat) : KeepAliveAction :=
  let interval := tester_present_interval_ms ctx in
  if (interval =? 0)%nat then KaStop else
  let elapsed := if (last_tx <? now)%nat then (now - last_tx)%nat else 0%nat in
  if (elapsed <? interval)%nat then KaSleep (interval - elapsed) else KaSendTesterPresent.

(** The locked part of a [Service::keepAliveThreadFunc] round: it reads
    [now] from the clock and [last_tx] from [m_last_tx_time_ms], re-checks
    the interval, and otherwise hands the Tester Present frame [3E sub] on
    [tester_present_id] (or [request_id] when it is 0) to
    [m_communicator->sendFrame]; when that succeeds, [updateLastTxTime()]
    stores the clock read after the send.  Returns the frame sent, if any,
    and the world afterwards. *)
Definition keepAliveLocked (ctx : UdsSessionContext) (sendFrame : FrameSender) (w : World)
    : option FkVciCanDataType * World :=
  let interval := tester_present_interval_ms ctx in
  let now := w_clock w in
  let last_tx := w_last_tx w in
  let elapsed := if (last_tx <? now)%nat then (now - last_tx)%nat else 0%nat in
  if (elapsed <? interval)%nat then (None, w) else
  let payload := [62; tester_present_sub_func ctx] in
  let target_id := if tester_present_id ctx =? 0 then request_id ctx else tester_present_id ctx in
  let can_frame := build (SingleFrame payload) target_id (can_type ctx)
                     (padding_target_size ctx) (padding_fill_byte ctx) in
  let '(ok, w1) := sendFrame can_frame w in
  (Some can_frame, if ok then updateLastTxTime w1 else w1).

End KeepAlive.

Module FunctionalWorker.

(** A [FunctionalTransaction] reaches the outside only through the sender
    and provider closures it is built with and through the timer: any run
    of it is a sequence of such calls. *)
Inductive FtCall :=
| FtSend (f : FkVciCanDataType)
| FtReceive (timeout_ms : nat)
| FtWait (ms : nat).

Fixpoint run_calls (sender : FrameSender) (provider : FrameProvider)
    (calls : list FtCall) (w : World) : World :=
  match calls with
  | [] => w
  | FtSend f :: cs => run_calls sender provider cs (snd (sender f w))
  | FtReceive t :: cs => run_calls sender provider cs (snd (provider t w))
  | FtWait ms :: cs => run_calls sender provider cs (set_clock w (w_clock w + ms))
  end.

(** [Communicator::clearReceiver]: drops the frames already received. *)
Definition clearReceiver (w : World) : World :=
  set_bus w (filter (fun '(t, _) => (w_clock w <? t)%nat) (w_bus w)).

(** One request of [Service::functionalProcessingThreadFunc]: the
    transaction is built with the closures [sender] (= [functional_sender])
    and [provider], the receiver is cleared, the transaction runs. *)
Definition functional_iteration (calls : list FtCall) (w : World) : World :=
  run_calls functional_sender comm_receiveFrame calls (clearReceiver w).

(** The same run with the closure [Service::executeTransaction] binds. *)
Definition physical_run (calls : list FtCall) (w : World) : World :=
  run_calls physical_sender comm_receiveFrame calls w.

End FunctionalWorker.

Module ExecuteTransaction.

(** A call that either throws or returns. *)
Inductive Outcome (A : Type) := Threw | Returned (a : A).
Arguments Threw {A}.
Arguments Returned {A} a.

(** [Service::executeTransaction] with [getContext()] = [ctx]: the idle
    clock is refreshed, the [Transaction] is built (its constructor throws
    [std::invalid_argument] on an empty payload), then, under the
    transaction mutex, the receiver is cleared and the transaction runs
    with the sender closure that refreshes the idle clock on every send. *)
Definition executeTransaction (ctx : UdsSessionContext) (fuel : nat) (payload : list Z)
    (w : World) : option (Outcome Response * World) :=
  let w := updateLastTxTime w in
  match payload with
  | [] => Some (Threw, w)
  | _ =>
      match execute physical_sender comm_receiveFrame fuel (Transaction_new ctx payload)
              (FunctionalWorker.clearReceiver w) with
      | Some (r, w') =>
          Some (Returned {| resp_code := result_code r; resp_payload := response_payload r |}, w')
      | None => None
      end
  end.

End ExecuteTransaction.

Module TxLock.

(** Interleavings of any number of callers of [Service::executeTransaction]
    ([requestSync] and the physical worker thread both call it) and one round
    of [Service::keepAliveThreadFunc] that found the interval elapsed, around
    [m_transaction_mutex] and the shared pointer [m_transaction], which
    [m_transaction_pointer_mutex] guards. *)

(** Caller [i] of [executeTransaction], or the keep-alive thread. *)
Inductive Tid := TTx (i : nat) | TKeepAlive.

(** [executeTransaction] of one caller: before the assignment of
    [m_transaction] (updateLastTxTime, getContext, the closures); after it,
    before the [tx_lock]; holding the lock, before [m_transaction->execute()]
    reads the pointer; holding it, running the object created by caller [j]
    with [n] frames still to send; after releasing it, before
    [m_transaction.reset()]; finished. *)
Inductive TxPc :=
| T_Start
| T_Created
| T_Locked
| T_Executing (j n : nat)
| T_Released
| T_Done.

(** [keepAliveThreadFunc]: before the [tx_lock]; holding it, before the
    re-check and send; holding it, after; after the scope ends. *)
Inductive KaPc := K_BeforeLock | K_Locked | K_AfterSend | K_Unlocked.

Record Config := {
  c_tx : nat -> TxPc;
  c_ka : KaPc;
  c_lock : option Tid;          (* owner of [m_transaction_mutex] *)
  c_transaction : option nat;   (* [m_transaction]: the caller whose object it holds *)
  c_running : option nat;       (* the object inside its [execute()] call *)
  c_fault : bool;               (* undefined behaviour reached *)
  c_sends : list Tid            (* who sent each frame on the bus, in order *)
}.

(** Caller [i] moves to [p]; the shared fields take the given values. *)
Definition set_tx (c : Config) (i : nat) (p : TxPc) (lock : option Tid)
    (tr running : option nat) (sends : list Tid) : Config :=
  {| c_tx := fun k => if Nat.eqb k i then p else c_tx c k; c_ka := c_ka c;
     c_lock := lock; c_transaction := tr; c_running := running; c_fault := false;
     c_sends := sends |}.

Definition set_ka (c : Config) (p : KaPc) (lock : option Tid) (sends : list Tid) : Config :=
  {| c_tx := c_tx c; c_ka := p; c_lock := lock; c_transaction := c_transaction c;
     c_running := c_running c; c_fault := false; c_sends := sends |}.

(** Undefined behaviour: the run stops there. *)
Definition faulted (c : Config) : Config :=
  {| c_tx := c_tx c; c_ka := c_ka c; c_lock := c_lock c; c_transaction := c_transaction c;
     c_running := c_running c; c_fault := true; c_sends := c_sends c |}.

(** Whether replacing or resetting [m_transaction] now destroys the object
    another thread is executing. *)
Definition destroys_running (c : Config) : bool :=
  match c_transaction c, c_running c with
  | Some j, Some k => Nat.eqb j k
  | _, _ => false
  end.

Section WithRun.

(** Frames the transaction created by caller [j] sends, and whether the
    keep-alive re-check under the lock still finds the interval elapsed. *)
Variable nframes : nat -> nat.
Variable still_due : bool.

Definition init : Config :=
  {| c_tx := fun _ => T_Start; c_ka := K_BeforeLock; c_lock := None;
     c_transaction := None; c_running := None; c_fault := false; c_sends := [] |}.

(** One atomic step of thread [t]; [None] when it is blocked or finished,
    or once the run has reached undefined behaviour.  Assigning or
    resetting [m_transaction] while another thread executes the object it
    holds, or calling [execute()] through a null [m_transaction], is
    undefined behaviour. *)
Definition step (t : Tid) (c : Config) : option Config :=
  if c_fault c then None else
  match t with
  | TTx i =>
      match c_tx c i with
      | T_Start =>
          if destroys_running c then Some (faulted c)
          else Some (set_tx c i T_Created (c_lock c) (Some i) (c_running c) (c_sends c))
      | T_Created =>
          match c_lock c with
          | None => Some (set_tx c i T_Locked (Some (TTx i)) (c_transaction c) (c_running c)
                            (c_sends c))
          | Some _ => None
          end
      | T_Locked =>
          match c_transaction c with
          | Some j => Some (set_tx c i (T_Executing j (nframes j)) (c_lock c)
                              (c_transaction c) (Some j) (c_sends c))
          | None => Some (faulted c)
          end
      | T_Executing j (S n) =>
          Some (set_tx c i (T_Executing j n) (c_lock c) (c_transaction c) (c_running c)
                  (c_sends c ++ [TTx i]))
      | T_Executing _ O =>
          Some (set_tx c i T_Released None (c_transaction c) None (c_sends c))
      | T_Released =>
          if destroys_running c then Some (faulted c)
          else Some (set_tx c i T_Done (c_lock c) None (c_running c) (c_sends c))
      | T_Done => None
      end
  | TKeepAlive =>
      match c_ka c with
      | K_BeforeLock =>
          match c_lock c with
          | None => Some (set_ka c K_Locked (Some TKeepAlive) (c_sends c))
          | Some _ => None
          end
      | K_Locked =>
          Some (set_ka c K_AfterSend (c_lock c)
                  (if still_due then c_sends c ++ [TKeepAlive] else c_sends c))
      | K_AfterSend => Some (set_ka c K_Unlocked None (c_sends c))
      | K_Unlocked => None
      end
  end.

(** Run a schedule: each entry lets that thread take a step if it can. *)
Fixpoint run (sched : list Tid) (c : Config) : Config :=
  match sched with
  | [] => c
  | t :: ts => run ts (match step t c with Some c' => c' | None => c end)
  end.

End WithRun.

Definition tx_phase (p : TxPc) : nat :=
  match p with
  | T_Start | T_Created => 0
  | T_Locked | T_Executing _ _ => 1
  | T_Released | T_Done => 2
  end.

Definition ka_phase (p : KaPc) : nat :=
  match p with K_BeforeLock => 0 | K_Locked | K_AfterSend => 1 | K_Unlocked => 2 end.

Definition phase (t : Tid) (c : Config) : nat :=
  match t with
  | TTx i => tx_phase (c_tx c i)
  | TKeepAlive => ka_phase (c_ka c)
  end.

(** Whether [t] is inside its [m_transaction_mutex] scope. *)
Definition in_section (t : Tid) (c : Config) : bool := Nat.eqb (phase t c) 1.

(** Equal entries of [s] form one unbroken block each. *)
Definition contiguous {A} (s : list A) : Prop :=
  forall p q r x, (p < q < r)%nat -> nth_error s p = Some x -> nth_error s r = Some x ->
    nth_error s q = Some x.

(** The lock is held exactly by the thread inside its critical section,
    the senders so far form one block each, and a sender inside its
    section sent the last frame. *)
Definition lock_inv (c : Config) : Prop :=
  (forall t, c_lock c = Some t <-> in_section t c = true) /\
  contiguous (c_sends c) /\
  (forall t, In t (c_sends c) ->
     (1 <= phase t c)%nat /\
     (in_section t c = true -> nth_error (c_sends c) (length (c_sends c) - 1) = Some t)).


End TxLock.

(** ** Concrete scenarios *)

Module Scenario.

Definition tp (max_nrc78 : nat) : TpConfig :=
  {| n_as_timeout := 100; n_bs_timeout := 100; n_cr_timeout := 100; n_ar_timeout := 500;
     block_size := 0; st_min := 0; max_nrc78_count := max_nrc78 |}.

Definition ctx (max_nrc78 : nat) : UdsSessionContext :=
  {| request_id := 2016; response_id := 2024; can_type := VCI_UDS_CAN_CLASSIC;
     padding_target_size := 8; padding_fill_byte := 204; tp_config := tp max_nrc78;
     tester_present_interval_ms := 2000; tester_present_id := 0;
     tester_present_sub_func := 128 |}.

(** ReadDataByIdentifier 0xF190. *)
Definition rdbi : list Z := [34; 241; 144].

(** On the response identifier 0x7E8: [7F 22 78] (response pending),
    [62 F1 90] (positive reply), and a frame whose PCI nibble is 0xF. *)
Definition pending_at (t : nat) : nat * FkVciCanDataType :=
  (t, {| CanID := 2024; Data := [3; 127; 34; 120; 204; 204; 204; 204] |}).
Definition positive_at (t : nat) : nat * FkVciCanDataType :=
  (t, {| CanID := 2024; Data := [3; 98; 241; 144; 204; 204; 204; 204] |}).
Definition garbled_at (t : nat) : nat * FkVciCanDataType :=
  (t, {| CanID := 2024; Data := [240; 0; 0; 0; 0; 0; 0; 0] |}).

Definition world (bus : list (nat * FkVciCanDataType)) (abort_at : option nat) : World :=
  {| w_clock := 0; w_bus := bus; w_abort_at := abort_at; w_sent := [];
     w_send_ok := fun _ => true; w_last_tx := 0 |}.

Definition run (max_nrc78 : nat) (bus : list (nat * FkVciCanDataType)) (abort_at : option nat)
    : option (TransactionResult * World) :=
  execute comm_sendFrame comm_receiveFrame 1000 (Transaction_new (ctx max_nrc78) rdbi)
    (world bus abort_at).

Definition outcome (r : option (TransactionResult * World)) : option (VciUdsResultCode * nat) :=
  option_map (fun '(res, w) => (result_code res, w_clock w)) r.

(** A 20-byte request (segmented), and the transaction waiting for the
    Flow Control after its First Frame. *)
Definition long_payload : list Z := [46; 241; 144] ++ repeat 0 17.
Definition fc_tx : Transaction := setState (Transaction_new (ctx 5) long_payload) WAIT_FOR_FC.

(** The single-frame request waiting for its response. *)
Definition resp_tx : Transaction := setState (Transaction_new (ctx 5) rdbi) WAIT_FOR_RESPONSE.

(** The segmented request after its First Frame and a Flow Control
    [CTS, BS=0, STmin=20 ms]: the segmenter has consumed six bytes. *)
Definition cf_seg : Segmenter :=
  snd (Segmenter_getNextFrame (Segmenter_new long_payload VCI_UDS_CAN_CLASSIC)).
Definition cf_tx : Transaction :=
  with_fields fc_tx SEND_CONSECUTIVE_FRAMES (m_result fc_tx) 0 0 0 20 (Some cf_seg)
    (m_reassembler fc_tx).

(** A Flow Control [3s BS STmin] on 0x7E8, and a frame on another identifier. *)
Definition fc_at (t : nat) (status bs st : Z) : nat * FkVciCanDataType :=
  (t, {| CanID := 2024; Data := [48 + status; bs; st; 204; 204; 204; 204; 204] |}).
Definition foreign_at (t : nat) : nat * FkVciCanDataType :=
  (t, {| CanID := 2025; Data := [3; 98; 241; 144; 204; 204; 204; 204] |}).

(** A First Frame announcing 20 bytes on 0x7E8, and Consecutive Frames
    [2sn 04 .. 0A] on 0x7E8. *)
Definition ff_at (t : nat) : nat * FkVciCanDataType :=
  (t, {| CanID := 2024; Data := [16; 20; 98; 241; 144; 1; 2; 3] |}).
Definition cf_at (t : nat) (sn : Z) : nat * FkVciCanDataType :=
  (t, {| CanID := 2024; Data := [32 + sn; 4; 5; 6; 7; 8; 9; 10] |}).
(** A world in which every send fails. *)
(** A communicator whose [sendFrame] blocks for [d] ms before the frame
    goes on the bus. *)
Definition slow_sender (d : nat) : FrameSender := fun f w =>
  comm_sendFrame f (set_clock w (w_clock w + d)).
Definition world_send_fails (bus : list (nat * FkVciCanDataType)) : World :=
  {| w_clock := 0; w_bus := bus; w_abort_at := None; w_sent := [];
     w_send_ok := fun _ => false; w_last_tx := 0 |}.
(** The single-frame request after a First Frame reply of 20 bytes: the
    reassembler holds its first six bytes. *)
Definition rcf_tx : Transaction :=
  set_reassembler (setState resp_tx RECEIVE_CONSECUTIVE_FRAMES)
    (snd (Reassembler_processFrame Reassembler_new (FirstFrame 20 [98; 241; 144; 1; 2; 3]))).
(** A request one byte above the classic-CAN limit of 4095 bytes. *)
Definition oversized : list Z := repeat 0 4096.

End Scenario.

(** Inputs for the security-access sequence: a seed [AA BB] and a key that
    is the seed XOR 0xFF. *)
Definition demo_requestSync (n : nat) (p : list Z) : VciUdsResultCode * list Z :=
  match n with
  | O => (VCI_UDS_RESULT_OK, [103; 1; 170; 187])
  | _ => (VCI_UDS_RESULT_OK, [103; 2])
  end.

Definition demo_calculateKey (level : Z) (seed : list Z) : VciUdsResultCode * list Z :=
  (VCI_UDS_RESULT_OK, map (fun b => Z.lxor b 255) seed).

(** Physical-worker predicates: the result is not [Aborted]; the payload is
    non-empty. *)
Definition not_aborted (r : Response) : bool :=
  negb (result_code_eqb (resp_code r) VCI_UDS_RESULT_ABORTED).

Definition nonempty (p : list Z) : bool := match p with [] => false | _ => true end.

(** ** Predicates on transactions and worlds *)

(** A transaction whose result fields are consistent: [success] exactly
    when the code is [Ok], exactly when the state is [COMPLETED]. *)
Definition result_consistent (ctx : UdsSessionContext) (tx : Transaction) : Prop :=
  m_context tx = ctx /\
  (success (m_result tx) = true <-> result_code (m_result tx) = VCI_UDS_RESULT_OK) /\
  (success (m_result tx) = true <-> m_state tx = COMPLETED).

(** A transaction still running: its context, [success = false], a code
    other than [Ok]. *)
Definition running (ctx : UdsSessionContext) (tx : Transaction) : Prop :=
  m_context tx = ctx /\ success (m_result tx) = false /\
  result_code (m_result tx) <> VCI_UDS_RESULT_OK.

(** A Hoare triple over the world: every run of [m] that returns relates
    its initial and final worlds by [R] and returns a value satisfying [Q]. *)
Definition triple (R : World -> World -> Prop) {A} (Q : A -> Prop) (m : M A) : Prop :=
  forall w a w', m w = Some (a, w') -> R w w' /\ Q a.

(** Frames sent between two worlds: appended, on [req], stamped within the interval. *)
Definition sends_on (req : Z) (w w' : World) : Prop :=
  (w_clock w <= w_clock w')%nat /\ w_abort_at w' = w_abort_at w /\
  exists l, w_sent w' = w_sent w ++ l /\
    Forall (fun p => CanID (snd p) = req /\ (w_clock w <= fst p <= w_clock w')%nat) l.

(** The idle clock across a computation: the clock only advances, frames
    are appended, and once [m_last_tx_time_ms] is not ahead of the clock it
    stays so, never goes back, and is at or after every frame sent. *)
Definition idle_tracks (w w' : World) : Prop :=
  (w_clock w <= w_clock w')%nat /\
  exists l, w_sent w' = w_sent w ++ l /\
    ((w_last_tx w <= w_clock w)%nat ->
     (w_last_tx w' <= w_clock w')%nat /\ (w_last_tx w <= w_last_tx w')%nat /\
     Forall (fun p => (fst p <= w_last_tx w')%nat) l).

(** The frame a request starts with: a Single Frame when it fits, else the
    First Frame of a fresh segmenter. *)
Definition first_request_frame (ctx : UdsSessionContext) (payload : list Z) : FkVciCanDataType :=
  let classic := match can_type ctx with VCI_UDS_CAN_CLASSIC => true | _ => false end in
  build (if (length payload <=? (if classic then 7 else 62))%nat then SingleFrame payload
         else fst (Segmenter_getNextFrame (Segmenter_new payload (can_type ctx))))
    (request_id ctx) (can_type ctx) (padding_target_size ctx) (padding_fill_byte ctx).

(** What one call of [waitForFrame_loop] does to the world, over the real
    communicator: the clock only moves forward and not past the deadline,
    nothing is sent, and the inbound frames it consumes are frames of other
    identifiers, followed by the frame it returns. *)
Definition wait_effect (resp : Z) (deadline : nat) (w : World)
    (o : option FkVciCanDataType) (w' : World) : Prop :=
  (w_clock w <= w_clock w' <= deadline)%nat /\ w_sent w' = w_sent w /\
  w_abort_at w' = w_abort_at w /\ w_last_tx w' = w_last_tx w /\
  exists dropped, Forall (fun p => CanID (snd p) <> resp) dropped /\
    match o with
    | None => w_bus w = dropped ++ w_bus w'
    | Some f => CanID f = resp /\ exists t, w_bus w = dropped ++ (t, f) :: w_bus w'
    end.

(** Frames [l], sent in order after tick [t0], each at least [sep] ms
    after the previous one (the first one after [t0]). *)
Fixpoint spaced (sep : Z) (t0 : nat) (l : list (nat * FkVciCanDataType)) : Prop :=
  match l with
  | [] => True
  | (t, _) :: l' => (t0 <= t)%nat /\ sep <= Z.of_nat t - Z.of_nat t0 /\ spaced sep t l'
  end.

(** No frame on [resp] arrives in the ticks [a .. a + 10]. *)
Definition quiet_after (resp : Z) (a : nat) (w : World) : Prop :=
  Forall (fun p => (a <= fst p <= a + 10)%nat -> CanID (snd p) <> resp) (w_bus w).

(** The frames of [l] sent at tick [a] or later. *)
Definition sent_from (a : nat) (l : list (nat * FkVciCanDataType))
    : list (nat * FkVciCanDataType) :=
  filter (fun p => (a <=? fst p)%nat) l.

(** What a run from [tx], [w] to [tx'], [w'] does when the abort flag is
    set at tick [a]: it keeps the context and the abort time, the bus stays
    quiet after [a], it sends at most one frame from [a] on, at [a], and it
    ends before [a], with [Aborted] by [a + 10], or at [a] either still
    running or with [SendFailed]. *)
Definition abort_post (a : nat) (tx : Transaction) (w : World) (tx' : Transaction) (w' : World)
    : Prop :=
  m_context tx' = m_context tx /\ w_abort_at w' = w_abort_at w /\
  quiet_after (response_id (m_context tx)) a w' /\ (w_clock w <= w_clock w')%nat /\
  exists l, w_sent w' = w_sent w ++ l /\
    (sent_from a l = [] \/ exists f, sent_from a l = [(a, f)] /\ w_clock w' = a) /\
    ((w_clock w' < a)%nat \/
     (m_state tx' = FAILED /\ result_code (m_result tx') = VCI_UDS_RESULT_ABORTED /\
      (w_clock w' <= a + 10)%nat) \/
     (w_clock w' = a /\
      (is_terminal (m_state tx') = false \/
       (m_state tx' = FAILED /\ result_code (m_result tx') = VCI_UDS_RESULT_SEND_FAILED)))).

(** * Theorems *)

(** ** Request queue bound *)

(** C3 (code_bug): with the service running, a non-empty payload and a
    request queue already holding [REQUEST_QUEUE_SIZE] undrained items,
    [requestAsync] still returns [Ok] and enqueues: the guard is
    [size_approx() > REQUEST_QUEUE_SIZE], so [QueueFull] only comes on the
    next call, once the queue holds [REQUEST_QUEUE_SIZE + 1] items. *)
Theorem requestAsync_full_queue_accepts (REQUEST_QUEUE_SIZE : nat) (active : bool) :
  let s := {| AsyncRequest.m_service_is_running := true;
              AsyncRequest.m_request_queue := repeat [62; 0] REQUEST_QUEUE_SIZE;
              AsyncRequest.m_phys_thread_active := active |} in
  let s' := {| AsyncRequest.m_service_is_running := true;
               AsyncRequest.m_request_queue :=
                 repeat [62; 0] REQUEST_QUEUE_SIZE ++ [Scenario.rdbi];
               AsyncRequest.m_phys_thread_active := true |} in
  AsyncRequest.requestAsync REQUEST_QUEUE_SIZE s Scenario.rdbi = (VCI_UDS_RESULT_OK, s') /\
  AsyncRequest.requestAsync REQUEST_QUEUE_SIZE s' Scenario.rdbi = (VCI_UDS_RESULT_QUEUE_FULL, s').
Proof.
  simpl. unfold AsyncRequest.requestAsync. simpl.
  rewrite length_app, repeat_length, Nat.ltb_irrefl. simpl.
  replace (REQUEST_QUEUE_SIZE <? REQUEST_QUEUE_SIZE + 1)%nat with true
    by (symmetry; apply Nat.ltb_lt; lia).
  split; reflexivity.
Qed.

(** ** Physical worker *)

(** C4 (counterexample): a request whose transaction ends [Aborted] is
    processed by the worker but nothing is enqueued for it. *)
Lemma physical_worker_drops_aborted :
  PhysicalWorker.physicalProcessingThreadFunc
    (fun _ => {| resp_code := VCI_UDS_RESULT_ABORTED; resp_payload := [] |})
    [PhysicalWorker.Dequeued Scenario.rdbi]
  = ([], PhysicalWorker.StillRunning).
Proof. reflexivity. Qed.

(** C4 (amended): for every run of requests, the worker enqueues the
    outcome of every processed request whose code is not [Aborted] (success
    or any other failure), in order, drops the [Aborted] ones, skips empty
    sentinel payloads, and keeps looping whatever the outcomes: it only
    leaves the loop on idle timeout or external stop. *)
Theorem physical_worker_enqueues_non_aborted
    (executeTransaction : list Z -> Response) (payloads : list (list Z)) :
  PhysicalWorker.physicalProcessingThreadFunc executeTransaction
    (map PhysicalWorker.Dequeued payloads)
  = (filter not_aborted (map executeTransaction (filter nonempty payloads)),
     PhysicalWorker.StillRunning).
Proof.
  induction payloads as [|p ps IH]; [reflexivity|].
  destruct p as [|b bs]; simpl; [exact IH|].
  rewrite IH. unfold not_aborted.
  destruct (result_code_eqb _ _); reflexivity.
Qed.

(** ** Security access *)

Lemma is_ok_true (c : VciUdsResultCode) :
  SecurityAccess.is_ok c = true <-> c = VCI_UDS_RESULT_OK.
Proof. apply result_code_eqb_eq. Qed.

(** C7: [executeSecurityAccessSequence] makes exactly the calls
    requestSync([0x27, 2*level-1]), calculateKey(level, seed),
    requestSync([0x27, 2*level] ++ key) (bytes modulo 256), stops at the first
    failing step with that step's code, requires a seed response starting
    with 0x67 with at least one byte after the two-byte header (a reply
    [0x67, subfunc] gives [SecurityInvalidSeed]), derives the key from the
    bytes after the header, and returns the key request's result. *)
Theorem securityAccess_three_steps
    (requestSync : nat -> list Z -> VciUdsResultCode * list Z)
    (calculateKey : Z -> list Z -> VciUdsResultCode * list Z)
    (level : Z) (final_response : list Z) (c0 : VciUdsResultCode) (resp0 : list Z)
    (Hseed : requestSync 0%nat [39; (2 * level - 1) mod 256] = (c0, resp0)) :
  let c1 := SecurityAccess.CallRequestSync [39; (2 * level - 1) mod 256] in
  let r := SecurityAccess.executeSecurityAccessSequence requestSync calculateKey
             level final_response in
  (c0 <> VCI_UDS_RESULT_OK -> r = (c0, resp0, [c1])) /\
  (c0 = VCI_UDS_RESULT_OK -> forall subfunc, resp0 = [103; subfunc] ->
     r = (VCI_UDS_RESULT_SECURITY_INVALID_SEED, final_response, [c1])) /\
  (c0 = VCI_UDS_RESULT_OK -> (length resp0 < 3)%nat \/ nth 0 resp0 0 <> 103 ->
     r = (VCI_UDS_RESULT_SECURITY_INVALID_SEED, final_response, [c1])) /\
  (forall subfunc seed kc key,
     c0 = VCI_UDS_RESULT_OK -> resp0 = 103 :: subfunc :: seed -> seed <> [] ->
     calculateKey level seed = (kc, key) ->
     let c2 := SecurityAccess.CallCalculateKey level seed in
     (kc <> VCI_UDS_RESULT_OK -> r = (kc, final_response, [c1; c2])) /\
     (kc = VCI_UDS_RESULT_OK ->
        let key_request := 39 :: (2 * level) mod 256 :: key in
        r = (fst (requestSync 1%nat key_request), snd (requestSync 1%nat key_request),
             [c1; c2; SecurityAccess.CallRequestSync key_request]))).
Proof.
  intros c1 r. subst r c1.
  unfold SecurityAccess.executeSecurityAccessSequence. rewrite Hseed.
  split; [|split; [|split]].
  - intros Hne. destruct (SecurityAccess.is_ok c0) eqn:E.
    + apply is_ok_true in E. contradiction.
    + reflexivity.
  - intros -> sf ->. reflexivity.
  - intros -> Hbad. simpl.
    destruct Hbad as [Hlen | Hhd].
    + replace (length resp0 <? 3)%nat with true by (symmetry; apply Nat.ltb_lt; lia).
      reflexivity.
    + destruct (length resp0 <? 3)%nat; [reflexivity|].
      apply Z.eqb_neq in Hhd. rewrite Hhd. reflexivity.
  - intros sf seed kc key -> -> Hne Hkey. cbv zeta. simpl.
    destruct seed as [|s0 seed]; [congruence|]. simpl.
    rewrite Hkey. split.
    + intros Hkc. destruct (SecurityAccess.is_ok kc) eqn:E.
      * apply is_ok_true in E. contradiction.
      * reflexivity.
    + intros ->. simpl. destruct (requestSync 1%nat _). reflexivity.
Qed.

Lemma securityAccess_three_steps_witness :
  demo_requestSync 0%nat [39; (2 * 1 - 1) mod 256] = (VCI_UDS_RESULT_OK, [103; 1; 170; 187]) /\
  SecurityAccess.executeSecurityAccessSequence demo_requestSync demo_calculateKey 1 []
    = (VCI_UDS_RESULT_OK, [103; 2],
       [SecurityAccess.CallRequestSync [39; 1]; SecurityAccess.CallCalculateKey 1 [170; 187];
        SecurityAccess.CallRequestSync [39; 2; 85; 68]]).
Proof.
  split; [reflexivity|].
  destruct (securityAccess_three_steps demo_requestSync demo_calculateKey 1 []
              VCI_UDS_RESULT_OK [103; 1; 170; 187] eq_refl) as [_ [_ [_ H]]].
  destruct (H 1 [170; 187] VCI_UDS_RESULT_OK [85; 68] eq_refl eq_refl
              ltac:(discriminate) eq_refl) as [_ H2].
  rewrite (H2 eq_refl). reflexivity.
Defined.

(** ** Keep-alive and the functional pipeline *)

Lemma functional_run_keeps_last_tx (calls : list FunctionalWorker.FtCall) (w : World) :
  w_last_tx (FunctionalWorker.run_calls functional_sender comm_receiveFrame calls w) = w_last_tx w.
Proof.
  revert w. induction calls as [|c cs IH]; intros w; [reflexivity|].
  destruct c as [f|t|ms]; simpl; rewrite IH; [reflexivity| |reflexivity].
  unfold comm_receiveFrame. destruct (w_bus w) as [|[t0 f0] rest]; [reflexivity|].
  destruct (t0 <=? w_clock w + t)%nat; reflexivity.
Qed.

(** C10: every send through the closure bound into a physical
    [Transaction] stamps [m_last_tx_time_ms] with the send tick; a functional
    broadcast, whatever frames its [FunctionalTransaction] sends or receives
    through the closures bound by the functional worker, leaves
    [m_last_tx_time_ms] unchanged, so the keep-alive decision at any later
    tick is the same as without the broadcast. *)
Theorem functional_broadcast_keeps_idle_clock :
  (forall f w, w_last_tx (snd (physical_sender f w)) = w_clock w) /\
  (forall calls w,
     w_last_tx (FunctionalWorker.functional_iteration calls w) = w_last_tx w) /\
  (forall calls w ctx now,
     KeepAlive.keepAliveRound ctx now (w_last_tx (FunctionalWorker.functional_iteration calls w))
     = KeepAlive.keepAliveRound ctx now (w_last_tx w)).
Proof.
  split; [|split].
  - intros f w. reflexivity.
  - intros calls w. unfold FunctionalWorker.functional_iteration.
    rewrite functional_run_keeps_last_tx. reflexivity.
  - intros calls w ctx now. unfold FunctionalWorker.functional_iteration.
    rewrite functional_run_keeps_last_tx. reflexivity.
Qed.

(** ** Response pending (NRC 0x78) *)

(** C1 (code_bug): the limit check is [m_nrc78_count >= max_nrc78_count].
    With [max_nrc78_count = 2] the second [7F 22 78] reply already fails with
    [Nrc78LimitExceeded] (at tick 20, before the third pending reply at tick
    30); with [max_nrc78_count = 5] three pending replies then a positive
    reply complete the transaction. *)
Theorem nrc78_limit_reached_at_count :
  Scenario.outcome
    (Scenario.run 2 [Scenario.pending_at 10; Scenario.pending_at 20;
                     Scenario.pending_at 30; Scenario.positive_at 40] None)
  = Some (VCI_UDS_RESULT_NRC78_LIMIT_EXCEEDED, 20%nat) /\
  Scenario.outcome
    (Scenario.run 5 [Scenario.pending_at 10; Scenario.pending_at 20;
                     Scenario.pending_at 30; Scenario.positive_at 40] None)
  = Some (VCI_UDS_RESULT_OK, 40%nat).
Proof. split; vm_compute; reflexivity. Qed.

(** ** Garbled frames in WAIT_FOR_RESPONSE *)

(** C2 (code_bug): each frame that fails to parse makes the loop call
    [waitForFrame(timeout)] again, which measures the timeout from a new
    start tick.  With [n_as = 100] and garbled frames at ticks 90, 180 and
    270, the transaction waits until tick 370 before failing with
    [TimeoutA]; with a positive reply at tick 350 instead of silence it even
    completes, 350 ms after entering the wait. *)
Theorem garbled_frames_restart_timeout :
  Scenario.outcome
    (Scenario.run 5 [Scenario.garbled_at 90; Scenario.garbled_at 180;
                     Scenario.garbled_at 270] None)
  = Some (VCI_UDS_RESULT_TIMEOUT_A, 370%nat) /\
  Scenario.outcome
    (Scenario.run 5 [Scenario.garbled_at 90; Scenario.garbled_at 180;
                     Scenario.garbled_at 270; Scenario.positive_at 350] None)
  = Some (VCI_UDS_RESULT_OK, 350%nat).
Proof. split; vm_compute; reflexivity. Qed.

(** ** Abort *)

(** C8 (counterexample): [stopExecution()] at tick 35 while the provider is
    blocked in the poll covering ticks 30..40; the positive reply arriving at
    tick 40 is returned by that poll and processed, and [execute()] returns
    [Ok] although the abort flag has been set. *)
Lemma abort_during_poll_completes :
  Scenario.outcome (Scenario.run 5 [Scenario.positive_at 40] (Some 35%nat))
  = Some (VCI_UDS_RESULT_OK, 40%nat).
Proof. vm_compute. reflexivity. Qed.

(** ** Frame waits *)

(** The poll chunk of [waitForFrame]: between 1 and 10 ms, never past the
    remaining time. *)
Lemma chunk_bounds (rem : nat) :
  (0 < rem)%nat ->
  (1 <= Nat.min 10 (if (0 <? rem)%nat then rem else 1%nat) <= rem)%nat /\
  (Nat.min 10 (if (0 <? rem)%nat then rem else 1%nat) <= 10)%nat /\
  (Nat.min 10 (if (0 <? rem)%nat then rem else 1%nat) = 10 \/
   Nat.min 10 (if (0 <? rem)%nat then rem else 1%nat) = rem)%nat.
Proof.
  intros H. replace (0 <? rem)%nat with true by (symmetry; apply Nat.ltb_lt; lia).
  destruct (Nat.min_spec 10 rem) as [[? ->]|[? ->]]; lia.
Qed.

Lemma abort_flag_false (w : World) (t : nat) :
  (forall a, w_abort_at w = Some a -> t < a)%nat -> (w_clock w <= t)%nat -> abort_flag w = false.
Proof.
  intros H Hc. unfold abort_flag. destruct (w_abort_at w) as [a|] eqn:E; [|reflexivity].
  apply Nat.leb_gt. specialize (H a eq_refl). lia.
Qed.

Lemma wfl_arrival (fuel : nat) : forall (w : World) resp start timeout t f rest,
  w_bus w = (t, f) :: rest -> CanID f = resp ->
  (start <= w_clock w <= t)%nat -> (t < start + timeout)%nat ->
  (forall a, w_abort_at w = Some a -> t < a)%nat ->
  (t - w_clock w < fuel)%nat ->
  waitForFrame_loop comm_receiveFrame fuel resp start timeout w
  = Some (Some f, set_bus (set_clock w t) rest).
Proof.
  induction fuel as [|fuel IH]; intros w resp start timeout t f rest Hbus Hid Hc Ht Hab Hf;
    [lia|].
  cbn [waitForFrame_loop]. unfold bind, load_abort_flag, getTickCount, ret.
  rewrite (abort_flag_false w t Hab) by lia.
  replace (timeout <=? w_clock w - start)%nat with false by (symmetry; apply Nat.leb_gt; lia).
  destruct (chunk_bounds (timeout - (w_clock w - start))) as [Hc1 [Hc2 Hc3]]; [lia|].
  set (ch := Nat.min 10 _) in *.
  unfold comm_receiveFrame at 1. rewrite Hbus.
  destruct (t <=? w_clock w + ch)%nat eqn:E.
  - rewrite Hid, Z.eqb_refl. rewrite Nat.max_r by lia. reflexivity.
  - apply Nat.leb_gt in E.
    rewrite (IH (set_clock w (w_clock w + ch)) resp start timeout t f rest);
      simpl; auto; lia.
Qed.

Lemma wfl_timeout (fuel : nat) : forall (w : World) resp start timeout,
  (start <= w_clock w <= start + timeout)%nat ->
  (forall a, w_abort_at w = Some a -> start + timeout < a)%nat ->
  Forall (fun p => (fst p <= start + timeout)%nat -> CanID (snd p) <> resp) (w_bus w) ->
  (start + timeout - w_clock w + length (w_bus w) < fuel)%nat ->
  exists w', waitForFrame_loop comm_receiveFrame fuel resp start timeout w = Some (None, w')
    /\ w_clock w' = (start + timeout)%nat /\ w_abort_at w' = w_abort_at w
    /\ w_sent w' = w_sent w.
Proof.
  induction fuel as [|fuel IH]; intros w resp start timeout Hc Hab Hbus Hf; [lia|].
  cbn [waitForFrame_loop]. unfold bind, load_abort_flag, getTickCount, ret.
  rewrite (abort_flag_false w (start + timeout) Hab) by lia.
  destruct (timeout <=? w_clock w - start)%nat eqn:Eto.
  - apply Nat.leb_le in Eto. exists w. repeat split; lia.
  - apply Nat.leb_gt in Eto.
    destruct (chunk_bounds (timeout - (w_clock w - start))) as [Hc1 [Hc2 Hc3]]; [lia|].
    set (ch := Nat.min 10 _) in *.
    unfold comm_receiveFrame at 1.
    destruct (w_bus w) as [|[t f] rest] eqn:Hb.
    + apply (IH (set_clock w (w_clock w + ch))); simpl; rewrite ?Hb; simpl in *; auto; lia.

    + inversion Hbus as [|? ? Hhd Htl]; subst. simpl in Hhd.
      destruct (t <=? w_clock w + ch)%nat eqn:E.
      * apply Nat.leb_le in E.
        destruct (CanID f =? resp) eqn:Eid.
        { apply Z.eqb_eq in Eid. exfalso. apply Hhd; [lia|exact Eid]. }
        apply (IH (set_bus (set_clock w (Nat.max (w_clock w) t)) rest)); simpl; auto; try lia.
        simpl in Hf. lia.
      * apply Nat.leb_gt in E.
        apply (IH (set_clock w (w_clock w + ch))); simpl; rewrite ?Hb; simpl in *; auto; lia.
Qed.

Lemma handle_wait_for_fc_arrival (fuel : nat) (tx : Transaction) (w : World) t f rest :
  w_bus w = (t, f) :: rest -> CanID f = response_id (m_context tx) ->
  (w_clock w <= t < w_clock w + n_bs_timeout (tpc tx))%nat ->
  (forall a, w_abort_at w = Some a -> t < a)%nat ->
  (t - w_clock w < fuel)%nat ->
  handle_wait_for_fc comm_receiveFrame fuel tx w
  = match parse (Data f) with
    | Some (FlowControl status bs st) =>
        match status with
        | UDS_TP_FLOW_STATUS_CONTINUE_TO_SEND =>
            Some (setState
                    (with_fields tx (m_state tx) (m_result tx) (m_nrc78_count tx)
                       bs 0 (clamp_separation_time st) (m_segmenter tx) (m_reassembler tx))
                    SEND_CONSECUTIVE_FRAMES, set_bus (set_clock w t) rest)
        | UDS_TP_FLOW_STATUS_WAIT => Some (tx, set_bus (set_clock w t) rest)
        | UDS_TP_FLOW_STATUS_OVERFLOW =>
            Some (fail tx VCI_UDS_RESULT_FC_OVERFLOW, set_bus (set_clock w t) rest)
        end
    | _ => Some (fail tx VCI_UDS_RESULT_UNEXPECTED_FRAME, set_bus (set_clock w t) rest)
    end.
Proof.
  intros Hbus Hid Ht Hab Hf.
  unfold handle_wait_for_fc, waitForFrame, bind at 1. unfold bind at 1, getTickCount.
  rewrite (wfl_arrival fuel w (response_id (m_context tx)) (w_clock w)
             (n_bs_timeout (tpc tx)) t f rest) by (auto; lia).
  destruct (parse (Data f)) as [[| | |s bs st]|]; try reflexivity.
  destruct s; reflexivity.
Qed.

Lemma handle_wait_for_fc_silent (fuel : nat) (tx : Transaction) (w : World) :
  (forall a, w_abort_at w = Some a -> w_clock w + n_bs_timeout (tpc tx) < a)%nat ->
  Forall (fun p => (fst p <= w_clock w + n_bs_timeout (tpc tx))%nat ->
                   CanID (snd p) <> response_id (m_context tx)) (w_bus w) ->
  (n_bs_timeout (tpc tx) + length (w_bus w) < fuel)%nat ->
  exists w', handle_wait_for_fc comm_receiveFrame fuel tx w
             = Some (fail tx VCI_UDS_RESULT_TIMEOUT_BS, w')
    /\ w_clock w' = (w_clock w + n_bs_timeout (tpc tx))%nat /\ w_sent w' = w_sent w.
Proof.
  intros Hab Hbus Hf.
  unfold handle_wait_for_fc, waitForFrame, bind at 1. unfold bind at 1, getTickCount.
  destruct (wfl_timeout fuel w (response_id (m_context tx)) (w_clock w)
              (n_bs_timeout (tpc tx))) as [w' [-> [Hc [Ha Hs]]]]; auto; try lia.
  exists w'. unfold bind, load_abort_flag, ret. cbv beta.
  rewrite (abort_flag_false w' (w_clock w + n_bs_timeout (tpc tx))); [|rewrite Ha; exact Hab|lia].
  auto.
Qed.

(** C5: a Flow Control [Continue] on the response identifier, received in
    [WAIT_FOR_FC] before [n_bs] elapses, moves the transaction to
    [SEND_CONSECUTIVE_FRAMES] with the frame's block size captured, the
    block counter reset, and the separation time clamped: 0..0x7F kept as
    milliseconds, 0xF1..0xF9 coerced to 1 ms, any other byte set to 127 ms. *)
Theorem fc_continue_captures_and_clamps (fuel : nat) (tx : Transaction) (w : World)
    (t : nat) (f : FkVciCanDataType) (rest : list (nat * FkVciCanDataType)) (bs st : Z)
    (Hbus : w_bus w = (t, f) :: rest)
    (Hid : CanID f = response_id (m_context tx))
    (Hparse : parse (Data f) = Some (FlowControl UDS_TP_FLOW_STATUS_CONTINUE_TO_SEND bs st))
    (Ht : (w_clock w <= t < w_clock w + n_bs_timeout (tpc tx))%nat)
    (Hab : forall a, w_abort_at w = Some a -> (t < a)%nat)
    (Hf : (t - w_clock w < fuel)%nat) :
  exists tx',
    handle_wait_for_fc comm_receiveFrame fuel tx w = Some (tx', set_bus (set_clock w t) rest) /\
    m_state tx' = SEND_CONSECUTIVE_FRAMES /\
    m_fc_block_size_from_ecu tx' = bs /\ m_fc_frames_sent_in_block tx' = 0 /\
    (0 <= st <= 127 -> m_fc_separation_time_from_ecu tx' = st) /\
    (241 <= st <= 249 -> m_fc_separation_time_from_ecu tx' = 1) /\
    (0 <= st <= 255 -> ~ st <= 127 -> ~ (241 <= st <= 249) ->
       m_fc_separation_time_from_ecu tx' = 127).
Proof.
  rewrite (handle_wait_for_fc_arrival fuel tx w t f rest) by auto. rewrite Hparse.
  eexists. split; [reflexivity|]. simpl.
  repeat split; unfold clamp_separation_time; intros.
  - replace (st <=? 127) with true by (symmetry; apply Z.leb_le; lia). reflexivity.
  - replace (st <=? 127) with false by (symmetry; apply Z.leb_gt; lia).
    replace (241 <=? st) with true by (symmetry; apply Z.leb_le; lia).
    replace (st <=? 249) with true by (symmetry; apply Z.leb_le; lia). reflexivity.
  - replace (st <=? 127) with false by (symmetry; apply Z.leb_gt; lia).
    destruct (241 <=? st) eqn:E1; destruct (st <=? 249) eqn:E2; simpl; try reflexivity.
    apply Z.leb_le in E1. apply Z.leb_le in E2. exfalso. auto.
Qed.

Lemma execute_loop_step snd prv fuel tx w :
  is_terminal (m_state tx) = false -> abort_flag w = false ->
  execute_loop snd prv (S fuel) tx w
  = match run_state_machine snd prv fuel tx w with
    | Some (tx', w') => execute_loop snd prv fuel tx' w'
    | None => None
    end.
Proof. intros Ht Ha. cbn [execute_loop]. rewrite Ht. unfold bind, load_abort_flag, ret. rewrite Ha. reflexivity. Qed.

Lemma execute_loop_terminal snd prv fuel tx w :
  is_terminal (m_state tx) = true -> execute_loop snd prv (S fuel) tx w = Some (tx, w).
Proof. intros Ht. cbn [execute_loop]. rewrite Ht. reflexivity. Qed.

Lemma execute_loop_aborted snd prv fuel tx w :
  is_terminal (m_state tx) = false -> abort_flag w = true ->
  execute_loop snd prv (S fuel) tx w = Some (fail tx VCI_UDS_RESULT_ABORTED, w).
Proof. intros Ht Ha. cbn [execute_loop]. rewrite Ht. unfold bind, load_abort_flag, ret. rewrite Ha. reflexivity. Qed.

(** C6: in [WAIT_FOR_FC], a Flow Control [Wait] leaves the transaction
    unchanged, and [execute] then waits a full [n_bs] again from the Wait
    frame before failing with [TimeoutBs]; a Flow Control [Overflow] fails
    with [FcOverflow]; [n_bs] with no frame on the response identifier
    fails with [TimeoutBs]; a frame on the response identifier that is not
    a Flow Control fails with [UnexpectedFrame]. *)
Theorem wait_for_fc_transitions (fuel : nat) (tx : Transaction) (w : World)
    (Hab : w_abort_at w = None)
    (Hf : (n_bs_timeout (tpc tx) + length (w_bus w) + 2 < fuel)%nat) :
  let resp := response_id (m_context tx) in
  let n_bs := n_bs_timeout (tpc tx) in
  (forall t f rest bs st,
     w_bus w = (t, f) :: rest -> CanID f = resp ->
     parse (Data f) = Some (FlowControl UDS_TP_FLOW_STATUS_WAIT bs st) ->
     (w_clock w <= t < w_clock w + n_bs)%nat ->
     handle_wait_for_fc comm_receiveFrame fuel tx w = Some (tx, set_bus (set_clock w t) rest)) /\
  (forall t f bs st,
     m_state tx = WAIT_FOR_FC ->
     w_bus w = [(t, f)] -> CanID f = resp ->
     parse (Data f) = Some (FlowControl UDS_TP_FLOW_STATUS_WAIT bs st) ->
     (w_clock w <= t < w_clock w + n_bs)%nat ->
     exists w', execute_loop comm_sendFrame comm_receiveFrame fuel tx w
                = Some (fail tx VCI_UDS_RESULT_TIMEOUT_BS, w')
       /\ w_clock w' = (t + n_bs)%nat) /\
  (forall t f rest bs st,
     w_bus w = (t, f) :: rest -> CanID f = resp ->
     parse (Data f) = Some (FlowControl UDS_TP_FLOW_STATUS_OVERFLOW bs st) ->
     (w_clock w <= t < w_clock w + n_bs)%nat ->
     handle_wait_for_fc comm_receiveFrame fuel tx w
     = Some (fail tx VCI_UDS_RESULT_FC_OVERFLOW, set_bus (set_clock w t) rest)) /\
  (Forall (fun p => (fst p <= w_clock w + n_bs)%nat -> CanID (snd p) <> resp) (w_bus w) ->
     exists w', handle_wait_for_fc comm_receiveFrame fuel tx w
                = Some (fail tx VCI_UDS_RESULT_TIMEOUT_BS, w')
       /\ w_clock w' = (w_clock w + n_bs)%nat) /\
  (forall t f rest,
     w_bus w = (t, f) :: rest -> CanID f = resp ->
     (forall s bs st, parse (Data f) <> Some (FlowControl s bs st)) ->
     (w_clock w <= t < w_clock w + n_bs)%nat ->
     handle_wait_for_fc comm_receiveFrame fuel tx w
     = Some (fail tx VCI_UDS_RESULT_UNEXPECTED_FRAME, set_bus (set_clock w t) rest)).
Proof.
  intros resp n_bs. subst resp n_bs.
  assert (Hab' : forall a (t : nat), w_abort_at w = Some a -> (t < a)%nat)
    by (intros a t0 E; congruence).
  split; [|split; [|split; [|split]]].
  - intros t f rest bs st Hb Hid Hp Ht.
    rewrite (handle_wait_for_fc_arrival fuel tx w t f rest) by (auto; lia).
    rewrite Hp. reflexivity.
  - intros t f bs st Hst Hb Hid Hp Ht.
    assert (Hnt : is_terminal (m_state tx) = false) by (rewrite Hst; reflexivity).
    assert (Hna : forall w0, w_abort_at w0 = None -> abort_flag w0 = false)
      by (intros w0 E; unfold abort_flag; rewrite E; reflexivity).
    destruct fuel as [|fuel]; [lia|].
    rewrite execute_loop_step by auto.
    unfold run_state_machine. rewrite Hst.
    rewrite (handle_wait_for_fc_arrival fuel tx w t f []) by (auto; lia).
    rewrite Hp.
    destruct fuel as [|fuel]; [lia|].
    rewrite execute_loop_step by (auto; apply Hna; exact Hab).
    unfold run_state_machine. rewrite Hst.
    destruct (handle_wait_for_fc_silent fuel tx (set_bus (set_clock w t) []))
      as [w' [Hw' [Hc _]]]; simpl; auto; try (intros; congruence); try lia.
    rewrite Hw'.
    destruct fuel as [|fuel]; [simpl in Hc; lia|].
    rewrite execute_loop_terminal by reflexivity.
    exists w'. split; [reflexivity|]. rewrite Hc. reflexivity.
  - intros t f rest bs st Hb Hid Hp Ht.
    rewrite (handle_wait_for_fc_arrival fuel tx w t f rest) by (auto; lia).
    rewrite Hp. reflexivity.
  - intros Hbus.
    destruct (handle_wait_for_fc_silent fuel tx w) as [w' [Hw' [Hc _]]];
      auto; try (intros; congruence); try lia.
    exists w'. auto.
  - intros t f rest Hb Hid Hnot Ht.
    rewrite (handle_wait_for_fc_arrival fuel tx w t f rest) by (auto; lia).
    destruct (parse (Data f)) as [[| | |s bs st]|]; try reflexivity.
    exfalso. exact (Hnot s bs st eq_refl).
Qed.

Lemma wfl_abort_window (fuel : nat) : forall (w : World) resp start timeout a o w',
  w_abort_at w = Some a -> quiet_after resp a w ->
  waitForFrame_loop comm_receiveFrame fuel resp start timeout w = Some (o, w') ->
  w_abort_at w' = Some a /\ quiet_after resp a w' /\ w_sent w' = w_sent w /\
  (w_clock w <= w_clock w')%nat /\
  match o with
  | Some _ => (w_clock w' < a)%nat
  | None => (w_clock w' < a)%nat \/ (a <= w_clock w' <= Nat.max (w_clock w) (a + 10))%nat
  end.
Proof.
  induction fuel as [|fuel IH]; intros w resp start timeout a o w' Ha Hq H; [discriminate|].
  cbn [waitForFrame_loop] in H. unfold bind, load_abort_flag, getTickCount, ret in H.
  destruct (abort_flag w) eqn:Eab.
  { injection H as <- <-. unfold abort_flag in Eab. rewrite Ha in Eab. apply Nat.leb_le in Eab.
    repeat split; auto; lia. }
  unfold abort_flag in Eab. rewrite Ha in Eab. apply Nat.leb_gt in Eab.
  destruct (timeout <=? w_clock w - start)%nat eqn:Eto.
  { injection H as <- <-. repeat split; auto; lia. }
  apply Nat.leb_gt in Eto.
  destruct (chunk_bounds (timeout - (w_clock w - start))) as [Hc1 [Hc2 Hc3]]; [lia|].
  set (ch := Nat.min 10 _) in *.
  unfold comm_receiveFrame at 1 in H.
  cbv beta iota zeta in H.
  destruct (w_bus w) as [|[t f] rest] eqn:Hb.
  - apply (IH _ _ _ _ a) in H; [|exact Ha|unfold quiet_after; simpl; rewrite Hb; constructor].
    simpl in H. destruct H as [H1 [H2 [H3 [H4 H5]]]]. repeat split; auto; [lia|].
    destruct o; lia.
  - unfold quiet_after in Hq. rewrite Hb in Hq.
    inversion Hq as [|? ? Hhd Htl]; subst. simpl in Hhd.
    destruct (t <=? w_clock w + ch)%nat eqn:E.
    + apply Nat.leb_le in E.
      destruct (CanID f =? resp) eqn:Eid.
      * injection H as <- <-. apply Z.eqb_eq in Eid.
        assert (t < a)%nat.
        { destruct (Nat.lt_ge_cases t a) as [?|Hge]; auto.
          exfalso. apply Hhd; [lia|exact Eid]. }
        simpl. repeat split; auto; lia.
      * apply (IH _ _ _ _ a) in H; [|exact Ha|exact Htl].
        simpl in H. destruct H as [H1 [H2 [H3 [H4 H5]]]]. repeat split; auto; [lia|].
        destruct o; lia.
    + apply Nat.leb_gt in E.
      apply (IH _ _ _ _ a) in H; [|exact Ha|unfold quiet_after; simpl; rewrite Hb; exact Hq].
      simpl in H. destruct H as [H1 [H2 [H3 [H4 H5]]]]. repeat split; auto; [lia|].
      destruct o; lia.
Qed.

Lemma pace_loop_abort_window (fuel : nat) : forall (w : World) ws sep a b w',
  w_abort_at w = Some a -> (w_clock w <= a)%nat ->
  pace_loop fuel ws sep w = Some (b, w') ->
  w_bus w' = w_bus w /\ w_sent w' = w_sent w /\ w_abort_at w' = w_abort_at w /\
  (w_clock w <= w_clock w' <= a)%nat /\ (b = false -> w_clock w' = a).
Proof.
  induction fuel as [|fuel IH]; intros w ws sep a b w' Ha Hc H; [discriminate|].
  cbn [pace_loop] in H. unfold bind, getTickCount, load_abort_flag, waitFor, ret in H.
  destruct (Z.of_nat (w_clock w - ws) <? sep).
  - unfold abort_flag in H. rewrite Ha in H.
    destruct (a <=? w_clock w)%nat eqn:E.
    + injection H as <- <-. apply Nat.leb_le in E. repeat split; auto; lia.
    + apply Nat.leb_gt in E. apply (IH _ _ _ a) in H; try exact Ha; try (simpl; lia).
      simpl in H. destruct H as [H1 [H2 [H3 [H4 H5]]]]. repeat split; auto; lia.
  - injection H as <- <-. repeat split; auto; try lia; intros; discriminate.
Qed.

Lemma abort_post_early a tx w tx' w' l :
  m_context tx' = m_context tx -> w_abort_at w' = w_abort_at w ->
  quiet_after (response_id (m_context tx)) a w' -> (w_clock w <= w_clock w' < a)%nat ->
  w_sent w' = w_sent w ++ l -> Forall (fun p => (fst p < a)%nat) l ->
  abort_post a tx w tx' w'.
Proof.
  intros Hc Ha Hq Hk Hs Hl. unfold abort_post. repeat split; auto; [lia|].
  exists l. split; [exact Hs|]. split; [|left; lia]. left.
  unfold sent_from. clear Hs. induction Hl as [|p l Hp Hl IH]; [reflexivity|].
  simpl. replace (a <=? fst p)%nat with false by (symmetry; apply Nat.leb_gt; lia). exact IH.
Qed.

Lemma abort_post_aborted a tx w tx' w' :
  m_context tx' = m_context tx -> w_abort_at w' = w_abort_at w ->
  quiet_after (response_id (m_context tx)) a w' -> (w_clock w <= w_clock w' <= a + 10)%nat ->
  w_sent w' = w_sent w ->
  m_state tx' = FAILED -> result_code (m_result tx') = VCI_UDS_RESULT_ABORTED ->
  abort_post a tx w tx' w'.
Proof.
  intros Hc Ha Hq Hk Hs Hst Hr. unfold abort_post. repeat split; auto; [lia|].
  exists []. rewrite app_nil_r. split; [exact Hs|]. split; [left; reflexivity|].
  right. left. repeat split; auto; lia.
Qed.

Lemma abort_post_trans a tx w tx1 w1 tx2 w2 :
  abort_post a tx w tx1 w1 -> (w_clock w1 < a)%nat -> abort_post a tx1 w1 tx2 w2 ->
  abort_post a tx w tx2 w2.
Proof.
  intros [Hc1 [Ha1 [Hq1 [Hk1 [l1 [Hs1 [Hl1 _]]]]]]] Hlt
         [Hc2 [Ha2 [Hq2 [Hk2 [l2 [Hs2 [Hl2 Hr2]]]]]]].
  unfold abort_post. rewrite Hc1 in Hq2.
  repeat split; [congruence|congruence|exact Hq2|lia|].
  exists (l1 ++ l2). split; [rewrite Hs2, Hs1, app_assoc; reflexivity|].
  split; [|exact Hr2].
  assert (E1 : sent_from a l1 = []) by (destruct Hl1 as [E|[f [_ E]]]; [exact E|lia]).
  unfold sent_from in *. rewrite filter_app, E1. exact Hl2.
Qed.

Lemma sendFrame_comm tx f (w : World) :
  sendFrame comm_sendFrame tx f w =
  Some (w_send_ok w (length (w_sent w)),
        set_sent w (w_sent w ++ [(w_clock w,
          build f (request_id (m_context tx)) (can_type (m_context tx))
                (padding_target_size (m_context tx)) (padding_fill_byte (m_context tx)))])).
Proof. reflexivity. Qed.

Lemma quiet_set_sent resp a (w : World) s :
  quiet_after resp a w -> quiet_after resp a (set_sent w s).
Proof. unfold quiet_after. simpl. auto. Qed.

Lemma waitForFrame_abort_window (fuel : nat) (tx : Transaction) timeout (w : World) a o w' :
  w_abort_at w = Some a -> (w_clock w < a)%nat -> quiet_after (response_id (m_context tx)) a w ->
  waitForFrame comm_receiveFrame fuel tx timeout w = Some (o, w') ->
  w_abort_at w' = Some a /\ quiet_after (response_id (m_context tx)) a w' /\
  w_sent w' = w_sent w /\ (w_clock w <= w_clock w')%nat /\
  match o with
  | Some _ => (w_clock w' < a)%nat
  | None => (w_clock w' < a)%nat \/ (a <= w_clock w' <= a + 10)%nat
  end.
Proof.
  intros Ha Hc Hq H. unfold waitForFrame, bind, getTickCount in H.
  apply (wfl_abort_window _ _ _ _ _ a) in H; auto.
  destruct H as [H1 [H2 [H3 [H4 H5]]]]. repeat split; auto.
  destruct o; [exact H5|lia].
Qed.

Lemma abort_flag_at (w : World) a :
  w_abort_at w = Some a -> abort_flag w = (a <=? w_clock w)%nat.
Proof. intros Ha. unfold abort_flag. rewrite Ha. reflexivity. Qed.

Lemma send_cf_loop_flag_set (fuel : nat) tx seg (w : World) tx' w' :
  abort_flag w = true ->
  send_cf_loop comm_sendFrame fuel tx seg w = Some (tx', w') ->
  w' = w /\ (tx' = setState tx WAIT_FOR_RESPONSE \/ tx' = fail tx VCI_UDS_RESULT_ABORTED).
Proof.
  intros Hf H. destruct fuel as [|fuel]; [discriminate|].
  cbn [send_cf_loop] in H. destruct (Segmenter_isDone seg).
  - unfold ret in H. injection H as <- <-. auto.
  - unfold bind, load_abort_flag, ret in H. rewrite Hf in H. injection H as <- <-. auto.
Qed.

Lemma send_cf_loop_abort_window (fuel : nat) : forall tx seg (w : World) a tx' w',
  w_abort_at w = Some a -> (w_clock w <= a)%nat -> quiet_after (response_id (m_context tx)) a w ->
  send_cf_loop comm_sendFrame fuel tx seg w = Some (tx', w') ->
  abort_post a tx w tx' w'.
Proof.
  induction fuel as [|fuel IH]; intros tx seg w a tx' w' Ha Hc Hq H; [discriminate|].
  cbn [send_cf_loop] in H.
  destruct (Segmenter_isDone seg).
  { unfold ret in H. injection H as <- <-.
    unfold abort_post. repeat split; auto. exists []. rewrite app_nil_r. split; [reflexivity|].
    split; [left; reflexivity|].
    destruct (Nat.lt_ge_cases (w_clock w) a); [left; lia|right; right; split; [lia|left; reflexivity]]. }
  unfold bind at 1, load_abort_flag in H. rewrite (abort_flag_at w a Ha) in H.
  destruct (a <=? w_clock w)%nat eqn:Eab.
  { unfold ret in H. injection H as <- <-. apply Nat.leb_le in Eab.
    apply abort_post_aborted; auto; lia. }
  apply Nat.leb_gt in Eab.
  destruct ((0 <? m_fc_block_size_from_ecu tx)
            && (m_fc_block_size_from_ecu tx <=? m_fc_frames_sent_in_block tx)).
  { unfold ret in H. injection H as <- <-.
    apply (abort_post_early a tx w _ w []); auto; try lia. rewrite app_nil_r. reflexivity. }
  unfold bind at 1 in H.
  destruct ((if 0 <? m_fc_separation_time_from_ecu tx then _ else ret true) w)
    as [[paced w1]|] eqn:Ep; [|discriminate].
  assert (Hw1 : w_bus w1 = w_bus w /\ w_sent w1 = w_sent w /\ w_abort_at w1 = w_abort_at w /\
                (w_clock w <= w_clock w1 <= a)%nat /\ (paced = false -> w_clock w1 = a)).
  { destruct (0 <? m_fc_separation_time_from_ecu tx).
    - unfold bind, getTickCount in Ep. apply (pace_loop_abort_window _ _ _ _ a) in Ep; auto; lia.
    - unfold ret in Ep. injection Ep as <- <-. repeat split; auto; try lia; intros; discriminate. }
  destruct Hw1 as [Hb1 [Hs1 [Ha1 [Hk1 Hp1]]]].
  assert (Hq1 : quiet_after (response_id (m_context tx)) a w1)
    by (unfold quiet_after; rewrite Hb1; exact Hq).
  destruct paced; simpl in H.
  2: { unfold ret in H. injection H as <- <-. specialize (Hp1 eq_refl).
       apply abort_post_aborted; auto; lia. }
  destruct (Segmenter_getNextFrame seg) as [tp_frame seg'] eqn:Eg.
  cbv beta iota zeta in H.
  unfold bind at 1 in H. rewrite sendFrame_comm in H.
  set (fr := build _ _ _ _ _) in H.
  set (w2 := set_sent w1 _) in H.
  assert (Hs2 : w_sent w2 = w_sent w ++ [(w_clock w1, fr)]) by (subst w2; simpl; rewrite Hs1; reflexivity).
  assert (Hq2 : quiet_after (response_id (m_context tx)) a w2) by (apply quiet_set_sent; exact Hq1).
  destruct (w_send_ok w1 (length (w_sent w1))); simpl in H.
  - destruct (Nat.lt_ge_cases (w_clock w1) a) as [Hlt|Hge].
    + eapply abort_post_trans; [| |eapply IH; [| | |exact H]].
      * apply (abort_post_early a tx w _ w2 [(w_clock w1, fr)]); auto;
          simpl; try congruence; try lia; repeat constructor; simpl; lia.
      * simpl. exact Hlt.
      * simpl. congruence.
      * simpl. lia.
      * exact Hq2.
    + apply send_cf_loop_flag_set in H;
        [|rewrite (abort_flag_at w2 a) by (simpl; congruence); apply Nat.leb_le; simpl; lia].
      destruct H as [-> Htx].
      unfold abort_post. repeat split;
        try (destruct Htx as [-> | ->]; reflexivity); try (simpl; congruence); try exact Hq2;
        try (simpl; lia).
      exists [(w_clock w1, fr)]. split; [exact Hs2|].
      assert (E : w_clock w1 = a) by lia.
      split.
      * right. exists fr. split; [|simpl; exact E].
        unfold sent_from. simpl. rewrite E, Nat.leb_refl. reflexivity.
      * right. destruct Htx as [-> | ->].
        -- right. split; [simpl; exact E|left; reflexivity].
        -- left. repeat split; simpl; lia.
  - unfold ret in H. injection H as <- <-.
    unfold abort_post. repeat split; try reflexivity; try (simpl; congruence); try exact Hq2;
      try (simpl; lia).
    exists [(w_clock w1, fr)]. split; [exact Hs2|].
    destruct (Nat.lt_ge_cases (w_clock w1) a) as [Hlt|Hge].
    + split; [left; unfold sent_from; simpl;
              replace (a <=? w_clock w1)%nat with false by (symmetry; apply Nat.leb_gt; lia);
              reflexivity|].
      left. simpl. exact Hlt.
    + assert (E : w_clock w1 = a) by lia.
      split.
      * right. exists fr. split; [|simpl; exact E].
        unfold sent_from. simpl. rewrite E, Nat.leb_refl. reflexivity.
      * right. right. split; [simpl; exact E|right; split; reflexivity].
Qed.

Ltac early_leaf ls :=
  eapply (abort_post_early _ _ _ _ _ ls);
  [ reflexivity | simpl; congruence | first [assumption | apply quiet_set_sent; assumption]
  | simpl; lia
  | first [rewrite app_nil_r; congruence | simpl; congruence]
  | repeat constructor; simpl; lia ].

Lemma handle_wait_for_fc_abort_window (fuel : nat) tx (w : World) a tx' w' :
  w_abort_at w = Some a -> (w_clock w < a)%nat -> quiet_after (response_id (m_context tx)) a w ->
  handle_wait_for_fc comm_receiveFrame fuel tx w = Some (tx', w') ->
  abort_post a tx w tx' w'.
Proof.
  intros Ha Hc Hq H. unfold handle_wait_for_fc, bind at 1 in H.
  destruct (waitForFrame comm_receiveFrame fuel tx (n_bs_timeout (tpc tx)) w)
    as [[o w1]|] eqn:E; [|discriminate].
  apply (waitForFrame_abort_window _ _ _ _ a) in E; auto.
  destruct E as [Ha1 [Hq1 [Hs1 [Hk1 Ho]]]].
  destruct o as [cf|].
  - destruct (parse (Data cf)) as [[| | |s bs st]|]; try destruct s;
      unfold ret in H; injection H as <- <-; early_leaf (@nil (nat * FkVciCanDataType)).
  - unfold bind, load_abort_flag, ret in H. rewrite (abort_flag_at w1 a Ha1) in H.
    destruct (a <=? w_clock w1)%nat eqn:Eab; injection H as <- <-.
    + apply Nat.leb_le in Eab. apply abort_post_aborted; auto; try congruence; lia.
    + apply Nat.leb_gt in Eab. early_leaf (@nil (nat * FkVciCanDataType)).
Qed.

Lemma wait_response_loop_abort_window (fuel : nat) : forall timeout tx (w : World) a tx' w',
  w_abort_at w = Some a -> (w_clock w < a)%nat -> quiet_after (response_id (m_context tx)) a w ->
  wait_response_loop comm_sendFrame comm_receiveFrame fuel timeout tx w = Some (tx', w') ->
  abort_post a tx w tx' w'.
Proof.
  induction fuel as [|fuel IH]; intros timeout tx w a tx' w' Ha Hc Hq H; [discriminate|].
  cbn [wait_response_loop] in H. unfold bind at 1 in H.
  destruct (waitForFrame comm_receiveFrame fuel tx timeout w) as [[o w1]|] eqn:E; [|discriminate].
  apply (waitForFrame_abort_window _ _ _ _ a) in E; auto.
  destruct E as [Ha1 [Hq1 [Hs1 [Hk1 Ho]]]].
  destruct o as [cf|].
  - assert (Hstep : forall tx2, m_context tx2 = m_context tx ->
              abort_post a tx w tx2 w1).
    { intros tx2 Hx. eapply (abort_post_early _ _ _ _ _ []);
        [exact Hx|congruence|exact Hq1|lia|rewrite app_nil_r; exact Hs1|constructor]. }
    destruct (parse (Data cf)) as [[p| total prefix | sn data | s bs st]|].
    + destruct (is_nrc78 p).
      * destruct (max_nrc78_count _ <=? _)%nat.
        -- unfold ret in H. injection H as <- <-. early_leaf (@nil (nat * FkVciCanDataType)).
        -- apply (abort_post_trans a tx w (set_nrc78_count tx (S (m_nrc78_count tx))) w1);
             [apply Hstep; reflexivity|exact Ho|].
           eapply IH; [congruence|exact Ho|exact Hq1|exact H].
      * unfold ret in H. injection H as <- <-. 
        destruct (is_negative p); early_leaf (@nil (nat * FkVciCanDataType)).
    + destruct (Reassembler_processFrame _ _) as [status ra].
      destruct status;
        [ | unfold bind at 1 in H; rewrite sendFrame_comm in H;
            set (fr := build _ _ _ _ _) in H;
            unfold ret in H; injection H as <- <-;
            destruct (w_send_ok w1 _); early_leaf [(w_clock w1, fr)] | | | ];
        unfold ret in H; injection H as <- <-; early_leaf (@nil (nat * FkVciCanDataType)).
    + eapply abort_post_trans; [apply (Hstep tx); reflexivity|exact Ho|].
      eapply IH; [congruence|exact Ho|exact Hq1|exact H].
    + eapply abort_post_trans; [apply (Hstep tx); reflexivity|exact Ho|].
      eapply IH; [congruence|exact Ho|exact Hq1|exact H].
    + eapply abort_post_trans; [apply (Hstep tx); reflexivity|exact Ho|].
      eapply IH; [congruence|exact Ho|exact Hq1|exact H].
  - unfold bind, load_abort_flag, ret in H. rewrite (abort_flag_at w1 a Ha1) in H.
    destruct (a <=? w_clock w1)%nat eqn:Eab; injection H as <- <-.
    + apply Nat.leb_le in Eab. apply abort_post_aborted; auto; try congruence; lia.
    + apply Nat.leb_gt in Eab. 
      destruct (0 <? m_nrc78_count tx)%nat; early_leaf (@nil (nat * FkVciCanDataType)).
Qed.

Lemma receive_cf_loop_abort_window (fuel : nat) : forall tx (w : World) a tx' w',
  w_abort_at w = Some a -> (w_clock w < a)%nat -> quiet_after (response_id (m_context tx)) a w ->
  receive_cf_loop comm_receiveFrame fuel tx w = Some (tx', w') ->
  abort_post a tx w tx' w'.
Proof.
  induction fuel as [|fuel IH]; intros tx w a tx' w' Ha Hc Hq H; [discriminate|].
  cbn [receive_cf_loop] in H.
  destruct (ra_status (m_reassembler tx)) eqn:Era.
  1, 3, 4, 5:
    unfold ret in H; injection H as <- <-;
    repeat match goal with |- context [if ?b then _ else _] => destruct b end;
    early_leaf (@nil (nat * FkVciCanDataType)).
  unfold bind at 1 in H.
  destruct (waitForFrame comm_receiveFrame fuel tx (n_cr_timeout (tpc tx)) w)
    as [[o w1]|] eqn:E; [|discriminate].
  apply (waitForFrame_abort_window _ _ _ _ a) in E; auto.
  destruct E as [Ha1 [Hq1 [Hs1 [Hk1 Ho]]]].
  destruct o as [cf|].
  - assert (Hstep : forall tx2, m_context tx2 = m_context tx -> abort_post a tx w tx2 w1).
    { intros tx2 Hx. eapply (abort_post_early _ _ _ _ _ []);
        [exact Hx|congruence|exact Hq1|lia|rewrite app_nil_r; exact Hs1|constructor]. }
    destruct (parse (Data cf)) as [f|].
    + destruct (Reassembler_processFrame (m_reassembler tx) f) as [status ra].
      destruct status;
        [ | | | unfold ret in H; injection H as <- <-; early_leaf (@nil (nat * FkVciCanDataType))
        | unfold ret in H; injection H as <- <-; early_leaf (@nil (nat * FkVciCanDataType)) ];
        (apply (abort_post_trans a tx w (set_reassembler tx ra) w1);
           [apply Hstep; reflexivity|exact Ho|];
         eapply IH; [congruence|exact Ho|exact Hq1|exact H]).
    + apply (abort_post_trans a tx w tx w1); [apply Hstep; reflexivity|exact Ho|].
      eapply IH; [congruence|exact Ho|exact Hq1|exact H].
  - unfold bind, load_abort_flag, ret in H. rewrite (abort_flag_at w1 a Ha1) in H.
    destruct (a <=? w_clock w1)%nat eqn:Eab; injection H as <- <-.
    + apply Nat.leb_le in Eab. apply abort_post_aborted; auto; try congruence; lia.
    + apply Nat.leb_gt in Eab. early_leaf (@nil (nat * FkVciCanDataType)).
Qed.

Lemma run_state_machine_abort_window (fuel : nat) tx (w : World) a tx' w' :
  w_abort_at w = Some a -> (w_clock w < a)%nat -> quiet_after (response_id (m_context tx)) a w ->
  run_state_machine comm_sendFrame comm_receiveFrame fuel tx w = Some (tx', w') ->
  abort_post a tx w tx' w'.
Proof.
  intros Ha Hc Hq H. unfold run_state_machine in H.
  destruct (m_state tx).
  - unfold ret in H. injection H as <- <-. unfold handle_start.
    repeat match goal with |- context [if ?b then _ else _] => destruct b end;
    early_leaf (@nil (nat * FkVciCanDataType)).
  - unfold handle_send_single_frame, bind in H. rewrite sendFrame_comm in H.
    set (fr := build _ _ _ _ _) in H. unfold ret in H. injection H as <- <-.
    destruct (w_send_ok w _); early_leaf [(w_clock w, fr)].
  - unfold handle_send_first_frame in H. destruct (m_segmenter tx) as [seg|].
    + destruct (Segmenter_getNextFrame seg) as [tp_frame seg'].
      cbv beta iota zeta in H. unfold bind in H. rewrite sendFrame_comm in H.
      set (fr := build _ _ _ _ _) in H. unfold ret in H. injection H as <- <-.
      destruct (w_send_ok w _); early_leaf [(w_clock w, fr)].
    + unfold ret in H. injection H as <- <-. early_leaf (@nil (nat * FkVciCanDataType)).
  - eapply handle_wait_for_fc_abort_window; eauto.
  - unfold handle_send_consecutive_frames in H. destruct (m_segmenter tx) as [seg|].
    + eapply send_cf_loop_abort_window; eauto. lia.
    + unfold ret in H. injection H as <- <-. early_leaf (@nil (nat * FkVciCanDataType)).
  - eapply wait_response_loop_abort_window; eauto.
  - eapply receive_cf_loop_abort_window; eauto.
  - unfold ret in H. injection H as <- <-. early_leaf (@nil (nat * FkVciCanDataType)).
  - unfold ret in H. injection H as <- <-. early_leaf (@nil (nat * FkVciCanDataType)).
Qed.

Lemma execute_loop_abort_window (fuel : nat) : forall tx (w : World) a tx' w',
  w_abort_at w = Some a -> (w_clock w <= a)%nat ->
  (is_terminal (m_state tx) = false \/ (w_clock w < a)%nat) ->
  quiet_after (response_id (m_context tx)) a w ->
  execute_loop comm_sendFrame comm_receiveFrame fuel tx w = Some (tx', w') ->
  exists l, w_sent w' = w_sent w ++ l /\
    (sent_from a l = [] \/ exists f, sent_from a l = [(a, f)] /\ w_clock w' = a) /\
    ((w_clock w' < a)%nat \/
     (result_code (m_result tx') = VCI_UDS_RESULT_ABORTED /\ (w_clock w' <= a + 10)%nat) \/
     (result_code (m_result tx') = VCI_UDS_RESULT_SEND_FAILED /\ w_clock w' = a)).
Proof.
  induction fuel as [|fuel IH]; intros tx w a tx' w' Ha Hc Ht Hq H; [discriminate|].
  cbn [execute_loop] in H.
  destruct (is_terminal (m_state tx)) eqn:Et.
  { unfold ret in H. injection H as <- <-. destruct Ht as [Ht|Ht]; [discriminate|].
    exists []. rewrite app_nil_r. split; [reflexivity|]. split; [left; reflexivity|].
    left. exact Ht. }
  unfold bind at 1, load_abort_flag in H. rewrite (abort_flag_at w a Ha) in H.
  destruct (a <=? w_clock w)%nat eqn:Eab.
  { unfold ret in H. injection H as <- <-. apply Nat.leb_le in Eab.
    exists []. rewrite app_nil_r. split; [reflexivity|]. split; [left; reflexivity|].
    right. left. split; [reflexivity|lia]. }
  apply Nat.leb_gt in Eab. unfold bind in H.
  destruct (run_state_machine comm_sendFrame comm_receiveFrame fuel tx w)
    as [[tx1 w1]|] eqn:E; [|discriminate].
  apply (run_state_machine_abort_window _ _ _ a) in E; auto.
  pose proof E as E'.
  destruct E as [Hx1 [Ha1 [Hq1 [Hk1 [l1 [Hs1 [Hl1 Hr1]]]]]]].
  destruct Hr1 as [Hlt|[[Hst [Hrc Hle]]|[Heq [Hnt|[Hst Hrc]]]]].
  - rewrite <- Hx1 in Hq1.
    destruct (IH tx1 w1 a tx' w') as [l2 [Hs2 [Hl2 Hr2]]]; auto; try congruence; try lia.
    assert (E1 : sent_from a l1 = []) by (destruct Hl1 as [E1|[f [_ E1]]]; [exact E1|lia]).
    exists (l1 ++ l2). split; [rewrite Hs2, Hs1, app_assoc; reflexivity|].
    split; [|exact Hr2]. unfold sent_from in *. rewrite filter_app, E1. exact Hl2.
  - destruct fuel as [|fuel]; [discriminate|].
    cbn [execute_loop] in H. rewrite Hst in H. unfold ret in H. injection H as <- <-.
    exists l1. split; [exact Hs1|]. split.
    + destruct Hl1 as [E1|[f [E1 E2]]]; [left; exact E1|right; exists f; auto].
    + right. left. auto.
  - destruct fuel as [|fuel]; [discriminate|].
    cbn [execute_loop] in H. rewrite Hnt in H.
    unfold bind, load_abort_flag, ret in H. rewrite (abort_flag_at w1 a) in H by congruence.
    rewrite Heq, Nat.leb_refl in H. injection H as <- <-.
    exists l1. split; [exact Hs1|]. split.
    + destruct Hl1 as [E1|[f [E1 E2]]]; [left; exact E1|right; exists f; auto].
    + right. left. split; [reflexivity|lia].
  - destruct fuel as [|fuel]; [discriminate|].
    cbn [execute_loop] in H. rewrite Hst in H. unfold ret in H. injection H as <- <-.
    exists l1. split; [exact Hs1|]. split.
    + destruct Hl1 as [E1|[f [E1 E2]]]; [left; exact E1|right; exists f; auto].
    + right. right. auto.
Qed.

(** C8 (corrected): [stopExecution()] sets the abort flag at tick [a]
    during [execute()], and no frame on the response identifier arrives
    between [a] and [a + 10].  Whatever state the run is in at [a] (any
    frame wait, with the [n_as], [n_bs], [n_ar] or [n_cr] timeout, or the
    separation-time pacing before any consecutive frame), at most one frame
    is sent from [a] on, at tick [a], and [execute()] has finished before
    [a], or returns [Aborted] by [a + 10], or returns [SendFailed] at [a]
    (the consecutive frame whose pacing ended at [a] failed to send). *)
Theorem abort_observed_at_poll_points (fuel : nat) (tx : Transaction) (w : World) (a : nat)
    (r : TransactionResult) (w' : World)
    (Ha : w_abort_at w = Some a) (Hc : (w_clock w <= a)%nat)
    (Hq : quiet_after (response_id (m_context tx)) a w)
    (H : execute comm_sendFrame comm_receiveFrame fuel tx w = Some (r, w')) :
  exists l, w_sent w' = w_sent w ++ l /\
    (sent_from a l = [] \/ exists f, sent_from a l = [(a, f)] /\ w_clock w' = a) /\
    ((w_clock w' < a)%nat \/
     (result_code r = VCI_UDS_RESULT_ABORTED /\ (w_clock w' <= a + 10)%nat) \/
     (result_code r = VCI_UDS_RESULT_SEND_FAILED /\ w_clock w' = a)).
Proof.
  unfold execute, bind in H.
  destruct (execute_loop comm_sendFrame comm_receiveFrame fuel (setState tx START) w)
    as [[tx' w1]|] eqn:E; [|discriminate].
  unfold ret in H. injection H as <- <-.
  exact (execute_loop_abort_window fuel (setState tx START) w a tx' w1 Ha Hc
           (or_introl eq_refl) Hq E).
Qed.

(** ** Transaction mutex *)

Module TxLockFacts.
Import TxLock.
Local Open Scope nat_scope.

Lemma Tid_eq_dec (a b : Tid) : {a = b} + {a <> b}.
Proof. decide equality; apply Nat.eq_dec. Qed.

Lemma contiguous_snoc {A} (s : list A) x :
  contiguous s ->
  (In x s -> nth_error s (length s - 1) = Some x) ->
  contiguous (s ++ [x]).
Proof.
  intros Hc Hl p q r y Hpqr Hp Hr.
  assert (Hlen : (r <= length s)%nat).
  { destruct (Nat.le_gt_cases r (length s)) as [?|Hgt]; [assumption|].
    assert (E : nth_error (s ++ [x]) r = None)
      by (apply nth_error_None; rewrite length_app; simpl; lia).
    congruence. }
  rewrite nth_error_app1 in Hp by lia.
  rewrite nth_error_app1 by lia.
  destruct (Nat.eq_dec r (length s)) as [->|Hne].
  - rewrite nth_error_app2, Nat.sub_diag in Hr by lia. simpl in Hr. injection Hr as <-.
    assert (Hlast : nth_error s (length s - 1) = Some x)
      by (apply Hl; eapply nth_error_In; exact Hp).
    destruct (Nat.eq_dec q (length s - 1)) as [->|Hq]; [exact Hlast|].
    apply (Hc p q (length s - 1)); [lia|exact Hp|exact Hlast].
  - rewrite nth_error_app1 in Hr by lia.
    apply (Hc p q r); [lia|exact Hp|exact Hr].
Qed.

Lemma nth_error_snoc_last {A} (s : list A) x :
  nth_error (s ++ [x]) (length (s ++ [x]) - 1) = Some x.
Proof.
  rewrite length_app; simpl. rewrite Nat.add_sub, nth_error_app2, Nat.sub_diag by lia.
  reflexivity.
Qed.

Lemma lock_part c c' t0 :
  (forall t, c_lock c = Some t <-> in_section t c = true) ->
  (forall t, t <> t0 -> phase t c' = phase t c) ->
  (c_lock c' = c_lock c /\ in_section t0 c' = in_section t0 c) \/
  (c_lock c = None /\ c_lock c' = Some t0 /\ in_section t0 c' = true) \/
  (in_section t0 c = true /\ c_lock c' = None /\ in_section t0 c' = false) ->
  forall t, c_lock c' = Some t <-> in_section t c' = true.
Proof.
  intros HL Hph Hcase t.
  destruct (Tid_eq_dec t t0) as [->|Hne].
  - destruct Hcase as [[E1 E2]|[[E0 [E1 E2]]|[E0 [E1 E2]]]].
    + rewrite E1, E2. apply HL.
    + rewrite E1, E2. tauto.
    + rewrite E1, E2. split; discriminate.
  - assert (Hs : in_section t c' = in_section t c) by (unfold in_section; rewrite Hph; auto).
    rewrite Hs.
    destruct Hcase as [[E1 E2]|[[E0 [E1 E2]]|[E0 [E1 E2]]]].
    + rewrite E1. apply HL.
    + rewrite E1. split; [congruence|]. intros H; apply HL in H; congruence.
    + rewrite E1. split; [discriminate|]. intros H; apply HL in H.
      apply HL in E0. congruence.
Qed.

Lemma lock_inv_frame c c' t0 :
  lock_inv c ->
  (forall t, t <> t0 -> phase t c' = phase t c) ->
  (phase t0 c <= phase t0 c')%nat ->
  (c_lock c' = c_lock c /\ in_section t0 c' = in_section t0 c) \/
  (c_lock c = None /\ c_lock c' = Some t0 /\ in_section t0 c' = true) \/
  (in_section t0 c = true /\ c_lock c' = None /\ in_section t0 c' = false) ->
  (c_sends c' = c_sends c \/
   (c_sends c' = c_sends c ++ [t0] /\ in_section t0 c = true /\ in_section t0 c' = true)) ->
  lock_inv c'.
Proof.
  intros [HL [Hc Hin]] Hph Hmono Hcase Hsend.
  pose proof (lock_part c c' t0 HL Hph Hcase) as HL'.
  assert (Hmono' : forall t, (phase t c <= phase t c')%nat).
  { intros t. destruct (Tid_eq_dec t t0) as [->|Hne]; [exact Hmono|rewrite Hph; auto]. }
  split; [exact HL'|].
  destruct Hsend as [Es|[Es [Hs0 Hs0']]].
  - rewrite Es. split; [exact Hc|].
    intros t Ht. destruct (Hin t Ht) as [H1 H2]. split; [specialize (Hmono' t); lia|].
    intros Hst. apply H2.
    destruct (Tid_eq_dec t t0) as [->|Hne].
    + unfold in_section in *. apply Nat.eqb_eq in Hst. apply Nat.eqb_eq. lia.
    + unfold in_section in *. rewrite Hph in Hst by exact Hne. exact Hst.
  - rewrite Es. split.
    + apply contiguous_snoc; [exact Hc|]. intros Ht. apply (Hin t0 Ht). exact Hs0.
    + intros t Ht. split.
      * apply in_app_or in Ht. destruct Ht as [Ht|[<-|[]]].
        -- destruct (Hin t Ht) as [H1 _]. specialize (Hmono' t); lia.
        -- unfold in_section in Hs0'. apply Nat.eqb_eq in Hs0'. lia.
      * intros Hst. assert (t = t0) as ->.
        { apply HL' in Hst. apply HL' in Hs0'. congruence. }
        apply nth_error_snoc_last.
Qed.

Lemma phase_set_tx c i p l tr r s t :
  t <> TTx i -> phase t (set_tx c i p l tr r s) = phase t c.
Proof.
  intros H. destruct t as [k|]; simpl; [|reflexivity].
  destruct (Nat.eqb_spec k i); [subst; congruence|reflexivity].
Qed.

Lemma phase_set_tx_self c i p l tr r s : phase (TTx i) (set_tx c i p l tr r s) = tx_phase p.
Proof. simpl. rewrite Nat.eqb_refl. reflexivity. Qed.

Lemma phase_set_ka c p l s t : t <> TKeepAlive -> phase t (set_ka c p l s) = phase t c.
Proof. intros H. destruct t; [reflexivity|congruence]. Qed.

Lemma phase_set_ka_self c p l s : phase TKeepAlive (set_ka c p l s) = ka_phase p.
Proof. reflexivity. Qed.

Lemma lock_inv_faulted c : lock_inv c -> lock_inv (faulted c).
Proof.
  intros Hinv. apply (lock_inv_frame c (faulted c) TKeepAlive Hinv).
  - intros t _. destruct t; reflexivity.
  - simpl; lia.
  - left; split; reflexivity.
  - left; reflexivity.
Qed.

Lemma lock_inv_step nf due t c c' :
  lock_inv c -> step nf due t c = Some c' -> lock_inv c'.
Proof.
  intros Hinv Hs. pose proof Hinv as [HL _].
  unfold step in Hs. destruct (c_fault c); [discriminate|].
  destruct t as [i|].
  - assert (Hin : forall p, in_section (TTx i) c = true -> c_tx c i = p -> tx_phase p = 1%nat).
    { intros p H <-. unfold in_section in H. apply Nat.eqb_eq in H. exact H. }
    destruct (c_tx c i) as [| | |j [|n]| |] eqn:Ep.
    + destruct (destroys_running c); injection Hs as <-; [apply lock_inv_faulted; exact Hinv|].
      apply (lock_inv_frame c _ (TTx i) Hinv); [intros; apply phase_set_tx; auto| | |].
      * rewrite phase_set_tx_self; simpl; rewrite Ep; simpl; lia.
      * left; split; [reflexivity|]. unfold in_section. rewrite phase_set_tx_self. simpl. rewrite Ep. reflexivity.
      * left; reflexivity.
    + destruct (c_lock c) as [o|] eqn:El; [discriminate|]. injection Hs as <-.
      apply (lock_inv_frame c _ (TTx i) Hinv); [intros; apply phase_set_tx; auto| | |].
      * rewrite phase_set_tx_self; simpl; rewrite Ep; simpl; lia.
      * right; left. split; [exact El|]. split; [reflexivity|].
        unfold in_section. rewrite phase_set_tx_self. reflexivity.
      * left; reflexivity.
    + destruct (c_transaction c) as [j|]; injection Hs as <-; [|apply lock_inv_faulted; exact Hinv].
      apply (lock_inv_frame c _ (TTx i) Hinv); [intros; apply phase_set_tx; auto| | |].
      * rewrite phase_set_tx_self; simpl; rewrite Ep; simpl; lia.
      * left; split; [reflexivity|]. unfold in_section. rewrite phase_set_tx_self. simpl. rewrite Ep. reflexivity.
      * left; reflexivity.
    + injection Hs as <-.
      apply (lock_inv_frame c _ (TTx i) Hinv); [intros; apply phase_set_tx; auto| | |].
      * rewrite phase_set_tx_self; simpl; rewrite Ep; simpl; lia.
      * right; right. split; [unfold in_section; simpl; rewrite Ep; reflexivity|].
        split; [reflexivity|]. unfold in_section. rewrite phase_set_tx_self. reflexivity.
      * left; reflexivity.
    + injection Hs as <-.
      apply (lock_inv_frame c _ (TTx i) Hinv); [intros; apply phase_set_tx; auto| | |].
      * rewrite phase_set_tx_self; simpl; rewrite Ep; simpl; lia.
      * left; split; [reflexivity|]. unfold in_section. rewrite phase_set_tx_self. simpl. rewrite Ep. reflexivity.
      * right. split; [reflexivity|].
        split; unfold in_section; [simpl; rewrite Ep; reflexivity|rewrite phase_set_tx_self; reflexivity].
    + destruct (destroys_running c); injection Hs as <-; [apply lock_inv_faulted; exact Hinv|].
      apply (lock_inv_frame c _ (TTx i) Hinv); [intros; apply phase_set_tx; auto| | |].
      * rewrite phase_set_tx_self; simpl; rewrite Ep; simpl; lia.
      * left; split; [reflexivity|]. unfold in_section. rewrite phase_set_tx_self. simpl. rewrite Ep. reflexivity.
      * left; reflexivity.
    + discriminate.
  - destruct (c_ka c) eqn:Ek.
    + destruct (c_lock c) as [o|] eqn:El; [discriminate|]. injection Hs as <-.
      apply (lock_inv_frame c _ TKeepAlive Hinv); [intros; apply phase_set_ka; auto| | |].
      * simpl; rewrite Ek; simpl; lia.
      * right; left. split; [exact El|]. split; reflexivity.
      * left; reflexivity.
    + injection Hs as <-.
      apply (lock_inv_frame c _ TKeepAlive Hinv); [intros; apply phase_set_ka; auto| | |].
      * simpl; rewrite Ek; simpl; lia.
      * left; split; [reflexivity|]. unfold in_section; simpl; rewrite Ek; reflexivity.
      * destruct due; [right|left; reflexivity].
        split; [reflexivity|]. unfold in_section; simpl; rewrite Ek; split; reflexivity.
    + injection Hs as <-.
      apply (lock_inv_frame c _ TKeepAlive Hinv); [intros; apply phase_set_ka; auto| | |].
      * simpl; rewrite Ek; simpl; lia.
      * right; right. unfold in_section; simpl; rewrite Ek. split; [reflexivity|]. split; reflexivity.
      * left; reflexivity.
    + discriminate.
Qed.

Lemma lock_inv_init : lock_inv init.
Proof.
  split; [|split].
  - intros t. destruct t; simpl; split; discriminate.
  - intros p q r x _ Hp. destruct p; discriminate.
  - intros t [].
Qed.

Lemma lock_inv_run nf due sched c :
  lock_inv c -> lock_inv (run nf due sched c).
Proof.
  revert c. induction sched as [|t ts IH]; intros c Hc; simpl; [exact Hc|].
  apply IH. destruct (step nf due t c) eqn:E; [|exact Hc].
  exact (lock_inv_step nf due t c c0 Hc E).
Qed.

(** C9: for every schedule of any number of [executeTransaction] callers
    (each creating its object, taking [m_transaction_mutex], calling
    [execute()] on the object [m_transaction] holds then, and resetting the
    pointer after the lock) and one due keep-alive round, at most one thread
    is inside the [m_transaction_mutex] section at any time, and the frames
    sent form one unbroken block per thread: between two frames of one thread
    no other thread sends.  A run that reaches undefined behaviour (a null
    [m_transaction], or an object destroyed while another thread executes
    it) is considered up to that point. *)
Theorem sends_not_interleaved nframes still_due sched :
  (forall t u, in_section t (run nframes still_due sched init) = true ->
     in_section u (run nframes still_due sched init) = true -> t = u) /\
  contiguous (c_sends (run nframes still_due sched init)).
Proof.
  destruct (lock_inv_run nframes still_due sched init lock_inv_init) as [HL [Hc _]].
  split; [|exact Hc].
  intros t u Ht Hu. apply HL in Ht. apply HL in Hu. congruence.
Qed.

Lemma run_sched_app nf due s1 s2 c :
  run nf due (s1 ++ s2) c = run nf due s2 (run nf due s1 c).
Proof. revert c. induction s1 as [|t ts IH]; intros c; simpl; [reflexivity|apply IH]. Qed.

Lemma run_executing nf due i j n c :
  c_fault c = false -> c_tx c i = T_Executing j n ->
  let c' := run nf due (repeat (TTx i) n) c in
  c_fault c' = false /\ c_tx c' i = T_Executing j 0 /\
  (forall k, k <> i -> c_tx c' k = c_tx c k) /\
  c_lock c' = c_lock c /\ c_transaction c' = c_transaction c /\ c_running c' = c_running c /\
  c_sends c' = c_sends c ++ repeat (TTx i) n.
Proof.
  revert c. induction n as [|n IH]; intros c Hf Ht; simpl.
  - rewrite app_nil_r. repeat split; auto.
  - assert (Hs : step nf due (TTx i) c =
      Some (set_tx c i (T_Executing j n) (c_lock c) (c_transaction c) (c_running c)
              (c_sends c ++ [TTx i]))) by (unfold step; rewrite Hf, Ht; reflexivity).
    rewrite Hs.
    destruct (IH (set_tx c i (T_Executing j n) (c_lock c) (c_transaction c) (c_running c)
                    (c_sends c ++ [TTx i])))
      as [F [T [O [L [Tr [R S]]]]]]; [reflexivity|simpl; rewrite Nat.eqb_refl; reflexivity|].
    split; [exact F|]. split; [exact T|].
    split; [intros k Hk; rewrite O by exact Hk; simpl; apply Nat.eqb_neq in Hk; rewrite Hk; reflexivity|].
    split; [exact L|]. split; [exact Tr|]. split; [exact R|].
    rewrite S. simpl. rewrite <- app_assoc. reflexivity.
Qed.

Lemma run_cons_step nf due t ts c c' :
  step nf due t c = Some c' -> run nf due (t :: ts) c = run nf due ts c'.
Proof. intros H. simpl. rewrite H. reflexivity. Qed.

Lemma c_tx_set_tx_self c i p l tr r s : c_tx (set_tx c i p l tr r s) i = p.
Proof. simpl. rewrite Nat.eqb_refl. reflexivity. Qed.

Lemma c_tx_set_tx_other c i p l tr r s k :
  k <> i -> c_tx (set_tx c i p l tr r s) k = c_tx c k.
Proof. intros H. simpl. apply Nat.eqb_neq in H. rewrite H. reflexivity. Qed.

(** X16: [m_transaction] is assigned before [m_transaction_mutex] is
    taken.  When caller [j] assigns it between the assignment of caller [i]
    and the [execute()] call of [i], caller [i] executes the transaction [j]
    created (its [nframes j] frames), releases the lock and resets the
    pointer; [j] then takes the lock and calls [execute()] through a null
    [m_transaction]. *)
Theorem executeTransaction_pointer_race nframes still_due i j (Hij : i <> j) :
  let c := run nframes still_due [TTx i; TTx j; TTx i; TTx i] init in
  c_tx c i = T_Executing j (nframes j) /\
  let c' := run nframes still_due (repeat (TTx i) (nframes j) ++ [TTx i; TTx i]) c in
  c_sends c' = repeat (TTx i) (nframes j) /\ c_tx c' i = T_Done /\ c_tx c' j = T_Created /\
  c_fault c' = false /\
  c_fault (run nframes still_due [TTx j; TTx j] c') = true.
Proof.
  set (c1 := set_tx init i T_Created None (Some i) None []).
  set (c2 := set_tx c1 j T_Created None (Some j) None []).
  set (c3 := set_tx c2 i T_Locked (Some (TTx i)) (Some j) None []).
  set (c4 := set_tx c3 i (T_Executing j (nframes j)) (Some (TTx i)) (Some j) (Some j) []).
  assert (S1 : step nframes still_due (TTx i) init = Some c1) by reflexivity.
  assert (S2 : step nframes still_due (TTx j) c1 = Some c2).
  { unfold step. change (c_fault c1) with false. cbv iota. unfold c1 at 1.
    rewrite (c_tx_set_tx_other _ _ _ _ _ _ _ _ (not_eq_sym Hij)). reflexivity. }
  assert (S3 : step nframes still_due (TTx i) c2 = Some c3).
  { unfold step. change (c_fault c2) with false. cbv iota. unfold c2 at 1, c1 at 1.
    rewrite (c_tx_set_tx_other _ _ _ _ _ _ _ _ Hij), c_tx_set_tx_self. reflexivity. }
  assert (S4 : step nframes still_due (TTx i) c3 = Some c4).
  { unfold step. change (c_fault c3) with false. cbv iota. unfold c3 at 1.
    rewrite c_tx_set_tx_self. reflexivity. }
  cbv zeta.
  rewrite (run_cons_step _ _ _ _ _ _ S1), (run_cons_step _ _ _ _ _ _ S2),
    (run_cons_step _ _ _ _ _ _ S3), (run_cons_step _ _ _ _ _ _ S4). simpl run at 1.
  split; [apply c_tx_set_tx_self|].
  assert (Ej : c_tx c4 j = T_Created).
  { unfold c4, c3. rewrite !(c_tx_set_tx_other _ _ _ _ _ _ _ _ (not_eq_sym Hij)).
    apply c_tx_set_tx_self. }
  destruct (run_executing nframes still_due i j (nframes j) c4 eq_refl (c_tx_set_tx_self _ _ _ _ _ _ _))
    as [F [T [O [L [Tr [R S]]]]]].
  rewrite run_sched_app.
  set (c5 := run nframes still_due (repeat (TTx i) (nframes j)) c4) in *.
  set (c6 := set_tx c5 i T_Released None (c_transaction c5) None (c_sends c5)).
  set (c7 := set_tx c6 i T_Done None None None (c_sends c5)).
  assert (S5 : step nframes still_due (TTx i) c5 = Some c6).
  { unfold step. rewrite F, T. reflexivity. }
  assert (S6 : step nframes still_due (TTx i) c6 = Some c7).
  { unfold step. change (c_fault c6) with false. cbv iota. unfold c6 at 1. rewrite c_tx_set_tx_self.
    unfold destroys_running. change (c_running c6) with (@None nat).
    destruct (c_transaction c6); reflexivity. }
  rewrite (run_cons_step _ _ _ _ _ _ S5), (run_cons_step _ _ _ _ _ _ S6). simpl run at 1.
  assert (E7 : c_tx c7 j = T_Created).
  { unfold c7, c6. rewrite !(c_tx_set_tx_other _ _ _ _ _ _ _ _ (not_eq_sym Hij)), O by auto.
    exact Ej. }
  split; [simpl; rewrite S; reflexivity|].
  split; [apply c_tx_set_tx_self|].
  split; [exact E7|].
  split; [reflexivity|].
  set (c8 := set_tx c7 j T_Locked (Some (TTx j)) None None (c_sends c5)).
  assert (S7 : step nframes still_due (TTx j) c7 = Some c8).
  { unfold step. change (c_fault c7) with false. cbv iota. rewrite E7. reflexivity. }
  rewrite (run_cons_step _ _ _ _ _ _ S7).
  simpl run. unfold step. change (c_fault c8) with false. cbv iota.
  unfold c8 at 1. rewrite c_tx_set_tx_self. reflexivity.
Qed.

End TxLockFacts.

(** ** Witnesses *)

Lemma fc_continue_captures_and_clamps_witness :
  exists tx',
    handle_wait_for_fc comm_receiveFrame 1000 Scenario.fc_tx
      (Scenario.world [Scenario.fc_at 40 0 8 20] None)
    = Some (tx', set_bus (set_clock (Scenario.world [Scenario.fc_at 40 0 8 20] None) 40) []) /\
    m_state tx' = SEND_CONSECUTIVE_FRAMES /\
    m_fc_block_size_from_ecu tx' = 8 /\ m_fc_separation_time_from_ecu tx' = 20.
Proof.
  destruct (fc_continue_captures_and_clamps 1000 Scenario.fc_tx
              (Scenario.world [Scenario.fc_at 40 0 8 20] None) 40
              (snd (Scenario.fc_at 40 0 8 20)) [] 8 20
              eq_refl eq_refl eq_refl ltac:(simpl; lia)
              ltac:(intros a Ha; discriminate) ltac:(simpl; lia))
    as [tx' [E [Hs [Hb [_ [Hst _]]]]]].
  exists tx'. repeat split; auto. apply Hst. lia.
Defined.

Lemma wait_for_fc_transitions_witness :
  handle_wait_for_fc comm_receiveFrame 1000 Scenario.fc_tx
    (Scenario.world [Scenario.fc_at 40 1 0 0] None)
  = Some (Scenario.fc_tx, set_bus (set_clock (Scenario.world [Scenario.fc_at 40 1 0 0] None) 40) []) /\
  exists w',
    execute_loop comm_sendFrame comm_receiveFrame 1000 Scenario.fc_tx
      (Scenario.world [Scenario.fc_at 40 1 0 0] None)
    = Some (fail Scenario.fc_tx VCI_UDS_RESULT_TIMEOUT_BS, w') /\ w_clock w' = 140%nat.
Proof.
  pose proof (wait_for_fc_transitions 1000 Scenario.fc_tx
                (Scenario.world [Scenario.fc_at 40 1 0 0] None) eq_refl
                ltac:(simpl; lia)) as H.
  cbv zeta in H. destruct H as [H1 [H2 _]]. split.
  - apply (H1 40%nat (snd (Scenario.fc_at 40 1 0 0)) [] 0 0); auto; simpl; lia.
  - apply (H2 40%nat (snd (Scenario.fc_at 40 1 0 0)) 0 0); auto; simpl; lia.
Defined.

(** ** Further properties of the transaction engine and the service *)

Lemma rc_of_running ctx tx :
  running ctx tx -> m_state tx <> COMPLETED -> result_consistent ctx tx.
Proof.
  intros [Hc [Hs Hr]] Hst. unfold result_consistent. rewrite Hs.
  repeat split; auto; intros H; try discriminate; contradiction.
Qed.

Lemma rc_fail ctx tx c :
  m_context tx = ctx -> c <> VCI_UDS_RESULT_OK -> result_consistent ctx (fail tx c).
Proof.
  intros Hc Hne. unfold result_consistent, fail, setState, set_result, with_fields; simpl.
  repeat split; auto; intros H; try discriminate; contradiction.
Qed.

Lemma rc_complete ctx tx p :
  m_context tx = ctx -> result_consistent ctx (complete tx p).
Proof.
  intros Hc. unfold result_consistent, complete, setState, set_result, with_fields; simpl.
  repeat split; auto.
Qed.

Ltac run_tac :=
  unfold running, setState, set_segmenter, set_frames_sent, set_nrc78_count,
    set_reassembler, set_result, with_fields in *; simpl in *; tauto.

Ltac ctx_tac :=
  unfold running, setState, set_segmenter, set_frames_sent, set_nrc78_count,
    set_reassembler, set_result, fail, with_fields in *; simpl in *; tauto.

Ltac rc_tac :=
  repeat match goal with |- context [if ?b then _ else _] => destruct b end;
  first
    [ apply rc_fail; [ctx_tac|discriminate]
    | apply rc_complete; ctx_tac
    | apply rc_of_running; [run_tac|simpl; first [discriminate|assumption]] ].

Section Triples.

Variable R : World -> World -> Prop.
Hypothesis R_refl : forall w, R w w.
Hypothesis R_trans : forall w1 w2 w3, R w1 w2 -> R w2 w3 -> R w1 w3.
Hypothesis R_tick : forall w ms, R w (set_clock w (w_clock w + ms)%nat).

Lemma triple_ret {A} (Q : A -> Prop) a : Q a -> triple R Q (ret a).
Proof. intros Hq w b w' H. unfold ret in H. injection H as <- <-. auto. Qed.

Lemma triple_bind {A B} (Q1 : A -> Prop) (Q2 : B -> Prop) m k :
  triple R Q1 m -> (forall a, Q1 a -> triple R Q2 (k a)) -> triple R Q2 (bind m k).
Proof.
  intros Hm Hk w b w'' H. unfold bind in H.
  destruct (m w) as [[a w']|] eqn:E; [|discriminate].
  destruct (Hm _ _ _ E) as [H1 H2]. destruct (Hk a H2 _ _ _ H) as [H3 H4]. eauto.
Qed.

Lemma triple_tick : triple R (fun _ => True) getTickCount.
Proof. intros w a w' H. unfold getTickCount in H. injection H as <- <-. auto. Qed.

Lemma triple_abort : triple R (fun _ => True) load_abort_flag.
Proof. intros w a w' H. unfold load_abort_flag in H. injection H as <- <-. auto. Qed.

Lemma triple_waitFor ms : triple R (fun _ => True) (waitFor ms).
Proof. intros w a w' H. unfold waitFor in H. injection H as <- <-. auto. Qed.

Lemma triple_fuel_out {A} (Q : A -> Prop) : triple R Q (fun _ => None).
Proof. intros w a w' H. discriminate. Qed.

Ltac tstep :=
  match goal with
  | |- triple R _ (bind getTickCount _) => eapply triple_bind; [apply triple_tick|intros ? _]
  | |- triple R _ (bind load_abort_flag _) => eapply triple_bind; [apply triple_abort|intros ? _]
  | |- triple R _ (bind (waitFor _) _) => eapply triple_bind; [apply triple_waitFor|intros ? _]
  | |- triple R _ (ret _) => apply triple_ret
  | |- triple R _ (if ?b then _ else _) => destruct b
  end.

Variable m_sender : FrameSender.
Variable m_provider : FrameProvider.
Variable ctx : UdsSessionContext.

Hypothesis R_prov : forall t w, R w (snd (m_provider t w)).
Hypothesis R_send : forall tx f, m_context tx = ctx -> triple R (fun _ => True) (sendFrame m_sender tx f).

Lemma triple_provider {A} (Q : A -> Prop) t (k : option FkVciCanDataType -> M A) :
  (forall o, triple R Q (k o)) ->
  triple R Q (fun w => let '(o, w1) := m_provider t w in k o w1).
Proof.
  intros Hk w0 b w' H. destruct (m_provider t w0) as [o w1] eqn:E.
  destruct (Hk o w1 b w' H) as [H1 H2]. split; [|exact H2].
  apply (R_trans w0 w1 w'); [|exact H1].
  pose proof (R_prov t w0) as Hp. rewrite E in Hp. exact Hp.
Qed.

Lemma triple_waitForFrame_loop fuel resp st to :
  triple R (fun _ => True) (waitForFrame_loop m_provider fuel resp st to).
Proof.
  induction fuel as [|fuel IH]; [apply triple_fuel_out|]. cbn [waitForFrame_loop].
  repeat tstep; auto.
  apply (triple_provider (fun _ => True) _
           (fun o w1 => match o with
                        | Some f => if CanID f =? resp then Some (Some f, w1)
                                    else waitForFrame_loop m_provider fuel resp st to w1
                        | None => waitForFrame_loop m_provider fuel resp st to w1
                        end)).
  intros [f|]; [|exact IH].
  destruct (CanID f =? resp); [|exact IH].
  intros w b w' H. injection H as <- <-. auto.
Qed.

Lemma triple_waitForFrame fuel tx to :
  triple R (fun _ => True) (waitForFrame m_provider fuel tx to).
Proof. unfold waitForFrame. tstep. apply triple_waitForFrame_loop. Qed.

Lemma triple_pace_loop fuel ws sep : triple R (fun _ => True) (pace_loop fuel ws sep).
Proof.
  induction fuel as [|fuel IH]; [apply triple_fuel_out|]. cbn [pace_loop].
  repeat tstep; auto.
Qed.

Ltac send_step :=
  eapply triple_bind; [apply R_send; ctx_tac|intros ? _].

Lemma triple_handle_send_single_frame tx :
  running ctx tx -> m_state tx <> COMPLETED ->
  triple R (result_consistent ctx) (handle_send_single_frame m_sender tx).
Proof.
  intros Hr Hs. unfold handle_send_single_frame. send_step. tstep. destruct a; rc_tac.
Qed.

Lemma triple_handle_send_first_frame tx :
  running ctx tx -> m_state tx <> COMPLETED ->
  triple R (result_consistent ctx) (handle_send_first_frame m_sender tx).
Proof.
  intros Hr Hs. unfold handle_send_first_frame. destruct (m_segmenter tx) as [seg|].
  - destruct (Segmenter_getNextFrame seg) as [fr seg']. send_step. tstep.
    destruct a; rc_tac.
  - tstep. rc_tac.
Qed.

Lemma triple_handle_wait_for_fc fuel tx :
  running ctx tx -> m_state tx <> COMPLETED ->
  triple R (result_consistent ctx) (handle_wait_for_fc m_provider fuel tx).
Proof.
  intros Hr Hs. unfold handle_wait_for_fc.
  eapply triple_bind; [apply triple_waitForFrame|intros o _].
  destruct o as [cf|].
  - destruct (parse (Data cf)) as [[| | |st bs sep]|]; try (tstep; rc_tac).
    destruct st; cbv iota; tstep; rc_tac.
  - repeat tstep; rc_tac.
Qed.

Lemma triple_send_cf_loop fuel : forall tx seg,
  running ctx tx -> m_state tx <> COMPLETED ->
  triple R (result_consistent ctx) (send_cf_loop m_sender fuel tx seg).
Proof.
  induction fuel as [|fuel IH]; intros tx seg Hr Hs; [apply triple_fuel_out|].
  cbn [send_cf_loop].
  destruct (Segmenter_isDone seg); [tstep; rc_tac|].
  tstep. destruct a; [tstep; rc_tac|].
  destruct (_ && _); [tstep; rc_tac|].
  eapply triple_bind with (Q1 := fun _ => True).
  { destruct (0 <? m_fc_separation_time_from_ecu tx); [|tstep; auto].
    tstep. apply triple_pace_loop. }
  intros paced _. destruct (negb paced); [tstep; rc_tac|].
  destruct (Segmenter_getNextFrame seg) as [fr seg']. send_step.
  destruct (negb a); [tstep; rc_tac|].
  apply IH; [run_tac|simpl; exact Hs].
Qed.

Lemma triple_handle_send_consecutive_frames fuel tx :
  running ctx tx -> m_state tx <> COMPLETED ->
  triple R (result_consistent ctx) (handle_send_consecutive_frames m_sender fuel tx).
Proof.
  intros Hr Hs. unfold handle_send_consecutive_frames.
  destruct (m_segmenter tx) as [seg|]; [apply triple_send_cf_loop; auto|tstep; rc_tac].
Qed.

Lemma triple_wait_response_loop fuel : forall timeout tx,
  running ctx tx -> m_state tx <> COMPLETED ->
  triple R (result_consistent ctx) (wait_response_loop m_sender m_provider fuel timeout tx).
Proof.
  induction fuel as [|fuel IH]; intros timeout tx Hr Hs; [apply triple_fuel_out|].
  cbn [wait_response_loop].
  eapply triple_bind; [apply triple_waitForFrame|intros o _].
  destruct o as [cf|]; [|repeat tstep; rc_tac].
  destruct (parse (Data cf)) as [[p|total prefix|sn ch|st bs sep]|];
    try (apply IH; assumption).
  - destruct (is_nrc78 p).
    + cbv zeta. destruct (_ <=? _)%nat; [tstep; rc_tac|].
      apply IH; [run_tac|simpl; exact Hs].
    + tstep. destruct (is_negative p); rc_tac.
  - destruct (Reassembler_processFrame _ _) as [status ra].
    destruct status; try (tstep; rc_tac).
    send_step. tstep. destruct a; rc_tac.
Qed.

Lemma triple_receive_cf_loop fuel : forall tx,
  running ctx tx -> m_state tx <> COMPLETED ->
  triple R (result_consistent ctx) (receive_cf_loop m_provider fuel tx).
Proof.
  induction fuel as [|fuel IH]; intros tx Hr Hs; [apply triple_fuel_out|].
  cbn [receive_cf_loop].
  destruct (ra_status (m_reassembler tx)); try (tstep; rc_tac).
  - eapply triple_bind; [apply triple_waitForFrame|intros o _].
    destruct o as [cf|]; [|repeat tstep; rc_tac].
    destruct (parse (Data cf)) as [f|]; [|apply IH; assumption].
    destruct (Reassembler_processFrame _ _) as [status ra].
    destruct status; try (tstep; rc_tac); apply IH; try run_tac; simpl; exact Hs.
Qed.

Lemma triple_run_state_machine fuel tx :
  running ctx tx -> m_state tx <> COMPLETED ->
  triple R (result_consistent ctx) (run_state_machine m_sender m_provider fuel tx).
Proof.
  intros Hr Hs. unfold run_state_machine.
  destruct (m_state tx) eqn:E.
  - tstep. unfold handle_start.
    destruct (_ <=? _)%nat; [rc_tac|]. destruct (_ <? _); [rc_tac|].
    apply rc_of_running; [run_tac|simpl; discriminate].
  - apply triple_handle_send_single_frame; congruence.
  - apply triple_handle_send_first_frame; congruence.
  - apply triple_handle_wait_for_fc; congruence.
  - apply triple_handle_send_consecutive_frames; congruence.
  - apply triple_wait_response_loop; congruence.
  - apply triple_receive_cf_loop; congruence.
  - contradiction.
  - tstep. rc_tac.
Qed.

Lemma triple_execute_loop fuel : forall tx,
  result_consistent ctx tx ->
  triple R (fun tx' => result_consistent ctx tx' /\ is_terminal (m_state tx') = true)
    (execute_loop m_sender m_provider fuel tx).
Proof.
  induction fuel as [|fuel IH]; intros tx Hc; [apply triple_fuel_out|].
  cbn [execute_loop].
  destruct (is_terminal (m_state tx)) eqn:Et; [tstep; auto|].
  assert (Hr : running ctx tx /\ m_state tx <> COMPLETED).
  { destruct Hc as [Hx [H1 H2]].
    assert (m_state tx <> COMPLETED) by (intros E; rewrite E in Et; discriminate).
    destruct (success (m_result tx)) eqn:Es.
    - exfalso. apply H. apply H2. reflexivity.
    - repeat split; auto. intros E. apply H1 in E. discriminate. }
  destruct Hr as [Hr Hs].
  tstep. destruct a.
  - tstep. split; [rc_tac|reflexivity].
  - eapply triple_bind; [apply triple_run_state_machine; eauto|].
    intros tx' Hc'. apply IH. exact Hc'.
Qed.

End Triples.

Lemma rc_initial ctx payload :
  result_consistent ctx (setState (Transaction_new ctx payload) START).
Proof. apply rc_of_running; [repeat split; simpl; auto; discriminate|simpl; discriminate]. Qed.

(** X1: whatever the sender, provider and world, a transaction that returns
    reports [success] exactly when its result code is [Ok]. *)
Theorem execute_success_iff_ok (snd : FrameSender) (prv : FrameProvider) (fuel : nat)
    (ctx : UdsSessionContext) (payload : list Z) (w w' : World) (res : TransactionResult)
    (H : execute snd prv fuel (Transaction_new ctx payload) w = Some (res, w')) :
  success res = true <-> result_code res = VCI_UDS_RESULT_OK.
Proof.
  unfold execute, bind in H.
  destruct (execute_loop snd prv fuel _ w) as [[tx' w1]|] eqn:E; [|discriminate].
  unfold ret in H. injection H as <- <-.
  destruct (triple_execute_loop (fun _ _ => True) (fun _ => I) (fun _ _ _ _ _ => I)
              (fun _ _ => I) snd prv ctx (fun _ _ => I)
              (fun tx f _ w a w' _ => conj I I) fuel _ (rc_initial ctx payload) w tx' w1 E)
    as [_ [[_ [H _]] _]].
  exact H.
Qed.

Lemma sends_on_refl req w : sends_on req w w.
Proof. split; [lia|split; [reflexivity|exists []; rewrite app_nil_r; auto]]. Qed.

Lemma sends_on_trans req w1 w2 w3 :
  sends_on req w1 w2 -> sends_on req w2 w3 -> sends_on req w1 w3.
Proof.
  intros [H1 [A1 [l1 [E1 F1]]]] [H2 [A2 [l2 [E2 F2]]]].
  split; [lia|split; [congruence|]]. exists (l1 ++ l2).
  split; [rewrite E2, E1, app_assoc; reflexivity|].
  apply Forall_app; split.
  - eapply Forall_impl; [|exact F1]. simpl. intros p [? ?]; split; auto; lia.
  - eapply Forall_impl; [|exact F2]. simpl. intros p [? ?]; split; auto; lia.
Qed.

Lemma sends_on_tick req w ms : sends_on req w (set_clock w (w_clock w + ms)%nat).
Proof. split; [simpl; lia|split; [reflexivity|exists []; simpl; rewrite app_nil_r; auto]]. Qed.

Lemma sends_on_receive req t w : sends_on req w (snd (comm_receiveFrame t w)).
Proof.
  unfold comm_receiveFrame. destruct (w_bus w) as [|[ta f] rest].
  - apply sends_on_tick.
  - destruct (ta <=? w_clock w + t)%nat.
    + split; [simpl; lia|split; [reflexivity|exists []; simpl; rewrite app_nil_r; auto]].
    + apply sends_on_tick.
Qed.

Lemma sends_on_sendFrame ctx tx f :
  m_context tx = ctx ->
  triple (sends_on (request_id ctx)) (fun _ => True) (sendFrame physical_sender tx f).
Proof.
  intros Hc w a w' H. unfold sendFrame, physical_sender, comm_sendFrame in H.
  cbv beta zeta in H. injection H as _ <-.
  split; [|exact I]. split; [simpl; lia|split; [reflexivity|]].
  eexists. split; [reflexivity|]. repeat constructor; simpl; try lia. rewrite Hc. reflexivity.
Qed.

(** X2: with the service's sender and the communicator, a transaction only
    appends frames to the bus, all on [request_id], stamped between its
    start and its end; the clock never goes back. *)
Theorem execute_sends_only_on_request_id (fuel : nat) (ctx : UdsSessionContext)
    (payload : list Z) (w w' : World) (res : TransactionResult)
    (H : execute physical_sender comm_receiveFrame fuel (Transaction_new ctx payload) w
         = Some (res, w')) :
  (w_clock w <= w_clock w')%nat /\
  exists l, w_sent w' = w_sent w ++ l /\
    Forall (fun p => CanID (snd p) = request_id ctx /\ (w_clock w <= fst p <= w_clock w')%nat) l.
Proof.
  unfold execute, bind in H.
  destruct (execute_loop _ _ fuel _ w) as [[tx' w1]|] eqn:E; [|discriminate].
  unfold ret in H. injection H as <- <-.
  destruct (triple_execute_loop (sends_on (request_id ctx)) (sends_on_refl _)
              (sends_on_trans _) (sends_on_tick _) physical_sender comm_receiveFrame ctx
              (sends_on_receive _) (sends_on_sendFrame ctx) fuel _ (rc_initial ctx payload)
              w tx' w1 E) as [[Hc [_ Hl]] _].
  split; assumption.
Qed.

Lemma idle_tracks_refl w : idle_tracks w w.
Proof. split; [lia|exists []; rewrite app_nil_r; split; auto]. Qed.

Lemma idle_tracks_trans w1 w2 w3 :
  idle_tracks w1 w2 -> idle_tracks w2 w3 -> idle_tracks w1 w3.
Proof.
  intros [H1 [l1 [E1 I1]]] [H2 [l2 [E2 I2]]].
  split; [lia|]. exists (l1 ++ l2).
  split; [rewrite E2, E1, app_assoc; reflexivity|].
  intros Hle. destruct (I1 Hle) as [A1 [B1 C1]]. destruct (I2 A1) as [A2 [B2 C2]].
  split; [exact A2|split; [lia|]]. apply Forall_app; split; [|exact C2].
  eapply Forall_impl; [|exact C1]. simpl. intros p Hp. lia.
Qed.

Lemma idle_tracks_tick w ms : idle_tracks w (set_clock w (w_clock w + ms)%nat).
Proof.
  split; [simpl; lia|exists []; simpl; rewrite app_nil_r; split; auto].
  intros H; repeat split; auto; lia.
Qed.

Lemma idle_tracks_receive t w : idle_tracks w (snd (comm_receiveFrame t w)).
Proof.
  unfold comm_receiveFrame. destruct (w_bus w) as [|[ta f] rest].
  - apply idle_tracks_tick.
  - destruct (ta <=? w_clock w + t)%nat.
    + split; [simpl; lia|exists []; simpl; rewrite app_nil_r; split; auto].
      intros H; repeat split; auto; lia.
    + apply idle_tracks_tick.
Qed.

Lemma idle_tracks_sendFrame tx f :
  triple idle_tracks (fun _ => True) (sendFrame physical_sender tx f).
Proof.
  intros w a w' H. unfold sendFrame, physical_sender, comm_sendFrame in H.
  cbv beta zeta in H. injection H as _ <-.
  split; [|exact I]. split; [simpl; lia|].
  eexists. split; [reflexivity|]. simpl. intros Hle.
  repeat split; try lia; repeat constructor; simpl; lia.
Qed.

(** X3: [Service::executeTransaction] sets [m_last_tx_time_ms] to the call
    time or later, and every frame it sends is stamped at or before the
    final [m_last_tx_time_ms]; this holds also when the constructor throws. *)
Theorem executeTransaction_refreshes_idle_clock (ctx : UdsSessionContext) (fuel : nat)
    (payload : list Z) (w w' : World) (o : ExecuteTransaction.Outcome Response)
    (H : ExecuteTransaction.executeTransaction ctx fuel payload w = Some (o, w')) :
  (w_clock w <= w_last_tx w')%nat /\
  exists l, w_sent w' = w_sent w ++ l /\ Forall (fun p => (fst p <= w_last_tx w')%nat) l.
Proof.
  unfold ExecuteTransaction.executeTransaction in H.
  destruct payload as [|b bs].
  - injection H as <- <-. simpl. split; [lia|exists []; rewrite app_nil_r; auto].
  - destruct (execute _ _ fuel _ _) as [[r w1]|] eqn:E; [|discriminate].
    injection H as <- <-.
    unfold execute, bind in E.
    destruct (execute_loop _ _ fuel _ _) as [[tx' w2]|] eqn:E2; [|discriminate].
    unfold ret in E. injection E as <- <-.
    destruct (triple_execute_loop idle_tracks idle_tracks_refl idle_tracks_trans
                idle_tracks_tick physical_sender comm_receiveFrame ctx idle_tracks_receive
                (fun tx f _ => idle_tracks_sendFrame tx f) fuel _ (rc_initial ctx (b :: bs))
                _ tx' w2 E2) as [[Hc [l [El Il]]] _].
    simpl in *. destruct (Il (le_n _)) as [A [B C]].
    split; [lia|]. exists l. split; assumption.
Qed.

Lemma execute_loop_run snd prv f tx w :
  is_terminal (m_state tx) = false -> abort_flag w = false ->
  execute_loop snd prv (S f) tx w
  = bind (run_state_machine snd prv f tx) (execute_loop snd prv f) w.
Proof. intros Ht Ha. rewrite execute_loop_step by assumption. reflexivity. Qed.

Lemma run_state_machine_start snd prv f tx w :
  m_state tx = START -> run_state_machine snd prv f tx w = Some (handle_start tx, w).
Proof. intros Hs. unfold run_state_machine. rewrite Hs. reflexivity. Qed.

Lemma run_state_machine_single snd prv f tx w :
  m_state tx = SEND_SINGLE_FRAME ->
  run_state_machine snd prv f tx w = handle_send_single_frame snd tx w.
Proof. intros Hs. unfold run_state_machine. rewrite Hs. reflexivity. Qed.

Lemma run_state_machine_first snd prv f tx w :
  m_state tx = SEND_FIRST_FRAME ->
  run_state_machine snd prv f tx w = handle_send_first_frame snd tx w.
Proof. intros Hs. unfold run_state_machine. rewrite Hs. reflexivity. Qed.

Lemma physical_sender_eq f w :
  physical_sender f w
  = (w_send_ok w (length (w_sent w)),
     set_sent (updateLastTxTime w) (w_sent w ++ [(w_clock w, f)])).
Proof. reflexivity. Qed.

Lemma execute_first_two_steps ctx payload f w :
  abort_flag w = false ->
  Z.of_nat (length payload)
    <= (match can_type ctx with VCI_UDS_CAN_CLASSIC => 4095 | _ => 4294967295 end) ->
  exists tx2,
    execute_loop physical_sender comm_receiveFrame (S (S f))
      (setState (Transaction_new ctx payload) START) w
    = execute_loop physical_sender comm_receiveFrame f tx2
        (set_sent (updateLastTxTime w) (w_sent w ++ [(w_clock w, first_request_frame ctx payload)])) /\
    result_consistent ctx tx2 /\
    (w_send_ok w (length (w_sent w)) = false ->
       m_state tx2 = FAILED /\
       m_result tx2 = {| success := false; result_code := VCI_UDS_RESULT_SEND_FAILED;
                         response_payload := [] |}).
Proof.
  intros Ha Hsz.
  rewrite execute_loop_step by (reflexivity || assumption).
  rewrite run_state_machine_start by reflexivity. cbv beta iota.
  unfold first_request_frame, handle_start.
  cbn [m_context m_request_payload setState with_fields Transaction_new].
  destruct (length payload <=? _)%nat eqn:Es.
  - rewrite execute_loop_step by (reflexivity || assumption).
    rewrite run_state_machine_single by reflexivity.
    unfold handle_send_single_frame, bind at 1, sendFrame. rewrite physical_sender_eq.
    cbn [m_context m_request_payload]. unfold ret.
    eexists. split; [reflexivity|].
    destruct (w_send_ok w (length (w_sent w))).
    + split; [|discriminate]. apply rc_of_running; [|discriminate].
      repeat split; simpl; auto; discriminate.
    + split; [apply rc_fail; [reflexivity|discriminate]|]. intros _. split; reflexivity.
  - destruct (_ <? Z.of_nat (length payload)) eqn:Eb.
    { exfalso. apply Z.ltb_lt in Eb. destruct (can_type ctx); lia. }
    rewrite execute_loop_step by (reflexivity || assumption).
    rewrite run_state_machine_first by reflexivity.
    unfold handle_send_first_frame. cbn [m_segmenter m_context setState with_fields].
    destruct (Segmenter_getNextFrame _) as [fr seg'] eqn:Eg.
    unfold bind at 1, sendFrame. rewrite physical_sender_eq.
    cbn [m_context set_segmenter with_fields]. unfold ret.
    eexists. split; [reflexivity|].
    destruct (w_send_ok w (length (w_sent w))).
    + split; [|discriminate]. apply rc_of_running; [|discriminate].
      repeat split; simpl; auto; discriminate.
    + split; [apply rc_fail; [reflexivity|discriminate]|]. intros _. split; reflexivity.
Qed.

(** X4: a request within the size limit, not aborted at the start, puts as
    its first frame the Single Frame (up to 7 bytes classic, 62 FD) or the
    segmenter's First Frame, at the start tick on [request_id]; if that
    send fails the transaction ends [SendFailed] with an empty payload and
    nothing else is sent. *)
Theorem execute_first_frame_and_send_failure (fuel : nat) (ctx : UdsSessionContext)
    (payload : list Z) (w w' : World) (res : TransactionResult)
    (H : execute physical_sender comm_receiveFrame fuel (Transaction_new ctx payload) w
         = Some (res, w'))
    (Ha : abort_flag w = false)
    (Hsz : Z.of_nat (length payload)
           <= (match can_type ctx with VCI_UDS_CAN_CLASSIC => 4095 | _ => 4294967295 end)) :
  (exists l, w_sent w' = w_sent w ++ (w_clock w, first_request_frame ctx payload) :: l) /\
  (w_send_ok w (length (w_sent w)) = false ->
   res = {| success := false; result_code := VCI_UDS_RESULT_SEND_FAILED; response_payload := [] |} /\
   w_sent w' = w_sent w ++ [(w_clock w, first_request_frame ctx payload)]).
Proof.
  unfold execute, bind in H.
  destruct (execute_loop _ _ fuel _ w) as [[tx' w1]|] eqn:E; [|discriminate].
  unfold ret in H. injection H as <- <-.
  destruct fuel as [|[|f]]; [discriminate| |].
  { rewrite execute_loop_step in E by (reflexivity || assumption).
    rewrite run_state_machine_start in E by reflexivity. discriminate. }
  destruct (execute_first_two_steps ctx payload f w Ha Hsz) as (tx2 & Heq & Hrc & Hfail).
  rewrite Heq in E.
  split.
  - destruct (triple_execute_loop (sends_on (request_id ctx)) (sends_on_refl _)
                (sends_on_trans _) (sends_on_tick _) physical_sender comm_receiveFrame ctx
                (sends_on_receive _) (sends_on_sendFrame ctx) f _ Hrc
                _ tx' w1 E) as [[_ [_ [l [Hl _]]]] _].
    exists l. rewrite Hl. cbn [w_sent set_sent]. rewrite <- app_assoc. reflexivity.
  - intros Hok. destruct (Hfail Hok) as [Hst Hres].
    destruct f as [|f]; [discriminate|].
    rewrite execute_loop_terminal in E by (rewrite Hst; reflexivity).
    injection E as <- <-. split; [exact Hres|reflexivity].
Qed.

Lemma waitForFrame_loop_effect (fuel : nat) : forall (w : World) resp start timeout o w',
  (start <= w_clock w <= start + timeout)%nat ->
  waitForFrame_loop comm_receiveFrame fuel resp start timeout w = Some (o, w') ->
  wait_effect resp (start + timeout) w o w'.
Proof.
  induction fuel as [|fuel IH]; intros w resp start timeout o w' Hc H; [discriminate|].
  cbn [waitForFrame_loop] in H. unfold bind, load_abort_flag, getTickCount, ret in H.
  assert (Hnil : o = None -> w' = w -> wait_effect resp (start + timeout) w o w').
  { intros -> ->. repeat split; try lia. exists []. split; [constructor|reflexivity]. }
  destruct (abort_flag w); [injection H as <- <-; auto|].
  destruct (timeout <=? w_clock w - start)%nat eqn:Eto; [injection H as <- <-; auto|].
  apply Nat.leb_gt in Eto.
  destruct (chunk_bounds (timeout - (w_clock w - start))) as [Hc1 _]; [lia|].
  set (ch := Nat.min 10 _) in *.
  unfold comm_receiveFrame in H. unfold wait_effect in *.
  destruct (w_bus w) as [|[t f] rest] eqn:Eb.
  - apply IH in H; [|cbn [set_clock w_clock]; lia]. destruct H
      as [Hc' [Hs [Ha [Hl [dr [Hdr Hm]]]]]].
    cbn [set_clock w_clock w_sent w_abort_at w_last_tx w_bus] in *.
    repeat split; try lia; auto. exists dr. split; auto. rewrite Eb in Hm; exact Hm.
  - destruct (t <=? w_clock w + ch)%nat eqn:Et.
    + apply Nat.leb_le in Et.
      destruct (CanID f =? resp) eqn:Eid.
      * injection H as <- <-. cbn [set_clock set_bus w_clock w_sent w_abort_at w_last_tx w_bus].
        repeat split; try lia. exists []. split; [constructor|].
        split; [apply Z.eqb_eq; exact Eid|]. exists t. reflexivity.
      * apply Z.eqb_neq in Eid.
        apply IH in H; [|cbn [set_bus set_clock w_clock]; lia]. destruct H
          as [Hc' [Hs [Ha [Hl [dr [Hdr Hm]]]]]].
        cbn [set_clock set_bus w_clock w_sent w_abort_at w_last_tx w_bus] in *.
        repeat split; try lia; auto. exists ((t, f) :: dr). split; [constructor; auto|].
        destruct o; [destruct Hm as [Hid [t' Ht']]; split; [auto|exists t'; rewrite Ht'; reflexivity]
                    |rewrite Hm; reflexivity].
    + apply IH in H; [|cbn [set_clock w_clock]; lia]. destruct H
        as [Hc' [Hs [Ha [Hl [dr [Hdr Hm]]]]]].
      cbn [set_clock w_clock w_sent w_abort_at w_last_tx w_bus] in *.
      repeat split; try lia; auto. exists dr. split; auto. rewrite Eb in Hm; exact Hm.
Qed.

(** X5: [waitForFrame] over the communicator returns within its timeout,
    sends nothing, and consumes only frames on other identifiers before the
    frame it returns, which is on [response_id]. *)
Theorem waitForFrame_bounded_and_filtered (fuel : nat) (tx : Transaction) (timeout : nat)
    (w w' : World) (o : option FkVciCanDataType)
    (H : waitForFrame comm_receiveFrame fuel tx timeout w = Some (o, w')) :
  wait_effect (response_id (m_context tx)) (w_clock w + timeout) w o w'.
Proof.
  unfold waitForFrame, bind at 1, getTickCount in H.
  exact (waitForFrame_loop_effect fuel w _ (w_clock w) timeout o w' ltac:(lia) H).
Qed.

(** X6: a request longer than 4095 bytes (classic CAN) or 0xFFFFFFFF
    bytes (FD), not aborted at the start, fails [PayloadTooLarge] with an
    empty payload and leaves the world untouched: nothing is sent, no time
    passes. *)
Theorem execute_rejects_oversized_payload (snd : FrameSender) (prv : FrameProvider)
    (fuel : nat) (ctx : UdsSessionContext) (payload : list Z) (w w' : World)
    (res : TransactionResult)
    (H : execute snd prv fuel (Transaction_new ctx payload) w = Some (res, w'))
    (Ha : abort_flag w = false)
    (Hsz : (match can_type ctx with VCI_UDS_CAN_CLASSIC => 4095 | _ => 4294967295 end)
           < Z.of_nat (length payload)) :
  res = {| success := false; result_code := VCI_UDS_RESULT_PAYLOAD_TOO_LARGE;
           response_payload := [] |} /\ w' = w.
Proof.
  unfold execute, bind in H.
  destruct (execute_loop _ _ fuel _ w) as [[tx' w1]|] eqn:E; [|discriminate].
  unfold ret in H. injection H as <- <-.
  destruct fuel as [|fuel]; [discriminate|].
  rewrite execute_loop_step in E by (reflexivity || assumption).
  rewrite run_state_machine_start in E by reflexivity.
  unfold handle_start in E. cbn [m_context m_request_payload setState with_fields Transaction_new] in E.
  replace (length payload <=? _)%nat with false in E
    by (symmetry; apply Nat.leb_gt; destruct (can_type ctx); lia).
  replace (_ <? Z.of_nat (length payload)) with true in E
    by (symmetry; apply Z.ltb_lt; destruct (can_type ctx); exact Hsz).
  destruct fuel as [|fuel]; [discriminate|].
  rewrite execute_loop_terminal in E by reflexivity.
  injection E as <- <-. split; reflexivity.
Qed.

(** X7: after a keep-alive round that handed a Tester Present to
    [sendFrame] (any communicator that leaves [m_last_tx_time_ms] alone, and
    whose send may take time), a failed send keeps [m_last_tx_time_ms], so
    every later round sends again at once; a successful one sets it to the
    clock read after the send, [t], so the rounds before [t + interval] only
    sleep, until exactly [t + interval]. *)
Theorem keepAlive_retry_after_failed_send (ctx : UdsSessionContext) (sendFrame : FrameSender)
    (w w' : World) (fr : FkVciCanDataType)
    (Hkeep : forall f w0, w_last_tx (snd (sendFrame f w0)) = w_last_tx w0)
    (Hi : (0 < tester_present_interval_ms ctx)%nat)
    (H : KeepAlive.keepAliveLocked ctx sendFrame w = (Some fr, w')) :
  (fst (sendFrame fr w) = false ->
     w' = snd (sendFrame fr w) /\ w_last_tx w' = w_last_tx w /\
     forall now', (w_clock w <= now')%nat ->
       KeepAlive.keepAliveRound ctx now' (w_last_tx w') = KeepAlive.KaSendTesterPresent) /\
  (fst (sendFrame fr w) = true ->
     w_clock w' = w_clock (snd (sendFrame fr w)) /\ w_last_tx w' = w_clock w' /\
     forall now', (w_clock w' <= now' < w_clock w' + tester_present_interval_ms ctx)%nat ->
       KeepAlive.keepAliveRound ctx now' (w_last_tx w') =
       KeepAlive.KaSleep (tester_present_interval_ms ctx - (now' - w_clock w'))).
Proof.
  unfold KeepAlive.keepAliveLocked in H.
  set (el := if (w_last_tx w <? w_clock w)%nat then (w_clock w - w_last_tx w)%nat else 0%nat) in H.
  destruct (el <? tester_present_interval_ms ctx)%nat eqn:Eel; [discriminate|].
  apply Nat.ltb_ge in Eel.
  set (cf := build _ _ _ _ _) in H.
  destruct (sendFrame cf w) as [ok w1] eqn:Es.
  injection H as Hfr Hw. subst fr.
  pose proof (Hkeep cf w) as Hk. rewrite Es in Hk. simpl in Hk.
  rewrite Es. simpl.
  unfold KeepAlive.keepAliveRound.
  replace (tester_present_interval_ms ctx =? 0)%nat with false by (symmetry; apply Nat.eqb_neq; lia).
  split; intros Hs; subst ok w'.
  - split; [reflexivity|]. split; [exact Hk|]. intros now' Hn. rewrite Hk.
    replace (_ <? tester_present_interval_ms ctx)%nat with false; [reflexivity|].
    symmetry; apply Nat.ltb_ge. unfold el in Eel.
    destruct (w_last_tx w <? w_clock w)%nat eqn:E1; destruct (w_last_tx w <? now')%nat eqn:E2;
      try apply Nat.ltb_lt in E1; try apply Nat.ltb_lt in E2;
      try apply Nat.ltb_ge in E1; try apply Nat.ltb_ge in E2; lia.
  - simpl. split; [reflexivity|]. split; [reflexivity|]. intros now' Hn.
    destruct (w_clock w1 <? now')%nat eqn:E1.
    + apply Nat.ltb_lt in E1.
      replace (now' - w_clock w1 <? tester_present_interval_ms ctx)%nat with true
        by (symmetry; apply Nat.ltb_lt; lia). reflexivity.
    + apply Nat.ltb_ge in E1. replace (now' - w_clock w1)%nat with 0%nat by lia.
      replace (0 <? tester_present_interval_ms ctx)%nat with true
        by (symmetry; apply Nat.ltb_lt; lia). reflexivity.
Qed.

(** X8: in [WAIT_FOR_RESPONSE], a Single Frame reply other than a pending
    [7F xx 78], arriving within [n_as], ends the wait with that payload as
    the response: [NegativeResponse] (FAILED) when it starts with 0x7F,
    otherwise [Ok] (COMPLETED); nothing is sent. *)
Theorem wait_for_response_single_frame_reply (sender : FrameSender) (fuel : nat)
    (tx : Transaction) (w : World) (t : nat) (f : FkVciCanDataType)
    (rest : list (nat * FkVciCanDataType)) (p : list Z)
    (Hbus : w_bus w = (t, f) :: rest) (Hid : CanID f = response_id (m_context tx))
    (Ht : (w_clock w <= t < w_clock w + n_as_timeout (tpc tx))%nat)
    (Hab : forall a, w_abort_at w = Some a -> (t < a)%nat)
    (Hf : (t - w_clock w < fuel)%nat)
    (Hp : parse (Data f) = Some (SingleFrame p)) (Hn : is_nrc78 p = false) :
  exists tx',
    handle_wait_for_response sender comm_receiveFrame (S fuel) tx w
    = Some (tx', set_bus (set_clock w t) rest) /\
    m_context tx' = m_context tx /\
    m_state tx' = (if is_negative p then FAILED else COMPLETED) /\
    m_result tx' = {| success := negb (is_negative p);
                      result_code := if is_negative p then VCI_UDS_RESULT_NEGATIVE_RESPONSE
                                     else VCI_UDS_RESULT_OK;
                      response_payload := p |}.
Proof.
  unfold handle_wait_for_response. cbn [wait_response_loop].
  unfold waitForFrame, bind at 1. unfold bind at 1, getTickCount.
  rewrite (wfl_arrival fuel w (response_id (m_context tx)) (w_clock w)
             (n_as_timeout (tpc tx)) t f rest) by (auto; lia).
  rewrite Hp, Hn. unfold ret.
  destruct (is_negative p); eexists; (split; [reflexivity|]); repeat split.
Qed.

(** X9: in [WAIT_FOR_RESPONSE], a First Frame reply that leaves the
    reassembler in progress makes the transaction send exactly one frame,
    the Flow Control [CTS, block_size, st_min] of the configuration on
    [request_id]; it then receives Consecutive Frames, or fails
    [SendFailed] if that send fails. *)
Theorem wait_for_response_first_frame_sends_flow_control (fuel : nat)
    (tx : Transaction) (w : World) (t : nat) (f : FkVciCanDataType)
    (rest : list (nat * FkVciCanDataType)) (total : nat) (prefix : list Z) (ra : Reassembler)
    (Hbus : w_bus w = (t, f) :: rest) (Hid : CanID f = response_id (m_context tx))
    (Ht : (w_clock w <= t < w_clock w + n_as_timeout (tpc tx))%nat)
    (Hab : forall a, w_abort_at w = Some a -> (t < a)%nat)
    (Hf : (t - w_clock w < fuel)%nat)
    (Hp : parse (Data f) = Some (FirstFrame total prefix))
    (Hra : Reassembler_processFrame (m_reassembler tx) (FirstFrame total prefix)
           = (IN_PROGRESS, ra)) :
  exists tx' w',
    handle_wait_for_response physical_sender comm_receiveFrame (S fuel) tx w = Some (tx', w') /\
    w_sent w' = w_sent w ++
      [(t, build (FlowControl UDS_TP_FLOW_STATUS_CONTINUE_TO_SEND
                    (block_size (tpc tx)) (st_min (tpc tx)))
               (request_id (m_context tx)) (can_type (m_context tx))
               (padding_target_size (m_context tx)) (padding_fill_byte (m_context tx)))] /\
    w_clock w' = t /\ w_bus w' = rest /\
    m_reassembler tx' = ra /\
    (if w_send_ok w (length (w_sent w))
     then m_state tx' = RECEIVE_CONSECUTIVE_FRAMES
     else m_state tx' = FAILED /\ result_code (m_result tx') = VCI_UDS_RESULT_SEND_FAILED).
Proof.
  unfold handle_wait_for_response. cbn [wait_response_loop].
  unfold waitForFrame, bind at 1. unfold bind at 1, getTickCount.
  rewrite (wfl_arrival fuel w (response_id (m_context tx)) (w_clock w)
             (n_as_timeout (tpc tx)) t f rest) by (auto; lia).
  rewrite Hp, Hra. unfold bind, sendFrame, ret. rewrite physical_sender_eq.
  cbn [set_reassembler with_fields m_context tpc].
  destruct (w_send_ok _ _) eqn:Eok; do 2 eexists; (split; [reflexivity|]);
    cbn [set_sent set_bus set_clock updateLastTxTime set_last_tx w_sent w_clock w_bus w_send_ok];
    rewrite ?Eok; repeat split; reflexivity.
Qed.

(** X10: in [WAIT_FOR_RESPONSE], when no frame on [response_id] arrives
    within [n_as] and no abort comes, the transaction fails after exactly
    [n_as] ms with [TimeoutP2Star] if a pending reply was seen before and
    [TimeoutA] otherwise; nothing is sent. *)
Theorem wait_for_response_silence_times_out (sender : FrameSender) (fuel : nat)
    (tx : Transaction) (w : World)
    (Hab : forall a, w_abort_at w = Some a -> (w_clock w + n_as_timeout (tpc tx) < a)%nat)
    (Hbus : Forall (fun p => (fst p <= w_clock w + n_as_timeout (tpc tx))%nat ->
                             CanID (snd p) <> response_id (m_context tx)) (w_bus w))
    (Hf : (n_as_timeout (tpc tx) + length (w_bus w) < fuel)%nat) :
  exists w',
    handle_wait_for_response sender comm_receiveFrame (S fuel) tx w
    = Some (fail tx (if (0 <? m_nrc78_count tx)%nat then VCI_UDS_RESULT_TIMEOUT_P2_STAR
                     else VCI_UDS_RESULT_TIMEOUT_A), w') /\
    w_clock w' = (w_clock w + n_as_timeout (tpc tx))%nat /\ w_sent w' = w_sent w.
Proof.
  unfold handle_wait_for_response. cbn [wait_response_loop].
  unfold waitForFrame, bind at 1. unfold bind at 1, getTickCount.
  destruct (wfl_timeout fuel w (response_id (m_context tx)) (w_clock w)
              (n_as_timeout (tpc tx))) as [w' [-> [Hc [Ha Hs]]]]; auto; try lia.
  exists w'. unfold bind, load_abort_flag, ret.
  rewrite (abort_flag_false w' (w_clock w + n_as_timeout (tpc tx))); [|rewrite Ha; exact Hab|lia].
  auto.
Qed.

Lemma pace_loop_effect (fuel : nat) : forall ws sep w b w',
  pace_loop fuel ws sep w = Some (b, w') ->
  (w_clock w <= w_clock w')%nat /\ w_sent w' = w_sent w /\
  (b = true -> sep <= Z.of_nat (w_clock w' - ws)).
Proof.
  induction fuel as [|fuel IH]; intros ws sep w b w' H; [discriminate|].
  cbn [pace_loop] in H. unfold bind, getTickCount, load_abort_flag, ret in H.
  destruct (Z.of_nat (w_clock w - ws) <? sep) eqn:E.
  - destruct (abort_flag w).
    + injection H as <- <-. repeat split; [lia|discriminate].
    + unfold waitFor in H. apply IH in H as [Hc [Hs Hb]].
      cbn [set_clock w_clock w_sent] in *. repeat split; auto; lia.
  - injection H as <- <-. apply Z.ltb_ge in E. repeat split; auto; lia.
Qed.

Lemma send_cf_loop_paced (fuel : nat) : forall tx seg w tx' w',
  send_cf_loop physical_sender fuel tx seg w = Some (tx', w') ->
  (w_clock w <= w_clock w')%nat /\
  exists l, w_sent w' = w_sent w ++ l /\
    spaced (m_fc_separation_time_from_ecu tx) (w_clock w) l /\
    (0 < m_fc_block_size_from_ecu tx ->
     Z.of_nat (length l) + m_fc_frames_sent_in_block tx
     <= Z.max (m_fc_frames_sent_in_block tx) (m_fc_block_size_from_ecu tx)).
Proof.
  assert (Hnil : forall tx w, (w_clock w <= w_clock w)%nat /\
    exists l, w_sent w = w_sent w ++ l /\
      spaced (m_fc_separation_time_from_ecu tx) (w_clock w) l /\
      (0 < m_fc_block_size_from_ecu tx ->
       Z.of_nat (length l) + m_fc_frames_sent_in_block tx
       <= Z.max (m_fc_frames_sent_in_block tx) (m_fc_block_size_from_ecu tx))).
  { intros tx w. split; [lia|]. exists []. rewrite app_nil_r. repeat split; simpl; lia. }
  induction fuel as [|fuel IH]; intros tx seg w tx' w' H; [discriminate|].
  cbn [send_cf_loop] in H.
  destruct (Segmenter_isDone seg); [injection H as <- <-; apply Hnil|].
  unfold bind at 1, load_abort_flag in H.
  destruct (abort_flag w); [injection H as <- <-; apply Hnil|].
  destruct ((0 <? m_fc_block_size_from_ecu tx) && (m_fc_block_size_from_ecu tx <=? m_fc_frames_sent_in_block tx)) eqn:Eblk;
    [injection H as <- <-; apply Hnil|].
  unfold bind at 1 in H.
  destruct (if 0 <? m_fc_separation_time_from_ecu tx then _ else ret true) as [[paced w1]|] eqn:Ep
    in H; [|discriminate].
  assert (Hw1 : (w_clock w <= w_clock w1)%nat /\ w_sent w1 = w_sent w /\
                (paced = true -> m_fc_separation_time_from_ecu tx <= Z.of_nat (w_clock w1 - w_clock w))).
  { destruct (0 <? m_fc_separation_time_from_ecu tx) eqn:Es.
    - unfold bind, getTickCount in Ep. apply pace_loop_effect in Ep. exact Ep.
    - unfold ret in Ep. injection Ep as <- <-. apply Z.ltb_ge in Es. repeat split; auto; lia. }
  destruct Hw1 as [Hc1 [Hs1 Hp1]].
  destruct paced; [|injection H as <- <-; split; [lia|exists []; rewrite app_nil_r, Hs1; repeat split; simpl; lia]].
  cbn [negb] in H. destruct (Segmenter_getNextFrame seg) as [fr seg'].
  unfold bind at 1, sendFrame in H. rewrite physical_sender_eq in H.
  destruct (w_send_ok w1 (length (w_sent w1))); cbn [negb] in H.
  - apply IH in H as [Hc2 [l [Hl [Hsp Hbs]]]].
    cbn [set_sent updateLastTxTime set_last_tx w_clock w_sent set_frames_sent set_segmenter
         with_fields m_fc_separation_time_from_ecu m_fc_block_size_from_ecu
         m_fc_frames_sent_in_block] in *.
    split; [lia|].
    eexists. split; [rewrite Hl, Hs1, <- app_assoc; reflexivity|].
    split.
    + cbn [spaced]. specialize (Hp1 eq_refl). repeat split; [lia|lia|exact Hsp].
    + intros Hb. specialize (Hbs Hb). simpl length.
      apply andb_false_iff in Eblk as [E|E]; [apply Z.ltb_ge in E; lia|apply Z.leb_gt in E; lia].
  - unfold ret in H. injection H as <- <-. cbn [set_sent updateLastTxTime set_last_tx w_clock w_sent].
    split; [lia|].
    eexists. split; [rewrite Hs1; reflexivity|].
    split.
    + cbn [spaced]. specialize (Hp1 eq_refl). repeat split; [lia|lia].
    + intros Hb. cbn [length].
      apply andb_false_iff in Eblk as [E|E]; [apply Z.ltb_ge in E; lia|apply Z.leb_gt in E; lia].
Qed.

(** X11: [handle_send_consecutive_frames] with the service's sender spaces
    the Consecutive Frames it sends by at least the separation time it holds
    (the first one after the start), and with a block size [bs > 0] sends
    at most [bs - frames already sent in the block] of them. *)
Theorem send_consecutive_frames_paced (fuel : nat) (tx tx' : Transaction) (w w' : World)
    (H : handle_send_consecutive_frames physical_sender fuel tx w = Some (tx', w')) :
  exists l, w_sent w' = w_sent w ++ l /\
    spaced (m_fc_separation_time_from_ecu tx) (w_clock w) l /\
    (0 < m_fc_block_size_from_ecu tx ->
     Z.of_nat (length l) + m_fc_frames_sent_in_block tx
     <= Z.max (m_fc_frames_sent_in_block tx) (m_fc_block_size_from_ecu tx)).
Proof.
  unfold handle_send_consecutive_frames in H.
  destruct (m_segmenter tx) as [seg|].
  - apply send_cf_loop_paced in H as [_ H]. exact H.
  - unfold ret in H. injection H as <- <-. exists []. rewrite app_nil_r.
    repeat split; simpl; lia.
Qed.

Lemma waitForFrame_sent (fuel : nat) (tx : Transaction) (timeout : nat) (w w' : World) o :
  waitForFrame comm_receiveFrame fuel tx timeout w = Some (o, w') -> w_sent w' = w_sent w.
Proof.
  unfold waitForFrame, bind at 1, getTickCount. intros H.
  apply waitForFrame_loop_effect in H as [_ [Hs _]]; [exact Hs|lia].
Qed.

(** X12: [handle_receive_consecutive_frames] sends no frame at all: the only
    Flow Control of a multi-frame response is the one sent on its First
    Frame, whatever the block size. *)
Theorem receive_consecutive_frames_sends_nothing (fuel : nat) (tx tx' : Transaction)
    (w w' : World)
    (H : handle_receive_consecutive_frames comm_receiveFrame fuel tx w = Some (tx', w')) :
  w_sent w' = w_sent w.
Proof.
  unfold handle_receive_consecutive_frames in H. revert tx w H.
  induction fuel as [|fuel IH]; intros tx w H; [discriminate|].
  cbn [receive_cf_loop] in H.
  destruct (ra_status (m_reassembler tx)); try (unfold ret in H; injection H as <- <-; reflexivity).
  unfold bind at 1 in H.
  destruct (waitForFrame _ fuel tx _ w) as [[o w1]|] eqn:Ew; [|discriminate].
  apply waitForFrame_sent in Ew. rewrite <- Ew.
  destruct o as [cf|].
  - destruct (parse (Data cf)) as [fr|]; [|exact (IH _ _ H)].
    destruct (Reassembler_processFrame _ fr) as [st ra].
    destruct st; try (unfold ret in H; injection H as <- <-; reflexivity); exact (IH _ _ H).
  - unfold bind, load_abort_flag, ret in H. injection H as <- <-. reflexivity.
Qed.

(** X13: when a keep-alive round sleeps, it sleeps between 1 ms and the
    interval, and wakes exactly when the interval since [m_last_tx_time_ms]
    has elapsed (the full interval if that time is ahead of the clock). *)
Theorem keepAliveRound_sleeps_until_due (ctx : UdsSessionContext) (now last_tx ms : nat)
    (H : KeepAlive.keepAliveRound ctx now last_tx = KeepAlive.KaSleep ms) :
  (0 < ms <= tester_present_interval_ms ctx)%nat /\
  ((last_tx <= now)%nat -> (now + ms = last_tx + tester_present_interval_ms ctx)%nat) /\
  ((now < last_tx)%nat -> ms = tester_present_interval_ms ctx).
Proof.
  unfold KeepAlive.keepAliveRound in H.
  destruct (tester_present_interval_ms ctx =? 0)%nat eqn:E0; [discriminate|].
  apply Nat.eqb_neq in E0.
  destruct (last_tx <? now)%nat eqn:E1.
  - apply Nat.ltb_lt in E1.
    destruct (now - last_tx <? tester_present_interval_ms ctx)%nat eqn:E2; [|discriminate].
    apply Nat.ltb_lt in E2. injection H as <-. repeat split; lia.
  - apply Nat.ltb_ge in E1.
    destruct (0 <? tester_present_interval_ms ctx)%nat eqn:E2; [|discriminate].
    injection H as <-. repeat split; lia.
Qed.

(** X14: for a non-empty request, frames received at or before the call
    of [Service::executeTransaction] do not change its outcome: two worlds
    that differ only in such frames give the same result and final world. *)
Theorem executeTransaction_ignores_stale_frames (ctx : UdsSessionContext) (fuel : nat)
    (payload : list Z) (w1 w2 : World)
    (Hp : payload <> [])
    (Hc : w_clock w1 = w_clock w2) (Ha : w_abort_at w1 = w_abort_at w2)
    (Hs : w_sent w1 = w_sent w2) (Hok : w_send_ok w1 = w_send_ok w2)
    (Hl : w_last_tx w1 = w_last_tx w2)
    (Hb : filter (fun '(t, _) => (w_clock w1 <? t)%nat) (w_bus w1)
          = filter (fun '(t, _) => (w_clock w2 <? t)%nat) (w_bus w2)) :
  ExecuteTransaction.executeTransaction ctx fuel payload w1
  = ExecuteTransaction.executeTransaction ctx fuel payload w2.
Proof.
  unfold ExecuteTransaction.executeTransaction.
  destruct payload as [|b bs]; [congruence|].
  replace (FunctionalWorker.clearReceiver (updateLastTxTime w1))
    with (FunctionalWorker.clearReceiver (updateLastTxTime w2)).
  - reflexivity.
  - destruct w1, w2; cbn in *. subst.
    unfold FunctionalWorker.clearReceiver, updateLastTxTime, set_last_tx, set_bus. cbn.
    rewrite Hb. reflexivity.
Qed.

(** X15: when [executeSecurityAccessSequence] stops before sending the key,
    [final_response] holds the seed reply if the seed request failed and
    keeps the caller's value otherwise (invalid seed, key derivation failed). *)
Theorem securityAccess_final_response_on_early_stop
    (requestSync : nat -> list Z -> VciUdsResultCode * list Z)
    (calculateKey : Z -> list Z -> VciUdsResultCode * list Z)
    (security_level : Z) (final_response out : list Z) (c : VciUdsResultCode)
    (calls : list SecurityAccess.SaCall)
    (H : SecurityAccess.executeSecurityAccessSequence requestSync calculateKey security_level
           final_response = (c, out, calls))
    (Hstop : (length calls < 3)%nat) :
  let seed_reply := requestSync 0%nat [39; (2 * security_level - 1) mod 256] in
  out = (if SecurityAccess.is_ok (fst seed_reply) then final_response else snd seed_reply).
Proof.
  cbv zeta. unfold SecurityAccess.executeSecurityAccessSequence in H. cbv zeta in H.
  destruct (requestSync 0%nat _) as [r1 seed_resp]. cbn [fst snd].
  destruct (SecurityAccess.is_ok r1); cbn [negb] in H.
  - destruct (_ || _); [injection H as _ <- _; reflexivity|].
    destruct (skipn 2 seed_resp) as [|b bs]; [injection H as _ <- _; reflexivity|].
    destruct (calculateKey _ _) as [r2 key].
    destruct (SecurityAccess.is_ok r2); cbn [negb] in H; [|injection H as _ <- _; reflexivity].
    destruct (requestSync 1%nat _). injection H as _ _ <-. cbn in Hstop. lia.
  - injection H as _ <- _. reflexivity.
Qed.

Ltac exists_result e :=
  let v := eval vm_compute in e in
  match v with
  | Some (?a, ?b) =>
      exists a, b;
      assert (E : e = Some (a, b)) by (vm_compute; reflexivity);
      split; [exact E|]
  end.

Lemma execute_success_iff_ok_witness :
  exists res w',
    execute physical_sender comm_receiveFrame 1000 (Transaction_new (Scenario.ctx 5) Scenario.rdbi)
      (Scenario.world [Scenario.positive_at 40] None) = Some (res, w') /\
    result_code res = VCI_UDS_RESULT_OK /\
    (success res = true <-> result_code res = VCI_UDS_RESULT_OK).
Proof.
  exists_result (execute physical_sender comm_receiveFrame 1000
    (Transaction_new (Scenario.ctx 5) Scenario.rdbi) (Scenario.world [Scenario.positive_at 40] None)).
  split; [reflexivity|]. exact (execute_success_iff_ok _ _ _ _ _ _ _ _ E).
Defined.

Lemma execute_sends_only_on_request_id_witness :
  exists res w',
    execute physical_sender comm_receiveFrame 1000 (Transaction_new (Scenario.ctx 5) Scenario.long_payload)
      (Scenario.world [Scenario.fc_at 10 0 0 0; Scenario.positive_at 60] None) = Some (res, w') /\
    length (w_sent w') = 3%nat /\
    ((0 <= w_clock w')%nat /\
     exists l, w_sent w' = [] ++ l /\
       Forall (fun p => CanID (snd p) = 2016 /\ (0 <= fst p <= w_clock w')%nat) l).
Proof.
  exists_result (execute physical_sender comm_receiveFrame 1000
    (Transaction_new (Scenario.ctx 5) Scenario.long_payload)
    (Scenario.world [Scenario.fc_at 10 0 0 0; Scenario.positive_at 60] None)).
  split; [reflexivity|]. exact (execute_sends_only_on_request_id _ _ _ _ _ _ E).
Defined.

Lemma executeTransaction_refreshes_idle_clock_witness :
  exists o w',
    ExecuteTransaction.executeTransaction (Scenario.ctx 5) 1000 Scenario.rdbi
      (Scenario.world [Scenario.positive_at 40] None) = Some (o, w') /\
    w_last_tx w' = 0%nat /\
    ((0 <= w_last_tx w')%nat /\
     exists l, w_sent w' = [] ++ l /\ Forall (fun p => (fst p <= w_last_tx w')%nat) l).
Proof.
  exists_result (ExecuteTransaction.executeTransaction (Scenario.ctx 5) 1000 Scenario.rdbi
                   (Scenario.world [Scenario.positive_at 40] None)).
  split; [reflexivity|]. exact (executeTransaction_refreshes_idle_clock _ _ _ _ _ _ E).
Defined.

Lemma execute_first_frame_and_send_failure_witness :
  exists res w',
    execute physical_sender comm_receiveFrame 1000 (Transaction_new (Scenario.ctx 5) Scenario.long_payload)
      (Scenario.world_send_fails [Scenario.fc_at 10 0 0 0]) = Some (res, w') /\
    ((exists l, w_sent w' = [] ++ (0%nat, first_request_frame (Scenario.ctx 5) Scenario.long_payload) :: l) /\
     (false = false ->
      res = {| success := false; result_code := VCI_UDS_RESULT_SEND_FAILED; response_payload := [] |} /\
      w_sent w' = [] ++ [(0%nat, first_request_frame (Scenario.ctx 5) Scenario.long_payload)])).
Proof.
  exists_result (execute physical_sender comm_receiveFrame 1000
    (Transaction_new (Scenario.ctx 5) Scenario.long_payload)
    (Scenario.world_send_fails [Scenario.fc_at 10 0 0 0])).
  exact (execute_first_frame_and_send_failure _ _ _ _ _ _ E eq_refl ltac:(vm_compute; congruence)).
Defined.

Lemma execute_rejects_oversized_payload_witness :
  exists res w',
    execute physical_sender comm_receiveFrame 1000 (Transaction_new (Scenario.ctx 5) Scenario.oversized)
      (Scenario.world [] None) = Some (res, w') /\
    (res = {| success := false; result_code := VCI_UDS_RESULT_PAYLOAD_TOO_LARGE;
              response_payload := [] |} /\ w' = Scenario.world [] None).
Proof.
  exists_result (execute physical_sender comm_receiveFrame 1000
    (Transaction_new (Scenario.ctx 5) Scenario.oversized) (Scenario.world [] None)).
  exact (execute_rejects_oversized_payload _ _ _ _ _ _ _ _ E eq_refl ltac:(vm_compute; reflexivity)).
Defined.

Lemma waitForFrame_bounded_and_filtered_witness :
  exists o w',
    waitForFrame comm_receiveFrame 1000 Scenario.resp_tx 100
      (Scenario.world [Scenario.foreign_at 30; Scenario.positive_at 40] None) = Some (o, w') /\
    o = Some (snd (Scenario.positive_at 40)) /\
    wait_effect 2024 (0 + 100) (Scenario.world [Scenario.foreign_at 30; Scenario.positive_at 40] None) o w'.
Proof.
  exists_result (waitForFrame comm_receiveFrame 1000 Scenario.resp_tx 100
    (Scenario.world [Scenario.foreign_at 30; Scenario.positive_at 40] None)).
  split; [reflexivity|]. exact (waitForFrame_bounded_and_filtered _ _ _ _ _ _ E).
Defined.

Lemma wait_for_response_single_frame_reply_witness :
  exists tx',
    handle_wait_for_response physical_sender comm_receiveFrame 1000 Scenario.resp_tx
      (Scenario.world [Scenario.positive_at 40] None)
    = Some (tx', set_bus (set_clock (Scenario.world [Scenario.positive_at 40] None) 40) []) /\
    m_context tx' = Scenario.ctx 5 /\
    m_state tx' = COMPLETED /\
    m_result tx' = {| success := true; result_code := VCI_UDS_RESULT_OK;
                      response_payload := [98; 241; 144] |}.
Proof.
  exact (wait_for_response_single_frame_reply physical_sender 999 Scenario.resp_tx
           (Scenario.world [Scenario.positive_at 40] None) 40 (snd (Scenario.positive_at 40)) []
           [98; 241; 144] eq_refl eq_refl ltac:(simpl; lia) ltac:(intros a Ha; discriminate)
           ltac:(simpl; lia) eq_refl eq_refl).
Defined.

Lemma wait_for_response_first_frame_sends_flow_control_witness :
  exists tx' w',
    handle_wait_for_response physical_sender comm_receiveFrame 1000 Scenario.resp_tx
      (Scenario.world [Scenario.ff_at 30] None) = Some (tx', w') /\
    w_sent w' = [] ++ [(30%nat, build (FlowControl UDS_TP_FLOW_STATUS_CONTINUE_TO_SEND 0 0)
                                  2016 VCI_UDS_CAN_CLASSIC 8 204)] /\
    w_clock w' = 30%nat /\ w_bus w' = [] /\
    m_reassembler tx' = snd (Reassembler_processFrame Reassembler_new
                               (FirstFrame 20 [98; 241; 144; 1; 2; 3])) /\
    m_state tx' = RECEIVE_CONSECUTIVE_FRAMES.
Proof.
  exact (wait_for_response_first_frame_sends_flow_control 999 Scenario.resp_tx
           (Scenario.world [Scenario.ff_at 30] None) 30 (snd (Scenario.ff_at 30)) []
           20 [98; 241; 144; 1; 2; 3] _ eq_refl eq_refl ltac:(simpl; lia)
           ltac:(intros a Ha; discriminate) ltac:(simpl; lia) eq_refl eq_refl).
Defined.

Lemma wait_for_response_silence_times_out_witness :
  exists w',
    handle_wait_for_response physical_sender comm_receiveFrame 1000 Scenario.resp_tx
      (Scenario.world [Scenario.foreign_at 30] None)
    = Some (fail Scenario.resp_tx VCI_UDS_RESULT_TIMEOUT_A, w') /\
    w_clock w' = 100%nat /\ w_sent w' = [].
Proof.
  exact (wait_for_response_silence_times_out physical_sender 999 Scenario.resp_tx
           (Scenario.world [Scenario.foreign_at 30] None) ltac:(intros a Ha; discriminate)
           ltac:(repeat constructor; simpl; discriminate) ltac:(simpl; lia)).
Defined.

Lemma send_consecutive_frames_paced_witness :
  exists tx' w',
    handle_send_consecutive_frames physical_sender 1000 Scenario.cf_tx (Scenario.world [] None)
    = Some (tx', w') /\
    map fst (w_sent w') = [20%nat; 40%nat] /\
    (exists l, w_sent w' = [] ++ l /\ spaced 20 0 l /\
       (0 < 0 -> Z.of_nat (length l) + 0 <= Z.max 0 0)).
Proof.
  exists_result (handle_send_consecutive_frames physical_sender 1000 Scenario.cf_tx
                   (Scenario.world [] None)).
  split; [reflexivity|]. exact (send_consecutive_frames_paced _ _ _ _ _ E).
Defined.

Lemma receive_consecutive_frames_sends_nothing_witness :
  exists tx' w',
    handle_receive_consecutive_frames comm_receiveFrame 1000 Scenario.rcf_tx
      (Scenario.world [Scenario.cf_at 10 1; Scenario.cf_at 20 2] None) = Some (tx', w') /\
    m_state tx' = COMPLETED /\ w_sent w' = [].
Proof.
  exists_result (handle_receive_consecutive_frames comm_receiveFrame 1000 Scenario.rcf_tx
    (Scenario.world [Scenario.cf_at 10 1; Scenario.cf_at 20 2] None)).
  split; [reflexivity|]. exact (receive_consecutive_frames_sends_nothing _ _ _ _ _ E).
Defined.

Lemma abort_observed_at_poll_points_witness :
  exists r w',
    Scenario.run 5 [Scenario.pending_at 20; Scenario.positive_at 200] (Some 50%nat) = Some (r, w') /\
    result_code r = VCI_UDS_RESULT_ABORTED /\
    exists l, w_sent w' = w_sent (Scenario.world [Scenario.pending_at 20; Scenario.positive_at 200]
                                    (Some 50%nat)) ++ l /\
      (sent_from 50 l = [] \/ exists f, sent_from 50 l = [(50%nat, f)] /\ w_clock w' = 50%nat) /\
      ((w_clock w' < 50)%nat \/
       (result_code r = VCI_UDS_RESULT_ABORTED /\ (w_clock w' <= 50 + 10)%nat) \/
       (result_code r = VCI_UDS_RESULT_SEND_FAILED /\ w_clock w' = 50%nat)).
Proof.
  exists_result (Scenario.run 5 [Scenario.pending_at 20; Scenario.positive_at 200] (Some 50%nat)).
  split; [reflexivity|].
  exact (abort_observed_at_poll_points 1000 (Transaction_new (Scenario.ctx 5) Scenario.rdbi)
           (Scenario.world [Scenario.pending_at 20; Scenario.positive_at 200] (Some 50%nat))
           50 _ _ eq_refl ltac:(simpl; lia) ltac:(repeat constructor; simpl; lia) E).
Defined.

Lemma keepAlive_retry_after_failed_send_witness :
  exists fr w',
    KeepAlive.keepAliveLocked (Scenario.ctx 5) (Scenario.slow_sender 3)
      (set_last_tx (set_clock (Scenario.world [] None) 5000) 1000) = (Some fr, w') /\
    w_clock w' = 5003%nat /\ w_last_tx w' = 5003%nat /\
    forall now', (w_clock w' <= now' < w_clock w' + 2000)%nat ->
      KeepAlive.keepAliveRound (Scenario.ctx 5) now' (w_last_tx w') =
      KeepAlive.KaSleep (2000 - (now' - w_clock w')).
Proof.
  set (w0 := set_last_tx (set_clock (Scenario.world [] None) 5000) 1000).
  destruct (KeepAlive.keepAliveLocked (Scenario.ctx 5) (Scenario.slow_sender 3) w0)
    as [[fr|] w'] eqn:E; [|vm_compute in E; discriminate].
  exists fr, w'. split; [reflexivity|].
  destruct (keepAlive_retry_after_failed_send (Scenario.ctx 5) (Scenario.slow_sender 3) w0 w' fr
              (fun f w1 => eq_refl) ltac:(simpl; lia) E) as [_ Hs].
  destruct (Hs eq_refl) as [Hc [Hl Hsl]].
  split; [rewrite Hc; reflexivity|].
  split; [rewrite Hl, Hc; reflexivity|].
  exact Hsl.
Defined.

Lemma executeTransaction_pointer_race_witness :
  (1 <> 2)%nat /\
  (let c := TxLock.run (fun _ => 3%nat) true
              [TxLock.TTx 1; TxLock.TTx 2; TxLock.TTx 1; TxLock.TTx 1] TxLock.init in
   TxLock.c_tx c 1 = TxLock.T_Executing 2 3 /\
   let c' := TxLock.run (fun _ => 3%nat) true
               (repeat (TxLock.TTx 1) 3 ++ [TxLock.TTx 1; TxLock.TTx 1]) c in
   TxLock.c_sends c' = repeat (TxLock.TTx 1) 3 /\ TxLock.c_tx c' 1 = TxLock.T_Done /\
   TxLock.c_tx c' 2 = TxLock.T_Created /\ TxLock.c_fault c' = false /\
   TxLock.c_fault (TxLock.run (fun _ => 3%nat) true [TxLock.TTx 2; TxLock.TTx 2] c') = true).
Proof.
  split; [lia|].
  exact (TxLockFacts.executeTransaction_pointer_race (fun _ => 3%nat) true 1 2 ltac:(lia)).
Defined.

Lemma keepAliveRound_sleeps_until_due_witness :
  KeepAlive.keepAliveRound (Scenario.ctx 5) 1500 1000 = KeepAlive.KaSleep 1500 /\
  ((0 < 1500 <= 2000)%nat /\ ((1000 <= 1500)%nat -> (1500 + 1500 = 1000 + 2000)%nat) /\
   ((1500 < 1000)%nat -> 1500%nat = 2000%nat)).
Proof.
  split; [reflexivity|].
  exact (keepAliveRound_sleeps_until_due (Scenario.ctx 5) 1500 1000 1500 eq_refl).
Defined.

Lemma executeTransaction_ignores_stale_frames_witness :
  ExecuteTransaction.executeTransaction (Scenario.ctx 5) 1000 Scenario.rdbi
    (Scenario.world [Scenario.positive_at 40] None)
  = ExecuteTransaction.executeTransaction (Scenario.ctx 5) 1000 Scenario.rdbi
      (Scenario.world [Scenario.pending_at 0; Scenario.foreign_at 0; Scenario.positive_at 40] None).
Proof.
  exact (executeTransaction_ignores_stale_frames (Scenario.ctx 5) 1000 Scenario.rdbi _ _
           ltac:(discriminate) eq_refl eq_refl eq_refl eq_refl eq_refl eq_refl).
Defined.

Lemma securityAccess_final_response_on_early_stop_witness :
  SecurityAccess.executeSecurityAccessSequence (fun _ _ => (VCI_UDS_RESULT_OK, [103; 1]))
    demo_calculateKey 1 [1; 2]
  = (VCI_UDS_RESULT_SECURITY_INVALID_SEED, [1; 2], [SecurityAccess.CallRequestSync [39; 1]]) /\
  [1; 2] = (if SecurityAccess.is_ok VCI_UDS_RESULT_OK then [1; 2] else [103; 1]).
Proof.
  split; [reflexivity|].
  exact (securityAccess_final_response_on_early_stop (fun _ _ => (VCI_UDS_RESULT_OK, [103; 1]))
           demo_calculateKey 1 [1; 2] [1; 2] _ _ eq_refl ltac:(simpl; lia)).
Defined.
